(** * Storefront menu and vendor menu administration

    A shallow embedding of the two React components of the repository:

    - [Menu] (src/components/Menu.tsx): the storefront, which fetches the
      available menu items joined with their order history and derives a
      remaining quantity per item;
    - [MenuManagement] (the administration screen): load, create, update
      and delete of a vendor's menu items, with image upload.

    JavaScript numbers are IEEE-754 binary64 values; they are represented
    by the Standard Library's [spec_float], prices and quantities alike.
    The sums and the difference the storefront computes on quantities
    are binary64 operations: they agree with integer arithmetic as long
    as every intermediate result stays below 2^53 in magnitude, and
    round beyond. *)

From Stdlib Require Import ZArith List String Ascii Bool Lia.
From Stdlib Require Import Sorted Permutation.
From Stdlib Require Import SpecFloat.
Import ListNotations.

Local Open Scope string_scope.
Local Open Scope Z_scope.

(** ** JavaScript values shared by both components *)

Module JS.

(** *** Numbers *)

(** A JavaScript number. *)
Definition Number := spec_float.

Definition prec : Z := 53.
Definition emax : Z := 1024.

Definition NaN : Number := S754_nan.

Definition isNaN (x : Number) : bool :=
  match x with S754_nan => true | _ => false end.

(** A finite binary64 value in canonical form. *)
Definition finite_Number (x : Number) : Prop :=
  match x with
  | S754_zero _ => True
  | S754_finite _ m e => bounded prec emax m e = true
  | _ => False
  end.

(** [SameValue] on numbers: distinguishes the two zeros. *)
Definition sameValue (x y : Number) : bool :=
  match x, y with
  | S754_nan, S754_nan => true
  | S754_zero a, S754_zero b => Bool.eqb a b
  | S754_infinity a, S754_infinity b => Bool.eqb a b
  | S754_finite a m e, S754_finite b m' e' =>
      Bool.eqb a b && Pos.eqb m m' && Z.eqb e e'
  | _, _ => false
  end.

(** [x === y] on numbers: the two zeros are equal, NaN equals nothing. *)
Definition strictEquals (x y : Number) : bool := SFeqb x y.

(** The literal [0]. *)
Definition zero : Number := S754_zero false.

(** [x + y] and [x - y] on numbers: round to nearest, ties to even. *)
Definition add (x y : Number) : Number := SFadd prec emax x y.

Definition sub (x y : Number) : Number := SFsub prec emax x y.

(** [x < y] on numbers: false when either is NaN. *)
Definition lt (x y : Number) : bool := SFltb x y.

(** One step of the loop of [Math.max] on a number that is not NaN:
    the positive zero replaces the negative one, and a greater number
    replaces [highest]. *)
Definition max_step (highest number : Number) : Number :=
  match highest, number with
  | S754_zero true, S754_zero false => number
  | _, _ => if lt highest number then number else highest
  end.

(** [Math.max(...args)]: NaN when an argument is NaN; otherwise the
    loop starts from minus infinity. *)
Definition Math_max (args : list Number) : Number :=
  if existsb isNaN args then NaN
  else fold_left max_step args (S754_infinity true).

(** [ToBoolean] on numbers: the zeros and NaN are falsy. *)
Definition truthy (x : Number) : bool :=
  match x with
  | S754_zero _ | S754_nan => false
  | _ => true
  end.

(** The Number value for the integer [z], as an integer literal or an
    integer of a JSON text gives it: [z] rounded to nearest. *)
Definition of_Z (z : Z) : Number := binary_normalize prec emax z 0 false.

(** The integer part of a finite number; the number itself when it is
    an integer. *)
Definition to_Z (x : Number) : Z :=
  match x with
  | S754_finite s m e =>
      cond_Zopp s (if 0 <=? e then Zpos m * 2 ^ e else Zpos m / 2 ^ (- e))
  | _ => 0
  end.

(** The number is the Number value of an integer (the negative zero is
    not). *)
Definition integer (x : Number) : Prop := x = of_Z (to_Z x).

(** The Number value for the positive rational [a / b]: round to
    nearest, ties to even, overflow to infinity, underflow to zero. *)
Definition Number_of_ratio (neg : bool) (a b : Z) : Number :=
  let '(q, e, loc) := SFdiv_core_binary prec emax a 0 b 0 in
  binary_round_aux prec emax neg q e loc.

(** The Number value for [d * 10^x], [0 <= d]. *)
Definition Number_of_decimal (neg : bool) (d x : Z) : Number :=
  if d =? 0 then S754_zero neg
  else if 0 <=? x then Number_of_ratio neg (d * 10 ^ x) 1
  else Number_of_ratio neg d (10 ^ (- x)).

(** *** Decimal digits *)

Definition is_digit (c : ascii) : bool :=
  let n := N_of_ascii c in ((48 <=? n) && (n <=? 57))%N.

Definition digit_val (c : ascii) : Z := Z.of_N (N_of_ascii c) - 48.

Definition digit_char (d : Z) : ascii := ascii_of_N (Z.to_N (d + 48)).

(** The value of a run of decimal digits, most significant first. *)
Definition digits_value (ds : list ascii) : Z :=
  fold_left (fun acc c => 10 * acc + digit_val c) ds 0.

(** The longest run of decimal digits at the head of the text. *)
Fixpoint span_digits (l : list ascii) : list ascii * list ascii :=
  match l with
  | c :: r =>
      if is_digit c
      then let (ds, rest) := span_digits r in (c :: ds, rest)
      else ([], l)
  | [] => ([], [])
  end.

Fixpoint digits_aux (fuel : nat) (n : Z) (acc : list ascii) : list ascii :=
  match fuel with
  | O => acc
  | S fuel' =>
      let acc' := digit_char (n mod 10) :: acc in
      if n <? 10 then acc' else digits_aux fuel' (n / 10) acc'
  end.

(** The decimal digits of [0 <= n], most significant first, without
    leading zeros ([0] gives one digit). *)
Definition digits_of (n : Z) : list ascii :=
  digits_aux (S (Z.to_nat (Z.log2 n))) n [].

(** *** parseFloat *)

(** [StrWhiteSpaceChar], on the UTF-8 encoding of the text: tab, line
    feed, vertical tab, form feed, carriage return and space; *)
Definition ws1 (c : ascii) : bool :=
  let n := N_of_ascii c in
  ((9 <=? n) && (n <=? 13) || (n =? 32))%N.

(** U+00A0 (no-break space); *)
Definition ws2 (c1 c2 : ascii) : bool :=
  ((N_of_ascii c1 =? 194) && (N_of_ascii c2 =? 160))%N.

(** U+1680, U+2000..U+200A, U+2028, U+2029, U+202F, U+205F, U+3000 and
    U+FEFF. *)
Definition ws3 (c1 c2 c3 : ascii) : bool :=
  let a := N_of_ascii c1 in
  let b := N_of_ascii c2 in
  let c := N_of_ascii c3 in
  ((a =? 225) && (b =? 154) && (c =? 128)
   || (a =? 226) && (b =? 128)
      && ((128 <=? c) && (c <=? 138) || (c =? 168) || (c =? 169)
          || (c =? 175))
   || (a =? 226) && (b =? 129) && (c =? 159)
   || (a =? 227) && (b =? 128) && (c =? 128)
   || (a =? 239) && (b =? 187) && (c =? 191))%N.

(** [TrimString(inputString, start)]. *)
Fixpoint TrimStart (l : list ascii) : list ascii :=
  match l with
  | c1 :: r1 =>
      if ws1 c1 then TrimStart r1
      else
        match r1 with
        | c2 :: r2 =>
            if ws2 c1 c2 then TrimStart r2
            else
              match r2 with
              | c3 :: r3 => if ws3 c1 c2 c3 then TrimStart r3 else l
              | [] => l
              end
        | [] => l
        end
  | [] => []
  end.

(** A parsed [StrUnsignedDecimalLiteral]. *)
Inductive literal :=
| LitInfinity
| LitDecimal (int_part frac_part : list ascii) (exponent : Z).

Definition is_exponent_indicator (c : ascii) : bool :=
  (Ascii.eqb c "e" || Ascii.eqb c "E")%bool.

(** [ExponentPart], when the text starts with one, and the text after
    it; [0] and the whole text otherwise.  An indicator that no digit
    follows is not part of the literal. *)
Definition ExponentPart (l : list ascii) : Z * list ascii :=
  match l with
  | c :: r =>
      if is_exponent_indicator c then
        match r with
        | s :: r' =>
            if (Ascii.eqb s "+" || Ascii.eqb s "-")%bool then
              match span_digits r' with
              | ([], _) => (0, l)
              | (ds, rest) =>
                  (if Ascii.eqb s "-" then - digits_value ds
                   else digits_value ds, rest)
              end
            else
              match span_digits r with
              | ([], _) => (0, l)
              | (ds, rest) => (digits_value ds, rest)
              end
        | [] => (0, l)
        end
      else (0, l)
  | [] => (0, l)
  end.

Definition Infinity_text : list ascii := list_ascii_of_string "Infinity".

(** The text after the prefix [p], when the text starts with [p]. *)
Fixpoint strip_prefix (p l : list ascii) : option (list ascii) :=
  match p, l with
  | [], _ => Some l
  | a :: p', b :: l' => if Ascii.eqb a b then strip_prefix p' l' else None
  | _ :: _, [] => None
  end.

(** The longest prefix of the text that is a
    [StrUnsignedDecimalLiteral], parsed, and the text after it; [None]
    when there is none. *)
Definition StrUnsignedDecimalLiteral (l : list ascii)
  : option (literal * list ascii) :=
  match strip_prefix Infinity_text l with
  | Some rest => Some (LitInfinity, rest)
  | None =>
      let (int_part, rest) := span_digits l in
      match rest with
      | "."%char :: rest' =>
          let (frac_part, rest'') := span_digits rest' in
          match int_part, frac_part with
          | [], [] => None
          | _, _ =>
              let (x, after) := ExponentPart rest'' in
              Some (LitDecimal int_part frac_part x, after)
          end
      | _ =>
          match int_part with
          | [] => None
          | _ =>
              let (x, after) := ExponentPart rest in
              Some (LitDecimal int_part [] x, after)
          end
      end
  end.

(** [StringNumericValue] of a literal with its sign. *)
Definition literal_value (neg : bool) (lit : literal) : Number :=
  match lit with
  | LitInfinity => S754_infinity neg
  | LitDecimal i f x =>
      Number_of_decimal neg (digits_value (i ++ f))
                        (x - Z.of_nat (List.length f))
  end.

(** The longest prefix that is a [StrDecimalLiteral]: its sign, its
    literal, and the text after it. *)
Definition StrDecimalLiteral (l : list ascii)
  : option (bool * literal * list ascii) :=
  let signed (neg : bool) (r : list ascii) :=
    match StrUnsignedDecimalLiteral r with
    | Some (lit, rest) => Some (neg, lit, rest)
    | None => None
    end in
  match l with
  | c :: r =>
      if Ascii.eqb c "-" then signed true r
      else if Ascii.eqb c "+" then signed false r
      else signed false l
  | [] => None
  end.

(** [parseFloat(string)]: the value of the longest prefix of the
    trimmed text that is a decimal literal, NaN when there is none.
    What follows the prefix is ignored. *)
Definition parseFloat (s : string) : Number :=
  match StrDecimalLiteral (TrimStart (list_ascii_of_string s)) with
  | Some (neg, lit, _) => literal_value neg lit
  | None => NaN
  end.

(** The text is, leading and trailing white space apart, a decimal
    literal as a whole. *)
Definition numeric_text (s : string) : bool :=
  match StrDecimalLiteral (TrimStart (list_ascii_of_string s)) with
  | Some (_, _, rest) =>
      match TrimStart rest with
      | [] => true
      | _ => false
      end
  | None => false
  end.

(** *** Number::toString, radix 10

    For a finite [x] other than zero the text is made of integers [n],
    [k] and [s] with [1 <= k], [10^(k-1) <= s < 10^k], the Number value
    for [s * 10^(n-k)] being [x], and [k] as small as possible; among
    several [s] the one closest to [x] is taken.  The search below looks
    for them among the prefixes of the exact decimal expansion of [x],
    rounded down and up, and checks each against the Number value. *)

(** A finite non-zero value written exactly: [m * 2^e = S * 10^E]. *)
Definition exact_decimal (m : positive) (e : Z) : Z * Z :=
  if 0 <=? e then (Zpos m * 2 ^ e, 0) else (Zpos m * 5 ^ (- e), e).

(** The digits [s] and the exponent [n - k] of the two [k]-digit
    decimals around the value [S * 10^E], [S] of [K] digits: the first
    [k] digits of [S], and their successor.  One is kept when its Number
    value is [x], the closer one when both are, the even one when they
    are equally close. *)
Definition candidate (x : Number) (S K E k : Z) : option (Z * Z) :=
  let u := 10 ^ (K - k) in
  let lo := (S / u, E + (K - k)) in
  let hi :=
    if S / u + 1 =? 10 ^ k then (10 ^ (k - 1), E + (K - k) + 1)
    else (S / u + 1, E + (K - k)) in
  let ok_lo := sameValue (Number_of_decimal false (fst lo) (snd lo)) x in
  let ok_hi := sameValue (Number_of_decimal false (fst hi) (snd hi)) x in
  match ok_lo, ok_hi with
  | true, true =>
      match 2 * (S mod u) ?= u with
      | Lt => Some lo
      | Gt => Some hi
      | Eq => if Z.even (fst lo) then Some lo else Some hi
      end
  | true, false => Some lo
  | false, true => Some hi
  | false, false => None
  end.

(** The search for the least [k], from [k] on; at [k = K] the exact
    digits are the answer. *)
Fixpoint shortest (x : Number) (S K E : Z) (fuel : nat) (k : Z) : Z * Z :=
  match fuel with
  | O => (S, E)
  | Datatypes.S fuel' =>
      match candidate x S K E k with
      | Some sx => sx
      | None => shortest x S K E fuel' (k + 1)
      end
  end.

Definition zeros (n : Z) : list ascii := repeat "0"%char (Z.to_nat n).

(** The exponent part the text of a number ends with. *)
Definition exponent_text (x : Z) : list ascii :=
  "e"%char :: (if x <? 0 then "-"%char else "+"%char) :: digits_of (Z.abs x).

(** Steps 6-10: the text for the digits of [s] and the exponent [n]. *)
Definition format_decimal (ds : list ascii) (n : Z) : list ascii :=
  let k := Z.of_nat (List.length ds) in
  if (k <=? n) && (n <=? 21) then ds ++ zeros (n - k)
  else if (0 <? n) && (n <=? 21)
  then firstn (Z.to_nat n) ds ++ "."%char :: skipn (Z.to_nat n) ds
  else if (-6 <? n) && (n <=? 0)
  then "0"%char :: "."%char :: zeros (- n) ++ ds
  else
    match ds with
    | [d] => d :: exponent_text (n - 1)
    | d :: rest => d :: "."%char :: rest ++ exponent_text (n - 1)
    | [] => []
    end.

(** The text of a positive finite value [m * 2^e]: with [s] of [k]
    digits and [s * 10^(n - k)] the decimal chosen, the text for [s] and
    [n]. *)
Definition toString_finite (m : positive) (e : Z) : list ascii :=
  let (S, E) := exact_decimal m e in
  let K := Z.of_nat (List.length (digits_of S)) in
  let (s, x) := shortest (S754_finite false m e) S K E (Z.to_nat (K - 1)) 1 in
  let ds := digits_of s in
  format_decimal ds (x + Z.of_nat (List.length ds)).

(** [Number::toString(x, 10)]. *)
Definition toString (x : Number) : string :=
  match x with
  | S754_nan => "NaN"
  | S754_zero _ => "0"
  | S754_infinity neg => if neg then "-Infinity" else "Infinity"
  | S754_finite neg m e =>
      string_of_list_ascii
        ((if neg then ["-"%char] else []) ++ toString_finite m e)
  end.

(** *** Properties of texts and of the decimals they denote *)

Definition digits (ds : list ascii) : Prop :=
  Forall (fun c => is_digit c = true) ds.

(** The digits of a parsed literal are digits. *)
Definition well_formed (lit : literal) : Prop :=
  match lit with
  | LitInfinity => True
  | LitDecimal i f _ => digits i /\ digits f
  end.

(** The value with the sign replaced. *)
Definition with_sign (neg : bool) (x : Number) : Number :=
  match x with
  | S754_zero _ => S754_zero neg
  | S754_infinity _ => S754_infinity neg
  | S754_nan => S754_nan
  | S754_finite _ m e => S754_finite neg m e
  end.

(** What the search returns has the number as Number value. *)
Definition denotes (x : Number) (sx : Z * Z) : Prop :=
  0 <= fst sx /\ Number_of_decimal false (fst sx) (snd sx) = x.

(** The text stops the run of digits before it. *)
Definition stops (r : list ascii) : Prop :=
  match r with
  | [] => True
  | c :: _ => is_digit c = false
  end.

(** The text after the digits is not a decimal point. *)
Definition no_point (r : list ascii) : Prop :=
  match r with
  | c :: _ => c <> "."%char
  | [] => True
  end.

(** *** Strings *)

(** [s || d] on a value that is [null]/[undefined] or a string: the
    empty string is falsy. *)
Definition or_string (s : option string) (d : string) : string :=
  match s with
  | Some x => if String.eqb x "" then d else x
  | None => d
  end.

(** [s || null] on a string. *)
Definition or_null (s : string) : option string :=
  if String.eqb s "" then None else Some s.

End JS.

(** ** The storefront: src/components/Menu.tsx *)

Module Storefront.

(** [order:orders(status)]: the joined order of an order item. *)
Record OrderRef := { status : string }.

(** [order_items:order_items(quantity, order:orders(status))]. *)
Record OrderItem := {
  oi_quantity : JS.Number;
  oi_order : option OrderRef
}.

(** A record of the select on [menu_items] with its join expansion. *)
Record RawItem := {
  raw_id : string;
  raw_name : string;
  raw_name_ko : option string;
  raw_description : option string;
  raw_description_ko : option string;
  raw_price : JS.Number;
  raw_image : option string;
  raw_quantity : option JS.Number;
  raw_order_items : option (list OrderItem)
}.

(** The presentation record handed to the grid ([MenuItem] of the cart
    context). *)
Record MenuItem := {
  id : string;
  name : string;
  nameKo : option string;
  description : string;
  descriptionKo : string;
  price : JS.Number;
  image : string;
  remainingQuantity : option JS.Number
}.

(** [orderItem.order?.status]. *)
Definition orderStatus (oi : OrderItem) : option string :=
  option_map status (oi_order oi).

(** The reducer of lines 41-47: [sum + orderItem.quantity] is the
    addition of two numbers. *)
Definition reducer (sum : JS.Number) (orderItem : OrderItem) : JS.Number :=
  match orderStatus orderItem with
  | Some s =>
      if (String.eqb s "completed" || String.eqb s "pending")%bool
      then JS.add sum (oi_quantity orderItem)
      else sum
  | None => sum
  end.

(** [x || 0] on an optional number: [undefined], the zeros and NaN
    give [0]. *)
Definition or_zero (x : option JS.Number) : JS.Number :=
  match x with
  | Some v => if JS.truthy v then v else JS.zero
  | None => JS.zero
  end.

(** [item.order_items?.reduce(reducer, 0) || 0]: the sum runs from the
    left, starting at [0]. *)
Definition totalOrdered (item : RawItem) : JS.Number :=
  or_zero (option_map (fun ois => fold_left reducer ois JS.zero)
                      (raw_order_items item)).

(** Lines 50-52: [Math.max(0, item.quantity - totalOrdered)] when the
    quantity is not null. *)
Definition remaining (item : RawItem) : option JS.Number :=
  match raw_quantity item with
  | Some cap =>
      Some (JS.Math_max [JS.zero; JS.sub cap (totalOrdered item)])
  | None => None
  end.

(** [Number(item.price)] on a value that is already a number. *)
Definition to_Number (x : JS.Number) : JS.Number := x.

(** The body of [items.map(item => ...)], lines 39-64. *)
Definition present (item : RawItem) : MenuItem :=
  {| id := raw_id item;
     name := raw_name item;
     nameKo := raw_name_ko item;
     description := JS.or_string (raw_description item) "";
     descriptionKo := JS.or_string (raw_description_ko item) "";
     price := to_Number (raw_price item);
     image := JS.or_string (raw_image item) "/placeholder.svg";
     remainingQuantity := remaining item |}.

(** What the awaited select resolves to: [{ data: items, error }]. *)
Record Response := {
  items : option (list RawItem);
  error : option string
}.

(** The result of an async function: it returns or it throws. *)
Inductive Settled (A : Type) :=
| Returned (a : A)
| Thrown (e : string).
Arguments Returned {A} a.
Arguments Thrown {A} e.

(** [queryFn], lines 14-65, applied to the response of the select. *)
Definition queryFn (r : Response) : Settled (list MenuItem) :=
  match error r with
  | Some e => Thrown e
  | None =>
      match items r with
      | None => Returned []
      | Some [] => Returned []
      | Some its => Returned (map present its)
      end
  end.

(** What [useQuery] hands to the component. *)
Record QueryResult := {
  data : option (list MenuItem);
  isLoading : bool;
  q_error : option string
}.

Definition pending : QueryResult :=
  {| data := None; isLoading := true; q_error := None |}.

(** The query result once [queryFn] has settled. *)
Definition settle (s : Settled (list MenuItem)) : QueryResult :=
  match s with
  | Returned l => {| data := Some l; isLoading := false; q_error := None |}
  | Thrown e => {| data := None; isLoading := false; q_error := Some e |}
  end.

Record Toast := {
  title : string;
  toast_description : string;
  destructive : bool
}.

(** The three renderings of lines 68-104. *)
Inductive View :=
| ErrorBlock (message : string)
| LoadingPlaceholder
| Grid (items : list MenuItem).

(** One render of [Menu]: the toasts it raises and the view it
    returns.  [data: menuItems = []] defaults a missing list. *)
Definition render (q : QueryResult) : list Toast * View :=
  let menuItems := match data q with Some l => l | None => [] end in
  match q_error q with
  | Some _ =>
      ([ {| title := "Error";
            toast_description :=
              "Failed to load menu items. Please try again later.";
            destructive := true |} ],
       ErrorBlock "Failed to load menu items. Please try again later.")
  | None =>
      if isLoading q then ([], LoadingPlaceholder)
      else ([], Grid menuItems)
  end.

(** The sum the specification names: the quantities of the order items
    whose order status is pending or completed. *)
Definition counts (oi : OrderItem) : bool :=
  match oi_order oi with
  | Some o => (String.eqb (status o) "pending"
               || String.eqb (status o) "completed")%bool
  | None => false
  end.

Definition sum_counted (ois : list OrderItem) : Z :=
  fold_right Z.add 0
             (map (fun oi => JS.to_Z (oi_quantity oi)) (filter counts ois)).

(** The magnitudes of the counted quantities, added up. *)
Definition magnitude (ois : list OrderItem) : Z :=
  fold_right Z.add 0
             (map (fun oi => Z.abs (JS.to_Z (oi_quantity oi)))
                  (filter counts ois)).

(** The cap and the counted quantities are integers, and their
    magnitudes add up to less than 2^53: every sum and difference the
    storefront computes on them is then a safe integer, whatever the
    order of the order items. *)
Definition safe_quantities (cap : JS.Number) (ois : list OrderItem) : Prop :=
  JS.integer cap
  /\ Forall (fun oi => counts oi = true -> JS.integer (oi_quantity oi)) ois
  /\ Z.abs (JS.to_Z cap) + magnitude ois < 2 ^ 53.

(** The joined order items of a record; none when the join is absent. *)
Definition order_items_of (item : RawItem) : list OrderItem :=
  match raw_order_items item with
  | Some ois => ois
  | None => []
  end.

(** The item of the specification's example: cap 10, quantities 3
    (pending), 2 (completed) and 5 (cancelled). *)
Definition example_item : RawItem :=
  {| raw_id := "kimchi"; raw_name := "Kimchi"; raw_name_ko := None;
     raw_description := None; raw_description_ko := None;
     raw_price := S754_zero false; raw_image := None;
     raw_quantity := Some (JS.of_Z 10);
     raw_order_items :=
       Some [ {| oi_quantity := JS.of_Z 3;
                 oi_order := Some {| status := "pending" |} |};
              {| oi_quantity := JS.of_Z 2;
                 oi_order := Some {| status := "completed" |} |};
              {| oi_quantity := JS.of_Z 5;
                 oi_order := Some {| status := "cancelled" |} |} ] |}.

Definition uncapped_item : RawItem :=
  {| raw_id := "tea"; raw_name := "Barley tea"; raw_name_ko := None;
     raw_description := None; raw_description_ko := None;
     raw_price := S754_zero false; raw_image := None;
     raw_quantity := None;
     raw_order_items :=
       Some [ {| oi_quantity := JS.of_Z 7;
                 oi_order := Some {| status := "pending" |} |} ] |}.

(** An item whose quantities leave the safe integers: cap 2^53 + 2,
    and pending orders of the quantities given. *)
Definition large_item (quantities : list Z) : RawItem :=
  {| raw_id := "rice"; raw_name := "Rice"; raw_name_ko := None;
     raw_description := None; raw_description_ko := None;
     raw_price := S754_zero false; raw_image := None;
     raw_quantity := Some (JS.of_Z (2 ^ 53 + 2));
     raw_order_items :=
       Some (map (fun q => {| oi_quantity := JS.of_Z q;
                              oi_order := Some {| status := "pending" |} |})
                 quantities) |}.

End Storefront.


(** ** The administration screen: MenuManagement *)

Module Admin.

(** *** Data *)

(** A row of [menu_items] as [select('*')] returns it: the fields of
    the [MenuItem] interface, and the owning vendor, which the filters
    name. *)
Record MenuItem := {
  id : string;
  vendor_id : string;
  name : string;
  name_ko : option string;
  description : option string;
  description_ko : option string;
  price : JS.Number;
  category : string;
  is_available : bool;
  image : option string
}.

(** A row of [vendors]; [select('id')] reads its identifier. *)
Record Vendor := {
  v_id : string;
  v_user_id : string
}.

(** A [File] of the browser. *)
Record File := {
  file_name : string;
  file_content : string
}.

(** The form state of lines 30-38. *)
Record FormData := {
  f_name : string;
  f_name_ko : string;
  f_description : string;
  f_description_ko : string;
  f_price : string;
  f_category : string;
  f_is_available : bool
}.

(** A property that is absent, [null], or set. *)
Inductive optional (A : Type) :=
| Undefined
| Null
| Defined (a : A).
Arguments Undefined {A}.
Arguments Null {A}.
Arguments Defined {A} a.

(** The object literal [menuItemData] of lines 111-121. *)
Record MenuItemData := {
  d_vendor_id : string;
  d_name : string;
  d_name_ko : option string;
  d_description : option string;
  d_description_ko : option string;
  d_price : JS.Number;
  d_category : string;
  d_is_available : bool;
  d_image : optional string
}.

Record Toast := {
  title : string;
  toast_description : string;
  destructive : bool
}.

(** *** The remote data client *)

(** An equality filter [.eq(column, value)]; the value of
    [session?.user?.id] may be [undefined]. *)
Definition eq_filter := (string * option string)%type.

(** The requests the screen builds, indexed by the type of [data]. *)
Inductive request : Type -> Type :=
| vendors_select_single (columns : string) (eqs : list eq_filter)
    : request Vendor
| menu_items_select (columns : string) (eqs : list eq_filter)
    (order : option (string * bool)) : request (list MenuItem)
| menu_items_update (values : MenuItemData) (eqs : list eq_filter)
    : request unit
| menu_items_insert (rows : list MenuItemData) : request unit
| menu_items_delete (eqs : list eq_filter) : request unit
| storage_upload (bucket path : string) (file : File) : request unit.

(** An awaited request resolves to [{ data, error }] or rejects. *)
Inductive reply (A : Type) :=
| Resolved (data : option A) (error : option string)
| Rejected (reason : string).
Arguments Resolved {A} data error.
Arguments Rejected {A} reason.

(** What the screen did to its surroundings: a request it sent, with
    the error or the rejection it met, and an identifier it drew. *)
Inductive event :=
| Call {A : Type} (r : request A) (failed : option string)
| Drew (uuid : string).

(** What the screen needs of its surroundings, over a world [W]: the
    remote service, the generator of identifiers and the public address
    of a stored object. *)
Class Env (W : Type) := {
  send : forall A, request A -> W -> reply A * W;
  randomUUID : W -> string * W;
  getPublicUrl : string -> string -> string
}.

(** *** The component state *)

(** The [useState] cells of lines 25-38. *)
Record UI := {
  menuItems : list MenuItem;
  loading : bool;
  isDialogOpen : bool;
  editingItem : option MenuItem;
  selectedImage : option File;
  formData : FormData
}.

Definition emptyForm : FormData :=
  {| f_name := ""; f_name_ko := ""; f_description := "";
     f_description_ko := ""; f_price := ""; f_category := "";
     f_is_available := true |}.

(** The state on mount. *)
Definition initialUI : UI :=
  {| menuItems := []; loading := true; isDialogOpen := false;
     editingItem := None; selectedImage := None; formData := emptyForm |}.

(** The component state with what it has emitted and the world it
    talks to. *)
Record State (W : Type) := {
  ui : UI;
  toasts : list Toast;
  console : list string;
  events : list event;
  world : W
}.
Arguments ui {W} _.
Arguments toasts {W} _.
Arguments console {W} _.
Arguments events {W} _.
Arguments world {W} _.
Arguments Build_State {W} _ _ _ _ _.

(** *** Computations: state and exceptions *)

Inductive outcome (A : Type) :=
| Ok (a : A)
| Throw (e : string).
Arguments Ok {A} a.
Arguments Throw {A} e.

Definition M (W A : Type) : Type := State W -> outcome A * State W.

Definition ret {W A} (a : A) : M W A := fun st => (Ok a, st).

Definition bind {W A B} (c : M W A) (k : A -> M W B) : M W B :=
  fun st =>
    match c st with
    | (Ok a, st') => k a st'
    | (Throw e, st') => (Throw e, st')
    end.

Definition throw {W A} (e : string) : M W A := fun st => (Throw e, st).

(** [try { body } catch (error) { handler }]. *)
Definition try_catch {W A} (body : M W A) (handler : string -> M W A)
  : M W A :=
  fun st =>
    match body st with
    | (Ok a, st') => (Ok a, st')
    | (Throw e, st') => handler e st'
    end.

(** [try { body } finally { final }]: a throw of the body is thrown
    again after [final], unless [final] throws itself. *)
Definition try_finally {W A} (body : M W A) (final : M W unit) : M W A :=
  fun st =>
    match body st with
    | (r, st') =>
        match final st' with
        | (Ok _, st'') => (r, st'')
        | (Throw e, st'') => (Throw e, st'')
        end
    end.

Declare Scope js_scope.
Delimit Scope js_scope with js.
Notation "x <- c ;; k" := (bind c (fun x => k))
  (at level 61, c at next level, right associativity) : js_scope.
Notation "c ;; k" := (bind c (fun _ => k))
  (at level 61, right associativity) : js_scope.
Local Open Scope js_scope.

Definition get_ui {W} : M W UI := fun st => (Ok (ui st), st).

Definition set_ui {W} (f : UI -> UI) : M W unit :=
  fun st =>
    (Ok tt, Build_State (f (ui st)) (toasts st) (console st) (events st)
                        (world st)).

Definition setMenuItems {W} (l : list MenuItem) : M W unit :=
  set_ui (fun u =>
    {| menuItems := l; loading := loading u;
       isDialogOpen := isDialogOpen u; editingItem := editingItem u;
       selectedImage := selectedImage u; formData := formData u |}).

Definition setLoading {W} (b : bool) : M W unit :=
  set_ui (fun u =>
    {| menuItems := menuItems u; loading := b;
       isDialogOpen := isDialogOpen u; editingItem := editingItem u;
       selectedImage := selectedImage u; formData := formData u |}).

Definition setIsDialogOpen {W} (b : bool) : M W unit :=
  set_ui (fun u =>
    {| menuItems := menuItems u; loading := loading u;
       isDialogOpen := b; editingItem := editingItem u;
       selectedImage := selectedImage u; formData := formData u |}).

Definition setEditingItem {W} (it : option MenuItem) : M W unit :=
  set_ui (fun u =>
    {| menuItems := menuItems u; loading := loading u;
       isDialogOpen := isDialogOpen u; editingItem := it;
       selectedImage := selectedImage u; formData := formData u |}).

Definition setSelectedImage {W} (f : option File) : M W unit :=
  set_ui (fun u =>
    {| menuItems := menuItems u; loading := loading u;
       isDialogOpen := isDialogOpen u; editingItem := editingItem u;
       selectedImage := f; formData := formData u |}).

Definition setFormData {W} (fd : FormData) : M W unit :=
  set_ui (fun u =>
    {| menuItems := menuItems u; loading := loading u;
       isDialogOpen := isDialogOpen u; editingItem := editingItem u;
       selectedImage := selectedImage u; formData := fd |}).

Definition toast {W} (t : Toast) : M W unit :=
  fun st =>
    (Ok tt, Build_State (ui st) (toasts st ++ [t]) (console st) (events st)
                        (world st)).

Definition console_error {W} (label error : string) : M W unit :=
  fun st =>
    (Ok tt, Build_State (ui st) (toasts st) (console st ++ [label ++ " " ++ error])
                        (events st) (world st)).

(** The state once the world has answered: the event is recorded. *)
Definition sent {W} (st : State W) (ev : event) (w' : W) : State W :=
  Build_State (ui st) (toasts st) (console st) (events st ++ [ev]) w'.

(** [await] of a request: the call is recorded, the world answers, and
    a rejection is thrown. *)
Definition await {W} `{Env W} {A} (r : request A)
  : M W (option A * option string) :=
  fun st =>
    match send A r (world st) with
    | (Resolved d e, w') => (Ok (d, e), sent st (Call r e) w')
    | (Rejected reason, w') =>
        (Throw reason, sent st (Call r (Some reason)) w')
    end.

(** A call of an async function that is not awaited: what it throws
    is not thrown to the caller. *)
Definition not_awaited {W} (c : M W unit) : M W unit :=
  try_catch c (fun _ => ret tt).

(** [crypto.randomUUID()]. *)
Definition fresh_uuid {W} `{Env W} : M W string :=
  fun st =>
    let (u, w') := randomUUID (world st) in
    (Ok u, sent st (Drew u) w').

(** *** The operations *)

(** [text.split(sep)] for a one-character separator. *)
Fixpoint split (sep : ascii) (l : list ascii) : list (list ascii) :=
  match l with
  | [] => [[]]
  | c :: r =>
      if Ascii.eqb c sep then [] :: split sep r
      else
        match split sep r with
        | seg :: segs => (c :: seg) :: segs
        | [] => [[c]]
        end
  end.

(** [array.pop()]: the last element, when there is one. *)
Definition pop {A} (l : list A) : option A :=
  match rev l with
  | x :: _ => Some x
  | [] => None
  end.

(** [file.name.split('.').pop()], as the template literal prints it. *)
Definition fileExt (file : File) : string :=
  match pop (split "." (list_ascii_of_string (file_name file))) with
  | Some seg => string_of_list_ascii seg
  | None => "undefined"
  end.

Definition failure (what : string) : Toast :=
  {| title := "Error"; toast_description := what; destructive := true |}.

Definition success (what : string) : Toast :=
  {| title := "Success"; toast_description := what; destructive := false |}.

(** The view of lines 208-249: the placeholder while loading, the
    list and the dialog otherwise. *)
Inductive View :=
| LoadingPlaceholder
| Screen (items : list MenuItem) (dialog : bool).

Section Component.

Context {W : Type} `{Env W}.

(** [session?.user?.id] of the [useSession] hook. *)
Variable session_user_id : option string.

(** Lines 44-70. *)
Definition loadMenuItems : M W unit :=
  try_finally
    (try_catch
       (r <- await (vendors_select_single "id"
                      [("user_id", session_user_id)]) ;;
        match fst r with
        | Some vendorData =>
            r' <- await (menu_items_select "*"
                           [("vendor_id", Some (v_id vendorData))]
                           (Some ("category", true))) ;;
            setMenuItems (match fst r' with Some l => l | None => [] end)
        | None => ret tt
        end)
       (fun error =>
          console_error "Error loading menu items:" error ;;
          toast (failure "Failed to load menu items")))
    (setLoading false).

(** Lines 72-93. *)
Definition handleImageUpload (file : File) : M W string :=
  try_catch
    (uuid <- fresh_uuid ;;
     let fileName := uuid ++ "." ++ fileExt file in
     let filePath := fileName in
     r <- await (storage_upload "menu_items" filePath file) ;;
     match snd r with
     | Some uploadError => throw uploadError
     | None => ret (getPublicUrl "menu_items" filePath)
     end)
    (fun error =>
       console_error "Error uploading image:" error ;;
       throw error).

(** Lines 196-206. *)
Definition resetForm : M W unit := setFormData emptyForm.

(** [editingItem?.image]. *)
Definition previous_image (editing : option MenuItem) : optional string :=
  match editing with
  | Some item =>
      match image item with
      | Some url => Defined url
      | None => Null
      end
  | None => Undefined
  end.

(** The object literal of lines 111-121. *)
Definition menuItemData (vendorData : Vendor) (fd : FormData)
           (imageUrl : optional string) : MenuItemData :=
  {| d_vendor_id := v_id vendorData;
     d_name := f_name fd;
     d_name_ko := JS.or_null (f_name_ko fd);
     d_description := JS.or_null (f_description fd);
     d_description_ko := JS.or_null (f_description_ko fd);
     d_price := JS.parseFloat (f_price fd);
     d_category := f_category fd;
     d_is_available := f_is_available fd;
     d_image := imageUrl |}.

(** Lines 106-109: the image of the record. *)
Definition chooseImage (u : UI) : M W (optional string) :=
  match selectedImage u with
  | Some file => url <- handleImageUpload file ;; ret (Defined url)
  | None => ret (previous_image (editingItem u))
  end.

(** Lines 123-133: the update or the insert, and its [error]. *)
Definition save (u : UI) (data : MenuItemData) : M W (option string) :=
  match editingItem u with
  | Some item =>
      r <- await (menu_items_update data [("id", Some (id item))]) ;;
      ret (snd r)
  | None =>
      r <- await (menu_items_insert [data]) ;;
      ret (snd r)
  end.

(** Lines 137-146: what follows a save without error. *)
Definition saved (u : UI) : M W unit :=
  toast (success ("Menu item "
                  ++ match editingItem u with
                     | Some _ => "updated"
                     | None => "added"
                     end
                  ++ " successfully")) ;;
  setIsDialogOpen false ;;
  setEditingItem None ;;
  setSelectedImage None ;;
  resetForm ;;
  not_awaited loadMenuItems.

(** Lines 95-155; [e.preventDefault()] touches nothing modelled
    here.  The handler reads [editingItem], [selectedImage] and
    [formData] as they were when it was called. *)
Definition handleSubmit : M W unit :=
  u <- get_ui ;;
  try_catch
    (r <- await (vendors_select_single "id"
                   [("user_id", session_user_id)]) ;;
     match fst r with
     | None => throw "Vendor not found"
     | Some vendorData =>
         imageUrl <- chooseImage u ;;
         error <- save u (menuItemData vendorData (formData u) imageUrl) ;;
         match error with
         | Some e => throw e
         | None => saved u
         end
     end)
    (fun error =>
       console_error "Error saving menu item:" error ;;
       toast (failure "Failed to save menu item")).

(** Lines 157-180. *)
Definition handleDelete (itemId : string) : M W unit :=
  try_catch
    (r <- await (menu_items_delete [("id", Some itemId)]) ;;
     match snd r with
     | Some e => throw e
     | None =>
         toast (success "Menu item deleted successfully") ;;
         not_awaited loadMenuItems
     end)
    (fun error =>
       console_error "Error deleting menu item:" error ;;
       toast (failure "Failed to delete menu item")).

(** Lines 182-194. *)
Definition handleEdit (item : MenuItem) : M W unit :=
  setEditingItem (Some item) ;;
  setFormData
    {| f_name := name item;
       f_name_ko := JS.or_string (name_ko item) "";
       f_description := JS.or_string (description item) "";
       f_description_ko := JS.or_string (description_ko item) "";
       f_price := JS.toString (price item);
       f_category := category item;
       f_is_available := is_available item |} ;;
  setIsDialogOpen true.

(** The [onClick] of the Add Item button, lines 218-222. *)
Definition addItemClick : M W unit :=
  setEditingItem None ;;
  resetForm ;;
  setSelectedImage None.

(** Lines 208-249. *)
Definition render (u : UI) : View :=
  if loading u then LoadingPlaceholder
  else Screen (menuItems u) (isDialogOpen u).

End Component.

End Admin.

(** ** A remote store to run the screen against

    Modelled from the spec: the remote data client is an external
    service, not code of the repository.  Its contract is the one of
    section 6: query a collection by equality filters with optional
    ordering, insert, update and delete records, upload an object and
    name its public address. *)

Module Backend.

Import Admin.

(** The tables and the bucket of the remote service, the identifiers
    still to be drawn, and what can go wrong: the service may be out of
    reach (every request rejects) and its policies may refuse writes
    (the request resolves with an error). *)
Record Database := {
  vendors : list Vendor;
  menu_items : list MenuItem;
  objects : list (string * string * File);
  uuids : list string;
  row_ids : list string;
  online : bool;
  writable : bool
}.

Definition with_tables (db : Database) (items : list MenuItem)
           (objs : list (string * string * File)) (ids : list string)
  : Database :=
  {| vendors := vendors db; menu_items := items; objects := objs;
     uuids := uuids db; row_ids := ids; online := online db;
     writable := writable db |}.

(** The text of a column of [menu_items] a filter or an ordering can
    name. *)
Definition item_column (c : string) : option (MenuItem -> string) :=
  if String.eqb c "id" then Some id
  else if String.eqb c "vendor_id" then Some vendor_id
  else if String.eqb c "category" then Some category
  else if String.eqb c "name" then Some name
  else None.

Definition vendor_column (c : string) : option (Vendor -> string) :=
  if String.eqb c "id" then Some v_id
  else if String.eqb c "user_id" then Some v_user_id
  else None.

(** Every filter names a column. *)
Definition known {R} (col : string -> option (R -> string))
           (eqs : list eq_filter) : bool :=
  forallb (fun f : eq_filter =>
             match col (fst f) with Some _ => true | None => false end) eqs.

(** The row satisfies every filter; a filter on [undefined] is
    satisfied by no row. *)
Definition satisfies {R} (col : string -> option (R -> string))
           (eqs : list eq_filter) (r : R) : bool :=
  forallb (fun f : eq_filter =>
             match col (fst f), snd f with
             | Some get, Some x => String.eqb (get r) x
             | _, _ => false
             end) eqs.

(** The rows that satisfy every filter; [None] when a filter names no
    column. *)
Definition matching {R} (col : string -> option (R -> string))
           (eqs : list eq_filter) (rows : list R) : option (list R) :=
  if known col eqs then Some (filter (satisfies col eqs) rows) else None.

(** Insertion into a list ordered by [key], after the equal keys. *)
Fixpoint insert_by (le : string -> string -> bool) (key : MenuItem -> string)
         (x : MenuItem) (l : list MenuItem) : list MenuItem :=
  match l with
  | [] => [x]
  | y :: l' =>
      if le (key y) (key x) then y :: insert_by le key x l'
      else x :: l
  end.

Definition sort_by (le : string -> string -> bool) (key : MenuItem -> string)
           (l : list MenuItem) : list MenuItem :=
  fold_left (fun acc x => insert_by le key x acc) l [].

Definition ordered (order : option (string * bool)) (rows : list MenuItem)
  : option (list MenuItem) :=
  match order with
  | None => Some rows
  | Some (c, ascending) =>
      match item_column c with
      | Some key =>
          Some (sort_by (if ascending then String.leb
                         else fun a b => String.leb b a) key rows)
      | None => None
      end
  end.

(** The row an insert stores. *)
Definition stored (rid : string) (d : MenuItemData) : MenuItem :=
  {| id := rid; vendor_id := d_vendor_id d; name := d_name d;
     name_ko := d_name_ko d; description := d_description d;
     description_ko := d_description_ko d; price := d_price d;
     category := d_category d; is_available := d_is_available d;
     image := match d_image d with Defined u => Some u | _ => None end |}.

(** The row an update leaves: a property that is absent leaves its
    column as it was. *)
Definition updated (d : MenuItemData) (old : MenuItem) : MenuItem :=
  {| id := id old; vendor_id := d_vendor_id d; name := d_name d;
     name_ko := d_name_ko d; description := d_description d;
     description_ko := d_description_ko d; price := d_price d;
     category := d_category d; is_available := d_is_available d;
     image := match d_image d with
              | Defined u => Some u
              | Null => None
              | Undefined => image old
              end |}.

Fixpoint store_rows (ids : list string) (rows : list MenuItemData)
  : list MenuItem * list string :=
  match rows with
  | [] => ([], ids)
  | d :: rows' =>
      let rid := hd "" ids in
      let (l, ids') := store_rows (tl ids) rows' in
      (stored rid d :: l, ids')
  end.

Definition refused {A} : reply A := Resolved None (Some "permission denied").

Definition bad_request {A} : reply A := Resolved None (Some "column does not exist").

(** What the service answers, and the database it leaves. *)
Definition serve {A} (r : request A) (db : Database) : reply A * Database :=
  if negb (online db) then (Rejected "Failed to fetch", db)
  else
    match r in request T return reply T * Database with
    | vendors_select_single _ eqs =>
        match matching vendor_column eqs (vendors db) with
        | Some [v] => (Resolved (Some v) None, db)
        | Some _ => (Resolved None (Some "no single row"), db)
        | None => (bad_request, db)
        end
    | menu_items_select _ eqs order =>
        match matching item_column eqs (menu_items db) with
        | Some rows =>
            match ordered order rows with
            | Some l => (Resolved (Some l) None, db)
            | None => (bad_request, db)
            end
        | None => (bad_request, db)
        end
    | menu_items_update values eqs =>
        if negb (writable db) then (refused, db)
        else
          if known item_column eqs then
            (Resolved None None,
             with_tables db
               (map (fun r => if satisfies item_column eqs r
                              then updated values r else r)
                    (menu_items db))
               (objects db) (row_ids db))
          else (bad_request, db)
    | menu_items_insert rows =>
        if negb (writable db) then (refused, db)
        else
          let (l, ids') := store_rows (row_ids db) rows in
          (Resolved None None,
           with_tables db (menu_items db ++ l) (objects db) ids')
    | menu_items_delete eqs =>
        if negb (writable db) then (refused, db)
        else
          if known item_column eqs then
            (Resolved None None,
             with_tables db
               (filter (fun r => negb (satisfies item_column eqs r))
                       (menu_items db))
               (objects db) (row_ids db))
          else (bad_request, db)
    | storage_upload bucket path file =>
        if negb (writable db) then (refused, db)
        else
          (Resolved (Some tt) None,
           with_tables db (menu_items db)
                       (objects db ++ [(bucket, path, file)]) (row_ids db))
    end.

Definition draw (db : Database) : string * Database :=
  (hd "" (uuids db),
   {| vendors := vendors db; menu_items := menu_items db;
      objects := objects db; uuids := tl (uuids db);
      row_ids := row_ids db; online := online db;
      writable := writable db |}).

Definition publicUrl (bucket path : string) : string :=
  "https://remote.example/storage/v1/object/public/" ++ bucket ++ "/" ++ path.

#[export] Instance db_env : Env Database := {
  send := @serve;
  randomUUID := draw;
  getPublicUrl := publicUrl
}.

(** The state of a freshly mounted screen in front of [db]. *)
Definition mounted (db : Database) : State Database :=
  Build_State initialUI [] [] [] db.

(** Ascending order of the categories. *)
Definition by_category (a b : MenuItem) : Prop :=
  String.leb (category a) (category b) = true.

(** The rows of the vendor. *)
Definition of_vendor (v : Vendor) (rows : list MenuItem) : list MenuItem :=
  filter (fun r => String.eqb (vendor_id r) (v_id v)) rows.

(** The vendors of the user. *)
Definition vendors_of (u : string) (db : Database) : list Vendor :=
  filter (fun x => String.eqb (v_user_id x) u) (vendors db).

End Backend.
(** ** What a run of the screen leaves behind *)

Module Trace.

Import Admin.
Local Open Scope list_scope.

(** The rows a request writes to [menu_items]. *)
Definition written (ev : event) : list MenuItemData :=
  match ev with
  | Call r _ =>
      match r with
      | menu_items_insert rows => rows
      | menu_items_update values _ => [values]
      | _ => []
      end
  | Drew _ => []
  end.

(** The event is a request that met an error or a rejection. *)
Definition failed (ev : event) : bool :=
  match ev with
  | Call _ (Some _) => true
  | _ => false
  end.

(** The event is a write to [menu_items] that failed. *)
Definition failed_save (ev : event) : bool :=
  match ev with
  | Call r (Some _) =>
      match r with
      | menu_items_insert _ => true
      | menu_items_update _ _ => true
      | _ => false
      end
  | _ => false
  end.

(** The event is a read of the list of [menu_items]. *)
Definition reads_list (ev : event) : bool :=
  match ev with
  | Call r _ =>
      match r with
      | menu_items_select _ _ _ => true
      | _ => false
      end
  | Drew _ => false
  end.

(** The requests of the screen, as it writes them. *)
Abbreviation lookup uid := (vendors_select_single "id" [("user_id", uid)]).

Abbreviation select_items v :=
  (menu_items_select "*" [("vendor_id", Some (v_id v))]
                     (Some ("category", true))).

Abbreviation upload_path uuid file :=
  (String.append uuid (String.append "." (fileExt file))).

Abbreviation upload_request uuid file :=
  (storage_upload "menu_items" (upload_path uuid file) file).

Definition save_request (editing : option MenuItem) (d : MenuItemData)
  : request unit :=
  match editing with
  | Some item => menu_items_update d [("id", Some (id item))]
  | None => menu_items_insert [d]
  end.

Definition load_failure : Toast := failure "Failed to load menu items".
Definition save_failure : Toast := failure "Failed to save menu item".

(** The events of a run from [st] to [st']. *)
Definition since {W} (st st' : State W) : list event :=
  skipn (List.length (events st)) (events st').

(** The component state after a successful save, before the reload. *)
Definition closed (u : UI) : UI :=
  {| menuItems := menuItems u; loading := loading u;
     isDialogOpen := false; editingItem := None;
     selectedImage := None; formData := emptyForm |}.

Definition save_success (editing : option MenuItem) : Toast :=
  success ("Menu item "
           ++ match editing with
              | Some _ => "updated"
              | None => "added"
              end ++ " successfully")%string.

Section Runs.

Context {W : Type} `{Env W}.
Variable uid : option string.

(** The four ways [loadMenuItems] ends. *)
Inductive loaded (st st' : State W) : Prop :=
| load_rejected reason w :
    send _ (lookup uid) (world st) = (Rejected reason, w) ->
    events st' = events st ++ [Call (lookup uid) (Some reason)] ->
    toasts st' = toasts st ++ [load_failure] ->
    menuItems (ui st') = menuItems (ui st) ->
    loaded st st'
| load_no_vendor e w :
    send _ (lookup uid) (world st) = (Resolved None e, w) ->
    events st' = events st ++ [Call (lookup uid) e] ->
    toasts st' = toasts st ->
    menuItems (ui st') = menuItems (ui st) ->
    loaded st st'
| load_select_rejected v e reason w w' :
    send _ (lookup uid) (world st) = (Resolved (Some v) e, w) ->
    send _ (select_items v) w = (Rejected reason, w') ->
    events st' = events st ++ [Call (lookup uid) e;
                               Call (select_items v) (Some reason)] ->
    toasts st' = toasts st ++ [load_failure] ->
    menuItems (ui st') = menuItems (ui st) ->
    loaded st st'
| load_selected v e data e' w w' :
    send _ (lookup uid) (world st) = (Resolved (Some v) e, w) ->
    send _ (select_items v) w = (Resolved data e', w') ->
    events st' = events st ++ [Call (lookup uid) e;
                               Call (select_items v) e'] ->
    toasts st' = toasts st ->
    menuItems (ui st') = match data with Some l => l | None => [] end ->
    loaded st st'.

(** How the image of a submitted record is chosen from the component
    state: the events of the upload, and the image. *)
Definition image_chosen (u : UI) (ups : list event)
           (img : optional string) : Prop :=
  match selectedImage u with
  | Some f =>
      exists uuid,
        ups = [Drew uuid; Call (upload_request uuid f) None]
        /\ img = Defined (getPublicUrl "menu_items" (upload_path uuid f))
  | None => ups = [] /\ img = previous_image (editingItem u)
  end.

(** The ways [handleSubmit] ends. *)
Inductive submitted (st st' : State W) : Prop :=
| submit_no_vendor e :
    events st' = events st ++ [Call (lookup uid) e] ->
    ui st' = ui st ->
    toasts st' = toasts st ++ [save_failure] ->
    submitted st st'
| submit_upload_failed e uuid f reason :
    selectedImage (ui st) = Some f ->
    events st' = events st ++ [Call (lookup uid) e; Drew uuid;
                               Call (upload_request uuid f) (Some reason)] ->
    ui st' = ui st ->
    toasts st' = toasts st ++ [save_failure] ->
    submitted st st'
| submit_save_failed v e ups img reason :
    image_chosen (ui st) ups img ->
    events st' = events st ++ Call (lookup uid) e :: ups
                   ++ [Call (save_request (editingItem (ui st))
                               (menuItemData v (formData (ui st)) img))
                            (Some reason)] ->
    ui st' = ui st ->
    toasts st' = toasts st ++ [save_failure] ->
    submitted st st'
| submit_saved v e ups img st1 :
    image_chosen (ui st) ups img ->
    events st1 = events st ++ Call (lookup uid) e :: ups
                   ++ [Call (save_request (editingItem (ui st))
                               (menuItemData v (formData (ui st)) img))
                            None] ->
    ui st1 = closed (ui st) ->
    toasts st1 = toasts st ++ [save_success (editingItem (ui st))] ->
    st' = snd (loadMenuItems uid st1) ->
    submitted st st'.

End Runs.

End Trace.

(** ** More to observe in a run *)

Module Observed.

Import Admin Trace.
Local Open Scope list_scope.

Definition delete_failure : Toast := failure "Failed to delete menu item".

Definition delete_success : Toast := success "Menu item deleted successfully".

(** The line [console.error(label, error)] leaves. *)
Definition logged (label error : string) : string :=
  (label ++ " " ++ error)%string.

(** The filters of the deletes a request asks for. *)
Definition deleted (ev : event) : list (list eq_filter) :=
  match ev with
  | Call r _ =>
      match r with
      | menu_items_delete eqs => [eqs]
      | _ => []
      end
  | Drew _ => []
  end.

(** The event is an upload to the bucket. *)
Definition is_upload (ev : event) : bool :=
  match ev with
  | Call r _ =>
      match r with
      | storage_upload _ _ _ => true
      | _ => false
      end
  | Drew _ => false
  end.

(** The event is a write to [menu_items] that met no error. *)
Definition saved_without_error (ev : event) : bool :=
  match ev with
  | Call r None =>
      match r with
      | menu_items_insert _ => true
      | menu_items_update _ _ => true
      | _ => false
      end
  | _ => false
  end.

(** The event is the lookup of the vendor. *)
Definition is_lookup (ev : event) : bool :=
  match ev with
  | Call r _ =>
      match r with
      | vendors_select_single _ _ => true
      | _ => false
      end
  | Drew _ => false
  end.

Abbreviation delete_request itemId :=
  (menu_items_delete [("id", Some itemId)]).

(** The state in which a delete that met no error starts the reload. *)
Definition after_delete {W} (st : State W) (itemId : string) (w : W)
  : State W :=
  Build_State (ui st) (toasts st ++ [delete_success]) (console st)
              (events st ++ [Call (delete_request itemId) None]) w.

(** An optional text after a pass through the form: [x || ''] on
    opening, [x || null] on submit. *)
Definition through_form (x : option string) : option string :=
  JS.or_null (JS.or_string x "").

(** A service that lets the user read the vendor row [v] and answers
    every other request with an error: a permission failure. *)
Definition refusing (v : Vendor) : Env unit :=
  {| send := fun A (r : request A) (w : unit) =>
               match r in request T return reply T * unit with
               | vendors_select_single _ _ => (Resolved (Some v) None, w)
               | _ => (Resolved None (Some "permission denied"), w)
               end;
     randomUUID := fun w => ("0000", w);
     getPublicUrl := Backend.publicUrl |}.

End Observed.

(** ** Concrete screens and stores *)

Module Scenario.

Import Admin Backend.

Definition vendor1 : Vendor := {| v_id := "v1"; v_user_id := "u1" |}.

Definition price_12_5 : JS.Number := Eval vm_compute in JS.parseFloat "12.5".

Definition bibimbap : MenuItem :=
  {| id := "m1"; vendor_id := "v1"; name := "Bibimbap";
     name_ko := None; description := Some "Rice bowl";
     description_ko := None; price := price_12_5; category := "main";
     is_available := true; image := Some "https://cdn.example/old.png" |}.

Definition tea : MenuItem :=
  {| id := "m2"; vendor_id := "v1"; name := "Barley tea";
     name_ko := None; description := None; description_ko := None;
     price := price_12_5; category := "drinks";
     is_available := true; image := None |}.

Definition ramen : MenuItem :=
  {| id := "m3"; vendor_id := "v2"; name := "Ramen";
     name_ko := None; description := None; description_ko := None;
     price := price_12_5; category := "all";
     is_available := true; image := None |}.

Definition store : Database :=
  {| vendors := [vendor1; {| v_id := "v2"; v_user_id := "u2" |}];
     menu_items := [bibimbap; tea; ramen];
     objects := [];
     uuids := ["3f0c"; "9a1e"];
     row_ids := ["m4"; "m5"];
     online := true;
     writable := true |}.

(** The same store behind a policy that refuses writes. *)
Definition read_only_store : Database :=
  {| vendors := vendors store; menu_items := menu_items store;
     objects := []; uuids := uuids store; row_ids := row_ids store;
     online := true; writable := false |}.

(** The same store out of reach. *)
Definition unreachable_store : Database :=
  {| vendors := vendors store; menu_items := menu_items store;
     objects := []; uuids := uuids store; row_ids := row_ids store;
     online := false; writable := true |}.

Definition photo : File :=
  {| file_name := "bowl.final.png"; file_content := "..." |}.

Definition form (price_text : string) : FormData :=
  {| f_name := "Tteokbokki"; f_name_ko := ""; f_description := "";
     f_description_ko := ""; f_price := price_text; f_category := "snacks";
     f_is_available := true |}.

Definition screen (editing : option MenuItem) (selected : option File)
           (fd : FormData) : UI :=
  {| menuItems := [bibimbap; tea]; loading := false; isDialogOpen := true;
     editingItem := editing; selectedImage := selected; formData := fd |}.

Definition on {W} (u : UI) (w : W) : State W := Build_State u [] [] [] w.

(** The record the submit of [form "4.5"] writes for vendor [v1]. *)
Definition tteokbokki (img : optional string) : MenuItemData :=
  menuItemData vendor1 (form "4.5") img.

End Scenario.

(** * Properties *)

(** ** Numbers and their texts *)

Module NumberFacts.

Import JS.
Local Open Scope list_scope.

(** *** Rounding never produces NaN *)

Lemma shr_1_nonneg (mrs : shr_record) :
  0 <= shr_m mrs -> 0 <= shr_m (shr_1 mrs).
Proof.
  destruct mrs as [m r s]. simpl.
  destruct m as [|[p|p|]|p]; simpl; lia.
Qed.

(** [iter_pos], counted in unary. *)
Lemma iter_pos_nat {A} (f : A -> A) (p : positive) :
  forall x, iter_pos f p x = Nat.iter (Pos.to_nat p) f x.
Proof.
  induction p as [p IH|p IH|]; intros x.
  - rewrite Pos2Nat.inj_xI.
    change (iter_pos f p~1 x) with (iter_pos f p (iter_pos f p (f x))).
    rewrite !IH.
    replace (S (2 * Pos.to_nat p)) with (Pos.to_nat p + (Pos.to_nat p + 1))%nat
      by lia.
    rewrite !Nat.iter_add. reflexivity.
  - rewrite Pos2Nat.inj_xO.
    change (iter_pos f p~0 x) with (iter_pos f p (iter_pos f p x)).
    rewrite !IH.
    replace (2 * Pos.to_nat p)%nat with (Pos.to_nat p + Pos.to_nat p)%nat
      by lia.
    rewrite Nat.iter_add. reflexivity.
  - reflexivity.
Qed.

Lemma iter_shr_1_nonneg (n : nat) (mrs : shr_record) :
  0 <= shr_m mrs -> 0 <= shr_m (Nat.iter n shr_1 mrs).
Proof.
  intros Hm. induction n as [|n IH]; simpl; [exact Hm|].
  now apply shr_1_nonneg.
Qed.

Lemma shr_nonneg (mrs : shr_record) (e n : Z) :
  0 <= shr_m mrs -> 0 <= shr_m (fst (shr mrs e n)).
Proof.
  intros Hm. destruct n as [|p|p]; simpl; try exact Hm.
  rewrite iter_pos_nat. now apply iter_shr_1_nonneg.
Qed.

Lemma shr_record_of_loc_m (m : Z) (l : location) :
  shr_m (shr_record_of_loc m l) = m.
Proof. destruct l as [|[]]; reflexivity. Qed.

Lemma shr_fexp_nonneg (m e : Z) (l : location) :
  0 <= m -> 0 <= shr_m (fst (shr_fexp prec emax m e l)).
Proof.
  intros Hm. unfold shr_fexp. apply shr_nonneg.
  now rewrite shr_record_of_loc_m.
Qed.

Lemma round_nearest_even_nonneg (m : Z) (l : location) :
  0 <= m -> 0 <= round_nearest_even m l.
Proof.
  intros Hm. destruct l as [|[]]; simpl; try lia.
  destruct (Z.even m); lia.
Qed.

Lemma binary_round_aux_not_NaN (neg : bool) (m e : Z) (l : location) :
  0 <= m -> binary_round_aux prec emax neg m e l <> S754_nan.
Proof.
  intros Hm. unfold binary_round_aux.
  pose proof (shr_fexp_nonneg m e l Hm) as H1.
  destruct (shr_fexp prec emax m e l) as [mrs' e'].
  simpl in H1.
  pose proof (shr_fexp_nonneg
                (round_nearest_even (shr_m mrs') (loc_of_shr_record mrs'))
                e' loc_Exact
                (round_nearest_even_nonneg _ _ H1)) as H2.
  destruct (shr_fexp prec emax _ e' loc_Exact) as [mrs'' e''].
  simpl in H2.
  destruct (shr_m mrs'') as [|p|p]; try discriminate; [|lia].
  destruct (e'' <=? emax - prec); discriminate.
Qed.

Lemma Number_of_ratio_not_NaN (neg : bool) (a b : Z) :
  0 <= a -> 0 < b -> Number_of_ratio neg a b <> S754_nan.
Proof.
  intros Ha Hb. unfold Number_of_ratio, SFdiv_core_binary.
  set (e' := Z.min _ _). set (m' := match 0 - 0 - e' with 0 => a | Z.pos _ => _ | Z.neg _ => 0 end).
  assert (Hm' : 0 <= m').
  { unfold m'. destruct (0 - 0 - e'); try lia.
    rewrite Z.shiftl_mul_pow2 by lia.
    apply Z.mul_nonneg_nonneg; [lia|]. apply Z.pow_nonneg. lia. }
  pose proof (Z_div_mod m' b ltac:(lia)) as Hdm.
  destruct (Z.div_eucl m' b) as [q r].
  apply binary_round_aux_not_NaN.
  destruct Hdm as [Hq Hr]. nia.
Qed.

Lemma Number_of_decimal_not_NaN (neg : bool) (d x : Z) :
  0 <= d -> Number_of_decimal neg d x <> S754_nan.
Proof.
  intros Hd. unfold Number_of_decimal.
  destruct (d =? 0); [discriminate|].
  destruct (0 <=? x) eqn:Ex.
  - apply Number_of_ratio_not_NaN; [|lia].
    apply Z.mul_nonneg_nonneg; [lia|]. apply Z.pow_nonneg. lia.
  - apply Number_of_ratio_not_NaN; [lia|].
    apply Z.pow_pos_nonneg; lia.
Qed.

(** *** A value that is a binary64 number is its own Number value *)

Lemma digits2_size (p : positive) : digits2_pos p = Pos.size p.
Proof. induction p; simpl; congruence. Qed.

Lemma Zdigits2_bounds (p : positive) :
  2 ^ (Zdigits2 (Zpos p) - 1) <= Zpos p < 2 ^ Zdigits2 (Zpos p).
Proof.
  cbn [Zdigits2]. rewrite digits2_size.
  pose proof (Pos.size_le p) as Hle. pose proof (Pos.size_gt p) as Hgt.
  apply Pos2Z.pos_le_pos in Hle. apply Pos2Z.pos_lt_pos in Hgt.
  rewrite Pos2Z.inj_pow in Hle, Hgt.
  change (Z.pos p~0) with (2 * Z.pos p) in Hle.
  replace (Z.pos (Pos.size p)) with (Z.succ (Z.pos (Pos.size p) - 1)) in Hle
    by lia.
  rewrite Z.pow_succ_r in Hle by lia.
  split; lia.
Qed.

Lemma Zdigits2_unique (p : positive) (d : Z) :
  2 ^ (d - 1) <= Zpos p < 2 ^ d -> Zdigits2 (Zpos p) = d.
Proof.
  intros [H1 H2]. pose proof (Zdigits2_bounds p) as [H3 H4].
  set (d' := Zdigits2 (Z.pos p)) in *.
  assert (Hd' : 0 < d') by (unfold d'; simpl; lia).
  assert (Hd : 0 < d).
  { destruct (Z.lt_ge_cases 0 d) as [|Hn]; [assumption|].
    destruct (Z.eq_dec d 0) as [->|]; [simpl in H2; lia|].
    rewrite Z.pow_neg_r in H2 by lia. lia. }
  assert (d - 1 < d').
  { apply (Z.pow_lt_mono_r_iff 2); lia. }
  assert (d' - 1 < d).
  { apply (Z.pow_lt_mono_r_iff 2); lia. }
  lia.
Qed.

Lemma Zdigits2_mul_pow2 (m : positive) (n : Z) :
  0 <= n -> Zdigits2 (Zpos m * 2 ^ n) = Zdigits2 (Zpos m) + n.
Proof.
  intros Hn. pose proof (Zdigits2_bounds m) as [H1 H2].
  assert (Hp : 0 < 2 ^ n) by (apply Z.pow_pos_nonneg; lia).
  assert (Hd : 0 < Zdigits2 (Zpos m)) by (simpl; lia).
  destruct (Zpos m * 2 ^ n) as [|q|q] eqn:Eq; try lia.
  apply Zdigits2_unique. rewrite <- Eq.
  replace (Zdigits2 (Z.pos m) + n - 1) with (Zdigits2 (Z.pos m) - 1 + n) by lia.
  rewrite !Z.pow_add_r by lia. split; nia.
Qed.

Lemma fexp_eq (x : Z) : fexp prec emax x = Z.max (x - 53) (-1074).
Proof. reflexivity. Qed.

Lemma bounded_spec (m : positive) (e : Z) :
  bounded prec emax m e = true ->
  Z.max (Zdigits2 (Zpos m) + e - 53) (-1074) = e /\ e <= 971.
Proof.
  unfold bounded, canonical_mantissa. intros H.
  apply andb_true_iff in H as [H1 H2].
  apply Z.eqb_eq in H1. apply Z.leb_le in H2.
  rewrite fexp_eq in H1. split; [exact H1|exact H2].
Qed.

Lemma shr_1_even (k : Z) :
  0 <= k ->
  shr_1 (Build_shr_record (2 * k) false false) = Build_shr_record k false false.
Proof. intros Hk. destruct k as [|p|p]; try lia; reflexivity. Qed.

Lemma iter_shr_1_exact (n : nat) :
  forall k, 0 <= k ->
    Nat.iter n shr_1 (Build_shr_record (k * 2 ^ Z.of_nat n) false false)
    = Build_shr_record k false false.
Proof.
  induction n as [|n IH]; intros k Hk.
  - simpl. now rewrite Z.mul_1_r.
  - rewrite Nat.iter_succ_r, Nat2Z.inj_succ, Z.pow_succ_r by lia.
    replace (k * (2 * 2 ^ Z.of_nat n)) with (2 * (k * 2 ^ Z.of_nat n)) by ring.
    rewrite shr_1_even.
    + now apply IH.
    + apply Z.mul_nonneg_nonneg; [lia|]. apply Z.pow_nonneg. lia.
Qed.

(** Rounding an exact multiple of a canonical mantissa gives it back. *)
Lemma binary_round_aux_exact (neg : bool) (m : positive) (e n : Z) :
  bounded prec emax m e = true -> 0 <= n ->
  binary_round_aux prec emax neg (Zpos m * 2 ^ n) (e - n) loc_Exact
  = S754_finite neg m e.
Proof.
  intros Hb Hn. destruct (bounded_spec m e Hb) as [Hc He].
  unfold binary_round_aux, shr_fexp.
  rewrite Zdigits2_mul_pow2, fexp_eq by assumption.
  replace (Zdigits2 (Z.pos m) + n + (e - n) - 53)
    with (Zdigits2 (Z.pos m) + e - 53) by lia.
  rewrite Hc. replace (e - (e - n)) with n by lia.
  assert (Hshr : shr (shr_record_of_loc (Z.pos m * 2 ^ n) loc_Exact) (e - n) n
                 = (Build_shr_record (Zpos m) false false, e)).
  { unfold shr. destruct n as [|p|p]; try lia.
    - rewrite Z.pow_0_r, Z.mul_1_r, Z.sub_0_r. reflexivity.
    - rewrite iter_pos_nat. cbn [shr_record_of_loc].
      rewrite <- (positive_nat_Z p) at 1.
      rewrite iter_shr_1_exact by lia. f_equal. lia. }
  rewrite Hshr. cbn [shr_m loc_of_shr_record round_nearest_even].
  rewrite fexp_eq.
  replace (Z.max (Zdigits2 (Z.pos m) + e - 53) (-1074) - e) with 0 by lia.
  cbn [shr shr_record_of_loc shr_m].
  replace (e <=? emax - prec) with true; [reflexivity|].
  symmetry. apply Z.leb_le. exact He.
Qed.

(** The Number value for [a / b] when [a / b = m * 2^e], a binary64
    number. *)
Lemma Number_of_ratio_exact (neg : bool) (a b : Z) (m : positive) (e : Z) :
  0 < a -> 0 < b ->
  bounded prec emax m e = true ->
  a * 2 ^ Z.max 0 (- e) = Zpos m * 2 ^ Z.max 0 e * b ->
  Number_of_ratio neg a b = S754_finite neg m e.
Proof.
  intros Ha Hb Hbd Hv. destruct (bounded_spec m e Hbd) as [Hc He].
  unfold Number_of_ratio, SFdiv_core_binary.
  rewrite fexp_eq.
  set (e' := Z.min (Z.max (Zdigits2 a + 0 - (Zdigits2 b + 0) - 53) (-1074))
                   (0 - 0)).
  assert (He'0 : e' <= 0) by (unfold e'; lia).
  assert (He' : e' <= e).
  { destruct (Z.le_gt_cases 0 e) as [|Hneg]; [lia|].
    rewrite Z.max_r, Z.max_l, Z.pow_0_r, Z.mul_1_r in Hv by lia.
    destruct a as [|pa|pa]; try lia. destruct b as [|pb|pb]; try lia.
    pose proof (Zdigits2_bounds pa) as [Ha1 Ha2].
    pose proof (Zdigits2_bounds pb) as [Hb1 Hb2].
    pose proof (Zdigits2_bounds m) as [Hm1 Hm2].
    set (d1 := Zdigits2 (Z.pos pa)) in *.
    set (d2 := Zdigits2 (Z.pos pb)) in *.
    set (dm := Zdigits2 (Z.pos m)) in *.
    assert (0 < d1 /\ 0 < d2 /\ 0 < dm) as (Hd1 & Hd2 & Hdm)
        by (unfold d1, d2, dm; simpl; lia).
    assert (Hlt : 2 ^ (d1 - 1 + - e) < 2 ^ (dm + d2)).
    { rewrite !Z.pow_add_r by lia.
      assert (0 < 2 ^ (- e)) by (apply Z.pow_pos_nonneg; lia).
      nia. }
    apply Z.pow_lt_mono_r_iff in Hlt; lia. }
  replace (0 - 0 - e') with (- e') by lia.
  set (m' := match - e' with
             | 0 => a
             | Z.pos _ => Z.shiftl a (- e')
             | Z.neg _ => 0
             end).
  assert (Hm' : m' = Zpos m * 2 ^ (e - e') * b).
  { assert (Hm'a : m' = a * 2 ^ (- e')).
    { unfold m'. destruct (- e') eqn:E; try lia.
      rewrite Z.shiftl_mul_pow2 by lia. reflexivity. }
    rewrite Hm'a.
    destruct (Z.le_gt_cases 0 e) as [Hpos|Hneg].
    - rewrite Z.max_l, Z.max_r, Z.pow_0_r, Z.mul_1_r in Hv by lia.
      rewrite Hv. replace (e - e') with (e + - e') by lia.
      rewrite Z.pow_add_r by lia. ring.
    - rewrite Z.max_r, Z.max_l, Z.pow_0_r, Z.mul_1_r in Hv by lia.
      replace (- e') with (- e + (e - e')) by lia.
      rewrite Z.pow_add_r by lia.
      rewrite Z.mul_assoc, Hv. ring. }
  assert (Hdiv : Z.div_eucl m' b = (Zpos m * 2 ^ (e - e'), 0)).
  { pose proof (Z.div_mul (Zpos m * 2 ^ (e - e')) b ltac:(lia)) as Hq.
    pose proof (Z.mod_mul (Zpos m * 2 ^ (e - e')) b ltac:(lia)) as Hr.
    rewrite <- Hm' in Hq, Hr. unfold Z.div in Hq. unfold Z.modulo in Hr.
    destruct (Z.div_eucl m' b) as [q r]. congruence. }
  rewrite Hdiv.
  assert (Hloc : new_location b 0 = loc_Exact).
  { unfold new_location, new_location_even, new_location_odd.
    destruct (Z.even b); reflexivity. }
  rewrite Hloc.
  replace e' with (e - (e - e')) at 2 by lia.
  apply binary_round_aux_exact; [assumption|lia].
Qed.

(** *** Runs of digits *)

Lemma digit_val_range (c : ascii) :
  is_digit c = true -> 0 <= digit_val c <= 9.
Proof.
  unfold is_digit, digit_val. intros H.
  apply andb_true_iff in H as [H1 H2].
  apply N.leb_le in H1, H2. lia.
Qed.

Lemma digits_value_fold (ds : list ascii) :
  forall acc,
    fold_left (fun a c => 10 * a + digit_val c) ds acc
    = acc * 10 ^ Z.of_nat (List.length ds) + digits_value ds.
Proof.
  unfold digits_value.
  induction ds as [|c ds IH]; intros acc.
  - simpl. lia.
  - cbn [fold_left List.length]. rewrite IH, (IH (10 * 0 + digit_val c)).
    rewrite Nat2Z.inj_succ, Z.pow_succ_r by lia. ring.
Qed.

Lemma digits_value_cons (c : ascii) (ds : list ascii) :
  digits_value (c :: ds)
  = digit_val c * 10 ^ Z.of_nat (List.length ds) + digits_value ds.
Proof.
  unfold digits_value at 1. cbn [fold_left].
  rewrite digits_value_fold. ring.
Qed.

Lemma digits_value_app (l1 l2 : list ascii) :
  digits_value (l1 ++ l2)
  = digits_value l1 * 10 ^ Z.of_nat (List.length l2) + digits_value l2.
Proof.
  unfold digits_value at 1. rewrite fold_left_app.
  fold (digits_value l1). apply digits_value_fold.
Qed.

Lemma digits_value_nonneg (ds : list ascii) :
  digits ds -> 0 <= digits_value ds.
Proof.
  induction 1 as [|c ds Hc _ IH].
  - unfold digits_value. simpl. lia.
  - rewrite digits_value_cons.
    pose proof (digit_val_range c Hc).
    assert (0 <= 10 ^ Z.of_nat (List.length ds)) by (apply Z.pow_nonneg; lia).
    nia.
Qed.

Lemma span_digits_spec (l : list ascii) :
  digits (fst (span_digits l))
  /\ l = fst (span_digits l) ++ snd (span_digits l).
Proof.
  induction l as [|c l [IH1 IH2]]; simpl.
  - split; [constructor|reflexivity].
  - destruct (is_digit c) eqn:Ec.
    + destruct (span_digits l) as [ds rest]. simpl in *.
      split; [constructor; assumption|congruence].
    + split; [constructor|reflexivity].
Qed.

(** *** parseFloat is NaN exactly when no literal starts the text *)

Lemma StrUnsignedDecimalLiteral_well_formed
      (l : list ascii) (lit : literal) (rest : list ascii) :
  StrUnsignedDecimalLiteral l = Some (lit, rest) -> well_formed lit.
Proof.
  unfold StrUnsignedDecimalLiteral.
  destruct (strip_prefix Infinity_text l).
  { intros [= <- _]. exact I. }
  pose proof (span_digits_spec l) as [Hi _].
  destruct (span_digits l) as [i r]. simpl in Hi.
  assert (Hplain :
            match i with
            | [] => None
            | _ :: _ => let (x, after) := ExponentPart r in
                        Some (LitDecimal i [] x, after)
            end = Some (lit, rest) -> well_formed lit).
  { destruct i; [discriminate|].
    destruct (ExponentPart r). intros [= <- _].
    split; [assumption|constructor]. }
  destruct r as [|c r']; [exact Hplain|].
  destruct (Ascii.eqb_spec c "."%char) as [->|Hc].
  - pose proof (span_digits_spec r') as [Hf _].
    destruct (span_digits r') as [f r'']. simpl in Hf.
    destruct (ExponentPart r'').
    destruct i, f; try discriminate; intros [= <- _]; split; assumption.
  - destruct c as [[] [] [] [] [] [] [] []]; try exact Hplain.
    now contradiction Hc.
Qed.

Lemma StrDecimalLiteral_well_formed
      (l : list ascii) (neg : bool) (lit : literal) (rest : list ascii) :
  StrDecimalLiteral l = Some (neg, lit, rest) -> well_formed lit.
Proof.
  unfold StrDecimalLiteral.
  destruct l as [|c r]; [discriminate|].
  destruct (Ascii.eqb c "-"); [|destruct (Ascii.eqb c "+")];
    match goal with
    | |- context [StrUnsignedDecimalLiteral ?t] =>
        destruct (StrUnsignedDecimalLiteral t) as [[lit' rest']|] eqn:E;
        [|discriminate];
        intros [= _ <- _];
        exact (StrUnsignedDecimalLiteral_well_formed _ _ _ E)
    end.
Qed.

Lemma literal_value_not_NaN (neg : bool) (lit : literal) :
  well_formed lit -> literal_value neg lit <> S754_nan.
Proof.
  destruct lit as [|i f x]; simpl; [discriminate|].
  intros [Hi Hf]. apply Number_of_decimal_not_NaN.
  apply digits_value_nonneg. now apply Forall_app.
Qed.

(** [parseFloat] yields NaN exactly for the texts that, leading white
    space apart, do not start with a decimal literal. *)
Lemma parseFloat_NaN_iff (s : string) :
  isNaN (parseFloat s) = true
  <-> StrDecimalLiteral (TrimStart (list_ascii_of_string s)) = None.
Proof.
  unfold parseFloat.
  destruct (StrDecimalLiteral (TrimStart (list_ascii_of_string s)))
    as [[[neg lit] rest]|] eqn:E.
  - split; [|discriminate].
    pose proof (literal_value_not_NaN neg lit
                  (StrDecimalLiteral_well_formed _ _ _ _ E)) as Hn.
    destruct (literal_value neg lit); try discriminate. now contradiction Hn.
  - split; reflexivity.
Qed.

(** *** The digits the text of a number is made of *)

Lemma binary_round_aux_sign (neg : bool) (m e : Z) (l : location) :
  binary_round_aux prec emax neg m e l
  = with_sign neg (binary_round_aux prec emax false m e l).
Proof.
  unfold binary_round_aux.
  destruct (shr_fexp prec emax m e l) as [mrs' e'].
  destruct (shr_fexp prec emax _ e' loc_Exact) as [mrs'' e''].
  destruct (shr_m mrs''); try reflexivity.
  destruct (e'' <=? emax - prec); reflexivity.
Qed.

Lemma Number_of_decimal_sign (neg : bool) (d x : Z) :
  Number_of_decimal neg d x = with_sign neg (Number_of_decimal false d x).
Proof.
  unfold Number_of_decimal, Number_of_ratio.
  destruct (d =? 0); [reflexivity|].
  destruct (0 <=? x);
    match goal with
    | |- context [SFdiv_core_binary ?p ?q ?a ?b ?c ?d] =>
        destruct (SFdiv_core_binary p q a b c d) as [[q' e'] l']
    end; apply binary_round_aux_sign.
Qed.

Lemma Number_of_decimal_shift (neg : bool) (d j : Z) :
  0 <= j -> Number_of_decimal neg (d * 10 ^ j) 0 = Number_of_decimal neg d j.
Proof.
  intros Hj. unfold Number_of_decimal.
  assert (Hp : 0 < 10 ^ j) by (apply Z.pow_pos_nonneg; lia).
  destruct (Z.eqb_spec d 0) as [->|Hd].
  - reflexivity.
  - destruct (Z.eqb_spec (d * 10 ^ j) 0) as [E|_]; [nia|].
    replace (0 <=? j) with true by (symmetry; now apply Z.leb_le).
    cbn [Z.leb Z.compare]. now rewrite Z.pow_0_r, Z.mul_1_r.
Qed.

Lemma sameValue_eq (x y : Number) : sameValue x y = true -> x = y.
Proof.
  destruct x as [a|a| |a m e], y as [b|b| |b m' e']; simpl; try discriminate.
  - intros H. apply Bool.eqb_prop in H. congruence.
  - intros H. apply Bool.eqb_prop in H. congruence.
  - reflexivity.
  - intros H. apply andb_true_iff in H as [H He].
    apply andb_true_iff in H as [Hs Hm].
    apply Bool.eqb_prop in Hs. apply Pos.eqb_eq in Hm. apply Z.eqb_eq in He.
    congruence.
Qed.

(** The exact decimal of a binary64 number has it as Number value. *)
Lemma exact_decimal_sound (m : positive) (e : Z) :
  bounded prec emax m e = true ->
  0 <= fst (exact_decimal m e)
  /\ Number_of_decimal false (fst (exact_decimal m e)) (snd (exact_decimal m e))
     = S754_finite false m e.
Proof.
  intros Hb. unfold exact_decimal.
  destruct (Z.leb_spec 0 e) as [He|He]; cbn [fst snd].
  - assert (Hp : 0 < 2 ^ e) by (apply Z.pow_pos_nonneg; lia).
    split; [nia|]. unfold Number_of_decimal.
    destruct (Z.eqb_spec (Z.pos m * 2 ^ e) 0) as [E|_]; [nia|].
    cbn [Z.leb Z.compare].
    apply Number_of_ratio_exact; [| lia | assumption |].
    + rewrite Z.pow_0_r. nia.
    + rewrite Z.max_l, Z.max_r by lia. rewrite !Z.pow_0_r. ring.
  - assert (Hp : 0 < 5 ^ (- e)) by (apply Z.pow_pos_nonneg; lia).
    split; [nia|]. unfold Number_of_decimal.
    destruct (Z.eqb_spec (Z.pos m * 5 ^ (- e)) 0) as [E|_]; [nia|].
    replace (0 <=? e) with false by (symmetry; apply Z.leb_gt; lia).
    apply Number_of_ratio_exact; [nia | | assumption |].
    + apply Z.pow_pos_nonneg; lia.
    + rewrite Z.max_r, Z.max_l by lia. rewrite Z.pow_0_r.
      change 10 with (5 * 2). rewrite Z.pow_mul_l. ring.
Qed.

Lemma candidate_sound (x : Number) (S K E k : Z) (sx : Z * Z) :
  0 <= S -> candidate x S K E k = Some sx -> denotes x sx.
Proof.
  intros HS. unfold candidate.
  set (lo := (S / 10 ^ (K - k), E + (K - k))).
  set (hi := if S / 10 ^ (K - k) + 1 =? 10 ^ k
             then (10 ^ (k - 1), E + (K - k) + 1)
             else (S / 10 ^ (K - k) + 1, E + (K - k))).
  assert (Hlo : 0 <= fst lo).
  { unfold lo. cbn [fst]. apply Z_div_nonneg_nonneg; [lia|].
    apply Z.pow_nonneg. lia. }
  assert (Hhi : 0 <= fst hi).
  { unfold hi. destruct (_ =? _); cbn [fst].
    - apply Z.pow_nonneg. lia.
    - unfold lo in Hlo. cbn [fst] in Hlo. lia. }
  destruct (sameValue (Number_of_decimal false (fst lo) (snd lo)) x) eqn:Elo;
    destruct (sameValue (Number_of_decimal false (fst hi) (snd hi)) x) eqn:Ehi;
    try discriminate;
    try apply sameValue_eq in Elo; try apply sameValue_eq in Ehi.
  - destruct (2 * (S mod 10 ^ (K - k)) ?= 10 ^ (K - k));
      [destruct (Z.even (fst lo))| |]; intros [= <-]; split; assumption.
  - intros [= <-]; split; assumption.
  - intros [= <-]; split; assumption.
Qed.

Lemma shortest_sound (x : Number) (S K E : Z) (fuel : nat) :
  0 <= S -> denotes x (S, E) ->
  forall k, denotes x (shortest x S K E fuel k).
Proof.
  intros HS Hex. induction fuel as [|fuel IH]; intros k; simpl.
  - exact Hex.
  - destruct (candidate x S K E k) as [sx|] eqn:Ec.
    + exact (candidate_sound _ _ _ _ _ _ HS Ec).
    + apply IH.
Qed.

Lemma digit_char_digit (d : Z) :
  0 <= d <= 9 ->
  is_digit (digit_char d) = true /\ digit_val (digit_char d) = d.
Proof.
  intros Hd.
  assert (H : d = 0 \/ d = 1 \/ d = 2 \/ d = 3 \/ d = 4 \/ d = 5 \/ d = 6
              \/ d = 7 \/ d = 8 \/ d = 9) by lia.
  repeat (destruct H as [->|H]; [split; reflexivity|]).
  subst. split; reflexivity.
Qed.

Lemma digits_aux_app (fuel : nat) :
  forall n acc, digits_aux fuel n acc = digits_aux fuel n [] ++ acc.
Proof.
  induction fuel as [|fuel IH]; intros n acc; simpl; [reflexivity|].
  destruct (n <? 10); [reflexivity|].
  rewrite IH, (IH _ [_]), <- app_assoc. reflexivity.
Qed.

Lemma digits_aux_spec (fuel : nat) :
  forall n, 0 <= n < 2 ^ Z.of_nat fuel ->
    digits (digits_aux fuel n []) /\ digits_value (digits_aux fuel n []) = n.
Proof.
  induction fuel as [|fuel IH]; intros n Hn.
  - simpl in *. split; [constructor|]. unfold digits_value. simpl. lia.
  - cbn [digits_aux].
    assert (Hmod : 0 <= n mod 10 <= 9)
      by (pose proof (Z.mod_pos_bound n 10 ltac:(lia)); lia).
    destruct (digit_char_digit _ Hmod) as [Hd Hv].
    destruct (Z.ltb_spec n 10) as [Hlt|Hge].
    + split; [repeat constructor; exact Hd|].
      rewrite digits_value_cons, Hv. unfold digits_value. simpl.
      rewrite Z.mod_small; lia.
    + rewrite digits_aux_app.
      rewrite Nat2Z.inj_succ, Z.pow_succ_r in Hn by lia.
      destruct (IH (n / 10)) as [Hds Hvs].
      { split; [apply Z.div_pos; lia|].
        apply Z.div_lt_upper_bound; lia. }
      split.
      * apply Forall_app. split; [exact Hds|repeat constructor; exact Hd].
      * rewrite digits_value_app, Hvs, digits_value_cons, Hv.
        unfold digits_value. simpl.
        pose proof (Z.div_mod n 10 ltac:(lia)). lia.
Qed.

Lemma digits_of_spec (n : Z) :
  0 <= n ->
  digits (digits_of n) /\ digits_value (digits_of n) = n /\ digits_of n <> [].
Proof.
  intros Hn. unfold digits_of.
  assert (Hb : 0 <= n < 2 ^ Z.of_nat (S (Z.to_nat (Z.log2 n)))).
  { split; [exact Hn|].
    rewrite Nat2Z.inj_succ, Z2Nat.id by apply Z.log2_nonneg.
    destruct (Z.eq_dec n 0) as [->|Hz]; [reflexivity|].
    apply Z.log2_spec. lia. }
  destruct (digits_aux_spec _ n Hb) as [H1 H2].
  repeat split; try assumption.
  cbn [digits_aux]. destruct (n <? 10); [discriminate|].
  rewrite digits_aux_app. intros E. now apply app_eq_nil in E as [_ E].
Qed.

(** *** Reading back the text of a number *)

Lemma span_digits_stop (ds r : list ascii) :
  digits ds -> stops r -> span_digits (ds ++ r) = (ds, r).
Proof.
  intros Hd Hr. induction Hd as [|c ds Hc _ IH]; cbn [app span_digits].
  - destruct r as [|c r]; [reflexivity|].
    cbn [stops] in Hr. cbn [span_digits]. now rewrite Hr.
  - now rewrite Hc, IH.
Qed.

Lemma span_digits_all (ds : list ascii) :
  digits ds -> span_digits ds = (ds, []).
Proof.
  intros Hd. rewrite <- (app_nil_r ds) at 1.
  now apply span_digits_stop.
Qed.

Lemma digit_cases (c : ascii) :
  is_digit c = true -> In c (list_ascii_of_string "0123456789").
Proof.
  destruct c as [[] [] [] [] [] [] [] []]; intros H;
    try discriminate H; simpl; auto 11.
Qed.

Lemma digit_not_Infinity (c : ascii) (r : list ascii) :
  is_digit c = true -> strip_prefix Infinity_text (c :: r) = None.
Proof.
  intros H. apply digit_cases in H. simpl in H.
  repeat (destruct H as [<-|H]; [reflexivity|]). contradiction.
Qed.

Lemma zeros_digits (n : Z) : digits (zeros n).
Proof. unfold zeros. apply Forall_forall. intros c H.
       apply repeat_spec in H. now subst. Qed.

Lemma zeros_value (n : Z) : digits_value (zeros n) = 0.
Proof.
  unfold zeros. induction (Z.to_nat n) as [|k IH]; [reflexivity|].
  cbn [repeat]. rewrite digits_value_cons, IH. reflexivity.
Qed.

Lemma zeros_length (n : Z) : List.length (zeros n) = Z.to_nat n.
Proof. apply repeat_length. Qed.

(** Digits, then something that is neither a digit nor a point. *)
Lemma parse_integer (i r : list ascii) :
  digits i -> i <> [] -> stops r -> no_point r ->
  StrUnsignedDecimalLiteral (i ++ r)
  = Some (LitDecimal i [] (fst (ExponentPart r)), snd (ExponentPart r)).
Proof.
  intros Hi Hne Hr Hp. unfold StrUnsignedDecimalLiteral.
  destruct i as [|c i]; [contradiction|].
  cbn [app]. rewrite digit_not_Infinity by (now inversion Hi).
  change (c :: i ++ r) with ((c :: i) ++ r).
  rewrite (span_digits_stop _ _ Hi Hr).
  destruct (ExponentPart r) as [x after] eqn:Ex. cbn [fst snd].
  destruct r as [|c' r']; [reflexivity|].
  simpl in Hp.
  destruct c' as [[] [] [] [] [] [] [] []]; try reflexivity.
  now contradiction Hp.
Qed.

(** Digits, a point, digits, then something that is not a digit. *)
Lemma parse_fraction (i f r : list ascii) :
  digits i -> i <> [] -> digits f -> stops r ->
  StrUnsignedDecimalLiteral (i ++ "."%char :: f ++ r)
  = Some (LitDecimal i f (fst (ExponentPart r)), snd (ExponentPart r)).
Proof.
  intros Hi Hne Hf Hr. unfold StrUnsignedDecimalLiteral.
  destruct i as [|c i]; [contradiction|].
  cbn [app]. rewrite digit_not_Infinity by (now inversion Hi).
  change (c :: i ++ "."%char :: f ++ r) with ((c :: i) ++ "."%char :: f ++ r).
  rewrite (span_digits_stop _ _ Hi) by reflexivity.
  rewrite (span_digits_stop _ _ Hf Hr).
  destruct (ExponentPart r) as [x after]. reflexivity.
Qed.

Lemma ExponentPart_text (x : Z) : ExponentPart (exponent_text x) = (x, []).
Proof.
  destruct (digits_of_spec (Z.abs x) (Z.abs_nonneg x)) as (Hd & Hv & Hne).
  unfold exponent_text, ExponentPart.
  change (is_exponent_indicator "e") with true. cbn iota.
  destruct (Z.ltb_spec x 0) as [Hx|Hx].
  - change (Ascii.eqb "-" "+" || Ascii.eqb "-" "-")%bool with true.
    change (Ascii.eqb "-" "-") with true. cbn iota.
    rewrite (span_digits_all _ Hd).
    destruct (digits_of (Z.abs x)) as [|c l]; [contradiction|].
    rewrite Hv. f_equal. lia.
  - change (Ascii.eqb "+" "+" || Ascii.eqb "+" "-")%bool with true.
    change (Ascii.eqb "+" "-") with false. cbn iota.
    rewrite (span_digits_all _ Hd).
    destruct (digits_of (Z.abs x)) as [|c l]; [contradiction|].
    rewrite Hv. f_equal. lia.
Qed.

Lemma exponent_text_stops (x : Z) :
  stops (exponent_text x) /\ no_point (exponent_text x).
Proof. split; [reflexivity|discriminate]. Qed.

(** Reading the exponent form. *)
Lemma exponent_form_parse (neg : bool) (ds : list ascii) (n : Z) :
  digits ds -> ds <> [] ->
  exists lit,
    StrUnsignedDecimalLiteral
      match ds with
      | [d] => d :: exponent_text (n - 1)
      | d :: rest => d :: "."%char :: rest ++ exponent_text (n - 1)
      | [] => []
      end = Some (lit, [])
    /\ literal_value neg lit
       = Number_of_decimal neg (digits_value ds)
                           (n - Z.of_nat (List.length ds)).
Proof.
  intros Hd Hne.
  destruct (exponent_text_stops (n - 1)) as [Hs Hp].
  destruct ds as [|d rest]; [contradiction|].
  inversion Hd as [|? ? Hd1 Hd2]; subst.
  destruct rest as [|d' rest'].
  - exists (LitDecimal [d] [] (n - 1)).
    change (d :: exponent_text (n - 1)) with ([d] ++ exponent_text (n - 1)).
    rewrite parse_integer, ExponentPart_text; try assumption.
    split; [reflexivity|]. cbn [literal_value app List.length].
    f_equal. lia.
  - exists (LitDecimal [d] (d' :: rest') (n - 1)).
    change (d :: "."%char :: (d' :: rest') ++ exponent_text (n - 1))
      with ([d] ++ "."%char :: (d' :: rest') ++ exponent_text (n - 1)).
    rewrite parse_fraction, ExponentPart_text; try assumption;
      [|repeat constructor; assumption|discriminate].
    split; [reflexivity|]. cbn [literal_value app].
    f_equal. cbn [List.length]. lia.
Qed.

(** Reading the text written for the digits [ds] and the exponent [n]
    gives the Number value for the decimal they denote. *)
Lemma format_decimal_parse (neg : bool) (ds : list ascii) (n : Z) :
  digits ds -> ds <> [] ->
  exists lit,
    StrUnsignedDecimalLiteral (format_decimal ds n) = Some (lit, [])
    /\ literal_value neg lit
       = Number_of_decimal neg (digits_value ds)
                           (n - Z.of_nat (List.length ds)).
Proof.
  intros Hd Hne. unfold format_decimal.
  set (k := Z.of_nat (List.length ds)).
  assert (Hk : 0 < k).
  { unfold k. destruct ds; [contradiction|]. simpl. lia. }
  destruct ((k <=? n) && (n <=? 21))%bool eqn:C1.
  { (* the digits followed by zeros *)
    apply andb_true_iff in C1 as [Hkn Hn21].
    apply Z.leb_le in Hkn, Hn21.
    exists (LitDecimal (ds ++ zeros (n - k)) [] 0).
    rewrite <- (app_nil_r (ds ++ zeros (n - k))) at 1.
    rewrite parse_integer; try exact I.
    - split; [reflexivity|]. cbn [literal_value List.length].
      rewrite app_nil_r, digits_value_app, zeros_value, zeros_length.
      rewrite Z2Nat.id, Z.add_0_r, Z.sub_0_r by lia.
      apply Number_of_decimal_shift. lia.
    - apply Forall_app. split; [exact Hd|apply zeros_digits].
    - destruct ds; [contradiction|discriminate]. }
  destruct ((0 <? n) && (n <=? 21))%bool eqn:C2.
  { (* a point inside the digits *)
    apply andb_true_iff in C2 as [H0n Hn21].
    apply Z.ltb_lt in H0n. apply Z.leb_le in Hn21.
    assert (Hnk : n < k).
    { apply andb_false_iff in C1 as [C1|C1]; apply Z.leb_gt in C1; lia. }
    exists (LitDecimal (firstn (Z.to_nat n) ds) (skipn (Z.to_nat n) ds) 0).
    rewrite <- (app_nil_r (skipn (Z.to_nat n) ds)) at 1.
    assert (Hfs : digits (firstn (Z.to_nat n) ds ++ skipn (Z.to_nat n) ds))
      by (now rewrite firstn_skipn).
    apply Forall_app in Hfs as [Hf Hs].
    rewrite parse_fraction; try assumption; try exact I.
    - split; [reflexivity|]. cbn [literal_value fst ExponentPart].
      rewrite firstn_skipn, length_skipn.
      f_equal. unfold k. lia.
    - destruct ds as [|c ds']; [contradiction|].
      destruct (Z.to_nat n) eqn:En; [lia|discriminate]. }
  destruct ((-6 <? n) && (n <=? 0))%bool eqn:C3.
  { (* zeros after the point *)
    apply andb_true_iff in C3 as [H6 Hn0].
    apply Z.ltb_lt in H6. apply Z.leb_le in Hn0.
    exists (LitDecimal ["0"%char] (zeros (- n) ++ ds) 0).
    change ("0"%char :: "."%char :: zeros (- n) ++ ds)
      with (["0"%char] ++ "."%char :: zeros (- n) ++ ds).
    rewrite <- (app_nil_r (zeros (- n) ++ ds)) at 1.
    rewrite parse_fraction; try exact I.
    - split; [reflexivity|]. cbn [literal_value fst ExponentPart].
      rewrite digits_value_app, digits_value_app, zeros_value.
      rewrite length_app, zeros_length.
      replace (digits_value ["0"%char]) with 0 by reflexivity.
      cbn [Z.mul Z.add]. f_equal. unfold k. lia.
    - repeat constructor.
    - discriminate.
    - apply Forall_app. split; [apply zeros_digits|exact Hd]. }
  apply exponent_form_parse; assumption.
Qed.

Lemma TrimStart_digit (c : ascii) (r : list ascii) :
  is_digit c = true -> TrimStart (c :: r) = c :: r.
Proof.
  intros H. apply digit_cases in H. simpl in H.
  repeat (destruct H as [<-|H];
          [destruct r as [|c2 [|c3 r3]]; reflexivity|]).
  contradiction.
Qed.

Lemma TrimStart_minus (r : list ascii) :
  TrimStart ("-"%char :: r) = "-"%char :: r.
Proof. destruct r as [|c2 [|c3 r3]]; reflexivity. Qed.

Lemma digit_not_sign (c : ascii) :
  is_digit c = true -> Ascii.eqb c "-" = false /\ Ascii.eqb c "+" = false.
Proof.
  intros H. apply digit_cases in H. simpl in H.
  repeat (destruct H as [<-|H]; [split; reflexivity|]). contradiction.
Qed.

(** The text of a number starts with a digit. *)
Lemma format_decimal_head (ds : list ascii) (n : Z) :
  digits ds -> ds <> [] ->
  exists c r, format_decimal ds n = c :: r /\ is_digit c = true.
Proof.
  intros Hd Hne. unfold format_decimal.
  destruct ds as [|d rest]; [contradiction|].
  inversion Hd as [|? ? Hd1 Hd2]; subst.
  destruct ((Z.of_nat (List.length (d :: rest)) <=? n) && (n <=? 21))%bool.
  { cbn [app]. eauto. }
  destruct ((0 <? n) && (n <=? 21))%bool eqn:C2.
  { apply andb_true_iff in C2 as [H0n _]. apply Z.ltb_lt in H0n.
    destruct (Z.to_nat n) eqn:En; [lia|]. cbn [firstn app]. eauto. }
  destruct ((-6 <? n) && (n <=? 0))%bool.
  { exists "0"%char. eauto. }
  destruct rest; eauto.
Qed.

Lemma parseFloat_toString_finite (neg : bool) (m : positive) (e : Z) :
  bounded prec emax m e = true ->
  parseFloat (toString (S754_finite neg m e)) = S754_finite neg m e.
Proof.
  intros Hb. unfold parseFloat, toString, toString_finite.
  rewrite list_ascii_of_string_of_list_ascii.
  destruct (exact_decimal_sound m e Hb) as [HS Hex].
  destruct (exact_decimal m e) as [S E]. cbn [fst snd] in HS, Hex.
  set (K := Z.of_nat (List.length (digits_of S))).
  pose proof (shortest_sound (S754_finite false m e) S K E
                             (Z.to_nat (K - 1)) HS (conj HS Hex) 1)
    as [Hs Hsx].
  destruct (shortest (S754_finite false m e) S K E (Z.to_nat (K - 1)) 1)
    as [s x].
  cbn [fst snd] in Hs, Hsx.
  destruct (digits_of_spec s Hs) as (Hd & Hv & Hne).
  set (ds := digits_of s) in *.
  set (n := x + Z.of_nat (List.length ds)).
  destruct (format_decimal_parse neg ds n Hd Hne) as (lit & Hp & Hl).
  destruct (format_decimal_head ds n Hd Hne) as (c & r & Hf & Hc).
  assert (Hval : literal_value neg lit = S754_finite neg m e).
  { rewrite Hl, Hv. replace (n - Z.of_nat (List.length ds)) with x
      by (unfold n; lia).
    rewrite Number_of_decimal_sign, Hsx. reflexivity. }
  destruct neg; cbn [app].
  - rewrite TrimStart_minus. cbn [StrDecimalLiteral].
    change (Ascii.eqb "-" "-") with true. cbn iota.
    rewrite Hp. exact Hval.
  - rewrite Hf in Hp |- *. rewrite (TrimStart_digit _ _ Hc).
    destruct (digit_not_sign c Hc) as [H1 H2].
    cbn [StrDecimalLiteral]. rewrite H1, H2, Hp. exact Hval.
Qed.

Lemma strictEquals_refl_finite (neg : bool) (m : positive) (e : Z) :
  strictEquals (S754_finite neg m e) (S754_finite neg m e) = true.
Proof.
  unfold strictEquals, SFeqb, SFcompare.
  rewrite Z.compare_refl, Pos.compare_cont_refl.
  destruct neg; reflexivity.
Qed.

(** Reading the text of a finite number gives a number that [===] it,
    and the very number unless it is the negative zero, whose text is
    that of the positive zero. *)
Lemma parseFloat_toString (x : Number) :
  finite_Number x ->
  strictEquals (parseFloat (toString x)) x = true
  /\ (x <> S754_zero true -> parseFloat (toString x) = x).
Proof.
  destruct x as [s|s| |neg m e]; cbn [finite_Number]; try contradiction.
  - intros _. split; [reflexivity|].
    destruct s; [congruence|reflexivity].
  - intros Hb. rewrite (parseFloat_toString_finite neg m e Hb).
    split; [apply strictEquals_refl_finite|reflexivity].
Qed.

(** *** The model on some texts *)

Example parseFloat_prefix :
  parseFloat "12abc" = parseFloat "12"
  /\ parseFloat "1.5e3 won" = parseFloat "1500"
  /\ parseFloat "  .5" = parseFloat "0.5"
  /\ parseFloat "1e" = parseFloat "1".
Proof. vm_compute. repeat split. Qed.

Example parseFloat_no_literal :
  map (fun s => isNaN (parseFloat s)) [""; "abc"; "$5"; "."; "-"; "e5"]
  = [true; true; true; true; true; true].
Proof. vm_compute. reflexivity. Qed.

Example toString_texts :
  map (fun s => toString (parseFloat s))
      ["0.1"; "12.50"; "100"; "1e21"; "123456789012345678901"; "0.000001";
       "0.0000001"; "-3.14"; "1e23"; "0.30000000000000004"; "-0"]
  = ["0.1"; "12.5"; "100"; "1e+21"; "123456789012345680000"; "0.000001";
     "1e-7"; "-3.14"; "1e+23"; "0.30000000000000004"; "0"].
Proof. vm_compute. reflexivity. Qed.

(** *** Sums and differences of safe integers *)

Lemma bounded_intro (m : positive) (e : Z) :
  Z.max (Zdigits2 (Zpos m) + e - 53) (-1074) = e -> e <= 971 ->
  bounded prec emax m e = true.
Proof.
  intros Hc He. unfold bounded, canonical_mantissa.
  apply andb_true_iff. split.
  - apply Z.eqb_eq. rewrite fexp_eq. exact Hc.
  - apply Z.leb_le. exact He.
Qed.

Lemma iter_xO (m d : positive) :
  Zpos (Pos.iter xO m d) = Zpos m * 2 ^ Zpos d.
Proof.
  change (Pos.iter xO m d) with (shift_pos d m).
  rewrite shift_pos_correct. change (Z.pow_pos 2 d) with (2 ^ Zpos d). lia.
Qed.

Lemma shl_align_spec (mx : positive) (ex ex' : Z) :
  snd (shl_align mx ex ex') = Z.min ex ex'
  /\ Zpos (fst (shl_align mx ex ex'))
     = Zpos mx * 2 ^ (ex - Z.min ex ex').
Proof.
  unfold shl_align. destruct (ex' - ex) as [|d|d] eqn:Hd; cbn [fst snd].
  - rewrite Z.min_l by lia. rewrite Z.sub_diag, Z.mul_1_r. split; reflexivity.
  - rewrite Z.min_l by lia. rewrite Z.sub_diag, Z.mul_1_r. split; reflexivity.
  - rewrite Z.min_r by lia. rewrite iter_xO.
    replace (ex - ex') with (Zpos d) by lia. split; reflexivity.
Qed.

Lemma binary_round_exact (s : bool) (p : positive) (e' : Z)
      (m : positive) (e : Z) :
  bounded prec emax m e = true ->
  Zpos p * 2 ^ Z.max 0 (e' - e) = Zpos m * 2 ^ Z.max 0 (e - e') ->
  binary_round prec emax s p e' = S754_finite s m e.
Proof.
  intros Hb Hv. destruct (bounded_spec m e Hb) as [Hc He].
  unfold binary_round.
  change (Zpos (digits2_pos p)) with (Zdigits2 (Zpos p)).
  assert (Hd : Zdigits2 (Zpos p) + e' = Zdigits2 (Zpos m) + e).
  { destruct (Z.le_gt_cases e' e) as [Hle|Hgt].
    - rewrite Z.max_l, Z.max_r, Z.pow_0_r, Z.mul_1_r in Hv by lia.
      rewrite Hv, Zdigits2_mul_pow2 by lia. lia.
    - rewrite Z.max_r, Z.max_l, Z.pow_0_r, Z.mul_1_r in Hv by lia.
      rewrite <- Hv, Zdigits2_mul_pow2 by lia. lia. }
  rewrite Hd, fexp_eq, Hc.
  destruct (shl_align_spec p e' e) as [H1 H2].
  destruct (shl_align p e' e) as [mz ez]. cbn [fst snd] in H1, H2.
  subst ez. rewrite H2.
  destruct (Z.le_gt_cases e' e) as [Hle|Hgt].
  - rewrite Z.min_l by lia. rewrite Z.sub_diag, Z.mul_1_r.
    rewrite Z.max_l, Z.max_r, Z.pow_0_r, Z.mul_1_r in Hv by lia.
    rewrite Hv.
    pose proof (binary_round_aux_exact s m e (e - e') Hb) as Hr.
    replace (e - (e - e')) with e' in Hr by lia. apply Hr. lia.
  - rewrite Z.min_r by lia.
    rewrite Z.max_r, Z.max_l, Z.pow_0_r, Z.mul_1_r in Hv by lia.
    rewrite Hv.
    pose proof (binary_round_aux_exact s m e 0 Hb) as Hr.
    rewrite Z.sub_0_r, Z.pow_0_r, Z.mul_1_r in Hr. apply Hr. lia.
Qed.

Lemma binary_normalize_exact (z e' : Z) (m : positive) (e : Z) (sz : bool) :
  bounded prec emax m e = true ->
  z <> 0 ->
  Z.abs z * 2 ^ Z.max 0 (e' - e) = Zpos m * 2 ^ Z.max 0 (e - e') ->
  binary_normalize prec emax z e' sz = S754_finite (z <? 0) m e.
Proof.
  intros Hb Hz Hv. destruct z as [|p|p]; [contradiction| |];
    cbn [binary_normalize Z.ltb Z.compare];
    apply binary_round_exact; assumption.
Qed.

(** The Number of a safe integer. *)
Lemma of_Z_safe (z : Z) :
  z <> 0 -> Z.abs z < 2 ^ 53 ->
  exists m e,
    of_Z z = S754_finite (z <? 0) m e
    /\ bounded prec emax m e = true
    /\ e <= 0
    /\ Zpos m = Z.abs z * 2 ^ (- e).
Proof.
  intros Hz Hlt.
  destruct (Z.abs z) as [|p|p] eqn:Hp; try lia.
  pose proof (Zdigits2_bounds p) as [Hd1 Hd2].
  set (d := Zdigits2 (Zpos p)) in *.
  assert (Hd0 : 0 < d) by (unfold d; simpl; lia).
  assert (Hd53 : d <= 53).
  { destruct (Z.le_gt_cases d 53) as [|Hgt]; [assumption|exfalso].
    assert (2 ^ 53 <= 2 ^ (d - 1)) by (apply Z.pow_le_mono_r; lia). lia. }
  assert (Hpos : 0 < Zpos p * 2 ^ (53 - d)).
  { apply Z.mul_pos_pos; [lia|apply Z.pow_pos_nonneg; lia]. }
  destruct (Zpos p * 2 ^ (53 - d)) as [|m|m] eqn:Hm; try lia.
  exists m, (d - 53).
  assert (Hdm : Zdigits2 (Zpos m) = 53).
  { rewrite <- Hm, Zdigits2_mul_pow2 by lia. fold d. lia. }
  assert (Hb : bounded prec emax m (d - 53) = true).
  { apply bounded_intro; rewrite ?Hdm; lia. }
  split.
  - unfold of_Z. apply binary_normalize_exact; [exact Hb|exact Hz|].
    rewrite Hp. rewrite Z.max_r, Z.max_l, Z.pow_0_r, Z.mul_1_r by lia.
    rewrite <- Hm. f_equal. f_equal. lia.
  - split; [exact Hb|]. split; [lia|].
    replace (- (d - 53)) with (53 - d) by lia. symmetry. exact Hm.
Qed.

Lemma of_Z_0 : of_Z 0 = zero.
Proof. reflexivity. Qed.


(** Normalizing a scaled safe integer. *)
Lemma normalize_of_Z (v k : Z) :
  Z.abs v < 2 ^ 53 -> 0 <= k ->
  binary_normalize prec emax (v * 2 ^ k) (- k) false = of_Z v.
Proof.
  intros Hlt Hk. destruct (Z.eq_dec v 0) as [->|Hv]; [reflexivity|].
  destruct (of_Z_safe v Hv Hlt) as (m & e & -> & Hb & He & Hm).
  assert (Hp : 0 < 2 ^ k) by (apply Z.pow_pos_nonneg; lia).
  replace (v <? 0) with (v * 2 ^ k <? 0).
  2: { destruct (Z.ltb_spec v 0), (Z.ltb_spec (v * 2 ^ k) 0);
       try reflexivity; nia. }
  apply binary_normalize_exact; [exact Hb|nia|].
  rewrite Z.abs_mul, (Z.abs_eq (2 ^ k)) by lia. rewrite Hm.
  destruct (Z.le_gt_cases (- k - e) 0) as [Hle|Hgt].
  - rewrite Z.max_l, Z.max_r, Z.mul_1_r by lia.
    rewrite <- Z.mul_assoc, <- Z.pow_add_r by lia.
    f_equal. f_equal. lia.
  - rewrite Z.max_r, Z.max_l, Z.mul_1_r by lia.
    rewrite <- Z.mul_assoc, <- Z.pow_add_r by lia.
    f_equal. f_equal. lia.
Qed.

Lemma aligned (z : Z) (m : positive) (e ez : Z) :
  z <> 0 -> e <= 0 -> ez <= e ->
  Zpos m = Z.abs z * 2 ^ (- e) ->
  cond_Zopp (z <? 0) (Zpos (fst (shl_align m e ez))) = z * 2 ^ (- ez).
Proof.
  intros Hz He Hez Hm.
  destruct (shl_align_spec m e ez) as [_ H2]. rewrite H2, Hm.
  rewrite Z.min_r by lia.
  rewrite <- Z.mul_assoc, <- Z.pow_add_r by lia.
  replace (- e + (e - ez)) with (- ez) by lia.
  assert (Hp : 0 < 2 ^ (- ez)) by (apply Z.pow_pos_nonneg; lia).
  destruct (Z.ltb_spec z 0); simpl; [rewrite Z.abs_neq by lia|rewrite Z.abs_eq by lia]; lia.
Qed.

Lemma add_of_Z (a b : Z) :
  Z.abs a < 2 ^ 53 -> Z.abs b < 2 ^ 53 -> Z.abs (a + b) < 2 ^ 53 ->
  add (of_Z a) (of_Z b) = of_Z (a + b).
Proof.
  intros Ha Hb Hab. unfold add.
  destruct (Z.eq_dec a 0) as [->|Ha0].
  { destruct (Z.eq_dec b 0) as [->|Hb0]; [reflexivity|].
    destruct (of_Z_safe b Hb0 Hb) as (m & e & Hr & _). simpl.
    rewrite Hr. reflexivity. }
  destruct (Z.eq_dec b 0) as [->|Hb0].
  { rewrite Z.add_0_r.
    destruct (of_Z_safe a Ha0 Ha) as (m & e & Hr & _). rewrite Hr.
    reflexivity. }
  destruct (of_Z_safe a Ha0 Ha) as (ma & ea & -> & _ & Hea & Hma).
  destruct (of_Z_safe b Hb0 Hb) as (mb & eb & -> & _ & Heb & Hmb).
  cbn [SFadd].
  rewrite (aligned a ma ea (Z.min ea eb)) by (assumption || lia).
  rewrite (aligned b mb eb (Z.min ea eb)) by (assumption || lia).
  rewrite <- Z.mul_add_distr_r.
  set (k := - Z.min ea eb).
  replace (Z.min ea eb) with (- k) by (unfold k; lia).
  apply normalize_of_Z; unfold k; lia.
Qed.

Lemma sub_of_Z (a b : Z) :
  Z.abs a < 2 ^ 53 -> Z.abs b < 2 ^ 53 -> Z.abs (a - b) < 2 ^ 53 ->
  sub (of_Z a) (of_Z b) = of_Z (a - b).
Proof.
  intros Ha Hb Hab. unfold sub.
  destruct (Z.eq_dec b 0) as [->|Hb0].
  { rewrite Z.sub_0_r. destruct (Z.eq_dec a 0) as [->|Ha0]; [reflexivity|].
    destruct (of_Z_safe a Ha0 Ha) as (m & e & Hr & _). rewrite Hr.
    reflexivity. }
  destruct (Z.eq_dec a 0) as [->|Ha0].
  { destruct (of_Z_safe b Hb0 Hb) as (m & e & Hr & Hbd & He & Hm).
    rewrite Hr. cbn [of_Z binary_normalize SFsub]. symmetry.
    replace (negb (b <? 0)) with (0 - b <? 0).
    2: { destruct (Z.ltb_spec b 0), (Z.ltb_spec (0 - b) 0);
         try reflexivity; lia. }
    apply binary_normalize_exact; [exact Hbd|lia|].
    rewrite Z.max_r, Z.max_l, Z.mul_1_r by lia.
    rewrite Hm. replace (0 - e) with (- e) by lia.
    replace (Z.abs (0 - b)) with (Z.abs b) by lia. reflexivity. }
  destruct (of_Z_safe a Ha0 Ha) as (ma & ea & -> & _ & Hea & Hma).
  destruct (of_Z_safe b Hb0 Hb) as (mb & eb & -> & _ & Heb & Hmb).
  cbn [SFsub].
  rewrite (aligned a ma ea (Z.min ea eb)) by (assumption || lia).
  rewrite (aligned b mb eb (Z.min ea eb)) by (assumption || lia).
  rewrite <- Z.mul_sub_distr_r.
  set (k := - Z.min ea eb).
  replace (Z.min ea eb) with (- k) by (unfold k; lia).
  apply normalize_of_Z; unfold k; lia.
Qed.

Lemma max_of_Z (z : Z) :
  Z.abs z < 2 ^ 53 ->
  Math_max [zero; of_Z z] = of_Z (Z.max 0 z).
Proof.
  intros Hlt. destruct (Z.eq_dec z 0) as [->|Hz]; [reflexivity|].
  destruct (of_Z_safe z Hz Hlt) as (m & e & Hr & _).
  destruct (Z.ltb_spec z 0) as [Hneg|Hpos].
  - rewrite Z.max_l by lia. rewrite Hr. reflexivity.
  - rewrite Z.max_r by lia. rewrite Hr. reflexivity.
Qed.

Lemma truthy_of_Z (z : Z) :
  Z.abs z < 2 ^ 53 -> (if truthy (of_Z z) then of_Z z else zero) = of_Z z.
Proof.
  intros Hlt. destruct (Z.eq_dec z 0) as [->|Hz]; [reflexivity|].
  destruct (of_Z_safe z Hz Hlt) as (m & e & -> & _). reflexivity.
Qed.


End NumberFacts.

(** ** The storefront *)

Module StorefrontFacts.

Import Storefront.

Lemma reducer_counts (sum : JS.Number) (oi : OrderItem) :
  reducer sum oi = if counts oi then JS.add sum (oi_quantity oi) else sum.
Proof.
  unfold reducer, counts, orderStatus.
  destruct (oi_order oi) as [o|]; simpl; [|reflexivity].
  rewrite orb_comm. reflexivity.
Qed.

Lemma magnitude_nonneg (ois : list OrderItem) : 0 <= magnitude ois.
Proof.
  unfold magnitude. induction ois as [|oi ois IH]; simpl; [lia|].
  destruct (counts oi); simpl; lia.
Qed.

Lemma sum_counted_magnitude (ois : list OrderItem) :
  Z.abs (sum_counted ois) <= magnitude ois.
Proof.
  unfold sum_counted, magnitude.
  induction ois as [|oi ois IH]; simpl; [lia|].
  destruct (counts oi); simpl; lia.
Qed.

(** Within the safe integers the sum from the left is the integer
    sum. *)
Lemma fold_reducer (ois : list OrderItem) :
  forall acc : Z,
    Forall (fun oi => counts oi = true -> JS.integer (oi_quantity oi)) ois ->
    Z.abs acc + magnitude ois < 2 ^ 53 ->
    fold_left reducer ois (JS.of_Z acc) = JS.of_Z (acc + sum_counted ois).
Proof.
  induction ois as [|oi ois IH]; intros acc Hall Hm.
  - simpl. f_equal. unfold sum_counted. simpl. lia.
  - inversion Hall as [|? ? Hq Hall']; subst.
    cbn [fold_left]. rewrite reducer_counts.
    unfold sum_counted, magnitude in *. cbn [filter] in *.
    destruct (counts oi); cbn [map fold_right] in *.
    + specialize (Hq eq_refl). unfold JS.integer in Hq.
      set (q := JS.to_Z (oi_quantity oi)) in *.
      pose proof (magnitude_nonneg ois) as Hn. unfold magnitude in Hn.
      rewrite Hq, NumberFacts.add_of_Z by lia.
      rewrite IH by (assumption || lia). f_equal. lia.
    + apply IH; assumption.
Qed.

Lemma totalOrdered_sum (item : RawItem) (cap : JS.Number) :
  safe_quantities cap (order_items_of item) ->
  totalOrdered item = JS.of_Z (sum_counted (order_items_of item)).
Proof.
  intros (_ & Hall & Hm). unfold totalOrdered, order_items_of in *.
  destruct (raw_order_items item) as [ois|]; simpl; [|reflexivity].
  change JS.zero with (JS.of_Z 0).
  rewrite fold_reducer by (assumption || lia). simpl.
  apply NumberFacts.truthy_of_Z.
  pose proof (sum_counted_magnitude ois). lia.
Qed.

(** Within the safe integers the remaining quantity is the integer
    [max 0 (cap - sum)]. *)
Lemma remaining_exact (item : RawItem) (cap : JS.Number) :
  raw_quantity item = Some cap ->
  safe_quantities cap (order_items_of item) ->
  remaining item
  = Some (JS.of_Z (Z.max 0 (JS.to_Z cap
                            - sum_counted (order_items_of item)))).
Proof.
  intros Hq Hs. unfold remaining. rewrite Hq, (totalOrdered_sum item cap Hs).
  destruct Hs as (Hc & _ & Hm). unfold JS.integer in Hc.
  set (c := JS.to_Z cap) in *.
  pose proof (sum_counted_magnitude (order_items_of item)) as Hsm.
  pose proof (magnitude_nonneg (order_items_of item)) as Hn.
  rewrite Hc, NumberFacts.sub_of_Z, NumberFacts.max_of_Z by lia. reflexivity.
Qed.

(** An order item on an order that is neither pending nor completed
    adds nothing to the sum. *)
Lemma sum_counted_skips (oi : OrderItem) (before after : list OrderItem) :
  counts oi = false ->
  sum_counted (before ++ oi :: after) = sum_counted (before ++ after).
Proof.
  intros Hc. unfold sum_counted.
  rewrite !filter_app. simpl. rewrite Hc. reflexivity.
Qed.





(** There the remaining quantity depends on the order of the order
    items: with the same orders taken as 1, 1 and 2^53 it is 0. *)
Example remaining_depends_on_order_beyond_safe_integers :
  remainingQuantity (present (large_item [1; 1; 2 ^ 53])) = Some (JS.of_Z 0)
  /\ remainingQuantity (present (large_item [2 ^ 53; 1; 1]))
     = Some (JS.of_Z 2).
Proof. vm_compute. split; reflexivity. Qed.

(** C7: for every fetched item without a quantity cap the remaining
    quantity is null, whatever its order items. *)
Theorem remaining_unbounded_without_cap
        (r : Response) (its : list RawItem) (item : RawItem) :
  error r = None ->
  items r = Some its ->
  In item its ->
  raw_quantity item = None ->
  queryFn r = Returned (map present its)
  /\ In (present item) (map present its)
  /\ remainingQuantity (present item) = None.
Proof.
  intros He Hi Hin Hq. repeat split.
  - unfold queryFn. rewrite He, Hi.
    destruct its; [contradiction|reflexivity].
  - now apply in_map.
  - simpl. unfold remaining. now rewrite Hq.
Qed.

Lemma remaining_unbounded_example :
  remainingQuantity (present uncapped_item) = None.
Proof.
  pose proof (remaining_unbounded_without_cap
                {| items := Some [uncapped_item]; error := None |}
                [uncapped_item] uncapped_item
                eq_refl eq_refl (or_introl eq_refl) eq_refl) as [_ [_ H]].
  exact H.
Defined.

(** C8: a fetch that succeeds with no item returns the empty list, and
    the component then renders the grid, empty, without the error block
    and without a toast. *)
Theorem empty_fetch_renders_empty_grid (r : Response) :
  error r = None ->
  items r = Some [] ->
  queryFn r = Returned []
  /\ render (settle (queryFn r)) = ([], Grid []).
Proof.
  intros He Hi. unfold queryFn. rewrite He, Hi. split; reflexivity.
Qed.

Lemma empty_fetch_example :
  render (settle (queryFn {| items := Some []; error := None |}))
  = ([], Grid []).
Proof.
  exact (proj2 (empty_fetch_renders_empty_grid
                  {| items := Some []; error := None |} eq_refl eq_refl)).
Defined.

End StorefrontFacts.

(** ** The administration screen *)

Module AdminFacts.

Import Admin Trace.
Local Open Scope list_scope.
Local Open Scope js_scope.

Lemma since_app {W} (st st' : State W) (new : list event) :
  events st' = events st ++ new -> since st st' = new.
Proof.
  intros E. unfold since. rewrite E, skipn_app, skipn_all, Nat.sub_diag.
  reflexivity.
Qed.

Ltac events_eq :=
  repeat first [rewrite <- app_assoc | progress simpl];
  try reflexivity; eauto.

Section Runs.

Context {W : Type} `{Env W}.
Variable uid : option string.

(** An awaited request either resolves or rejects; the event records
    which. *)
Lemma await_runs {A} (r : request A) (st : State W) :
  (exists d e w', send A r (world st) = (Resolved d e, w')
                  /\ await r st = (Ok (d, e), sent st (Call r e) w'))
  \/ (exists reason w',
         send A r (world st) = (Rejected reason, w')
         /\ await r st
            = (Throw reason, sent st (Call r (Some reason)) w')).
Proof.
  unfold await.
  destruct (send A r (world st)) as [[d e|reason] w'].
  - left. now exists d, e, w'.
  - right. now exists reason, w'.
Qed.

Lemma loadMenuItems_runs (st : State W) :
  fst (loadMenuItems uid st) = Ok tt
  /\ loaded uid st (snd (loadMenuItems uid st))
  /\ loading (ui (snd (loadMenuItems uid st))) = false
  /\ isDialogOpen (ui (snd (loadMenuItems uid st))) = isDialogOpen (ui st)
  /\ editingItem (ui (snd (loadMenuItems uid st))) = editingItem (ui st)
  /\ selectedImage (ui (snd (loadMenuItems uid st))) = selectedImage (ui st)
  /\ formData (ui (snd (loadMenuItems uid st))) = formData (ui st).
Proof.
  cbv beta iota delta [loadMenuItems try_finally try_catch bind].
  destruct (await_runs (lookup uid) st)
    as [(d & e & w & Hs & ->)|(reason & w & Hs & ->)].
  - destruct d as [v|]; cbv beta iota delta [fst].
    + destruct (await_runs (select_items v) (sent st (Call (lookup uid) e) w))
        as [(d & e' & w' & Hs' & ->)|(reason & w' & Hs' & ->)];
        simpl; repeat split.
      * eapply load_selected; eauto; events_eq.
      * eapply load_select_rejected; eauto; events_eq.
    + simpl. repeat split. eapply load_no_vendor; eauto; events_eq.
  - simpl. repeat split. eapply load_rejected; eauto; events_eq.
Qed.

(** A lookup that resolves without a vendor, with an error or not, is
    not noticed by [loadMenuItems]: no notification, the list as it
    was. *)
Lemma load_without_vendor_is_silent
      (st : State W) (e : option string) (w : W) :
  send _ (lookup uid) (world st) = (Resolved None e, w) ->
  toasts (snd (loadMenuItems uid st)) = toasts st
  /\ menuItems (ui (snd (loadMenuItems uid st))) = menuItems (ui st)
  /\ loading (ui (snd (loadMenuItems uid st))) = false.
Proof.
  intros Hsend. destruct (loadMenuItems_runs st) as (_ & Hl & Hld & _).
  destruct Hl as [reason w1 Hs He Ht Hm|e1 w1 Hs He Ht Hm
                 |v e1 reason w1 w' Hs Hs' He Ht Hm
                 |v e1 data e' w1 w' Hs Hs' He Ht Hm];
    rewrite Hsend in Hs; try discriminate.
  repeat split; assumption.
Qed.

(** X25: a select that resolves with an error and no data is not
    noticed by [loadMenuItems] either: no notification is raised, and
    the list is emptied. *)
Lemma load_select_error_is_silent
      (st : State W) (v : Vendor) (e e' : option string) (w w' : W) :
  send _ (lookup uid) (world st) = (Resolved (Some v) e, w) ->
  send _ (select_items v) w = (Resolved None e', w') ->
  toasts (snd (loadMenuItems uid st)) = toasts st
  /\ menuItems (ui (snd (loadMenuItems uid st))) = []
  /\ loading (ui (snd (loadMenuItems uid st))) = false.
Proof.
  intros Hsend Hsend'.
  destruct (loadMenuItems_runs st) as (_ & Hl & Hld & _).
  destruct Hl as [reason w1 Hs He Ht Hm|e1 w1 Hs He Ht Hm
                 |v1 e1 reason w1 w1' Hs Hs' He Ht Hm
                 |v1 e1 data e1' w1 w1' Hs Hs' He Ht Hm];
    rewrite Hsend in Hs; try discriminate;
    injection Hs as <- <- <-; rewrite Hsend' in Hs'; try discriminate.
  injection Hs' as <- <- <-. repeat split; assumption.
Qed.

(** Only a rejection of an awaited request reaches the [catch]. *)
Lemma load_rejection_notifies (st : State W) (reason : string) (w : W) :
  send _ (lookup uid) (world st) = (Rejected reason, w) ->
  toasts (snd (loadMenuItems uid st)) = toasts st ++ [load_failure]
  /\ loading (ui (snd (loadMenuItems uid st))) = false.
Proof.
  intros Hsend. destruct (loadMenuItems_runs st) as (_ & Hl & Hld & _).
  destruct Hl as [reason1 w1 Hs He Ht Hm|e1 w1 Hs He Ht Hm
                 |v e1 reason1 w1 w' Hs Hs' He Ht Hm
                 |v e1 data e' w1 w' Hs Hs' He Ht Hm];
    rewrite Hsend in Hs; try discriminate.
  split; assumption.
Qed.

Lemma handleImageUpload_runs (f : File) (st : State W) :
  exists uuid r st',
    handleImageUpload f st = (r, st')
    /\ ui st' = ui st /\ toasts st' = toasts st
    /\ ((r = Ok (getPublicUrl "menu_items" (upload_path uuid f))
         /\ events st'
            = events st ++ [Drew uuid; Call (upload_request uuid f) None])
        \/ (exists reason reason',
               r = Throw reason
               /\ events st'
                  = events st ++ [Drew uuid;
                                  Call (upload_request uuid f)
                                       (Some reason')])).
Proof.
  cbv beta iota zeta delta [handleImageUpload try_catch bind fresh_uuid].
  destruct (randomUUID (world st)) as [uuid w1].
  exists uuid.
  destruct (await_runs (upload_request uuid f) (sent st (Drew uuid) w1))
    as [(d & e & w' & Hs & ->)|(reason & w' & Hs & ->)].
  - destruct e as [e|]; simpl; do 2 eexists;
      (split; [reflexivity|]); repeat split.
    + right. exists e, e. split; [reflexivity|events_eq].
    + left. split; [reflexivity|events_eq].
  - simpl. do 2 eexists. split; [reflexivity|]. repeat split.
    right. exists reason, reason. split; [reflexivity|events_eq].
Qed.

Lemma chooseImage_runs (u : UI) (st : State W) :
  exists r st',
    chooseImage u st = (r, st')
    /\ ui st' = ui st /\ toasts st' = toasts st
    /\ ((exists img ups,
            r = Ok img /\ events st' = events st ++ ups
            /\ image_chosen u ups img)
        \/ (exists f uuid reason reason',
               selectedImage u = Some f /\ r = Throw reason
               /\ events st'
                  = events st ++ [Drew uuid;
                                  Call (upload_request uuid f)
                                       (Some reason')])).
Proof.
  unfold chooseImage, image_chosen.
  destruct (selectedImage u) as [f|].
  - cbv beta iota delta [bind].
    destruct (handleImageUpload_runs f st)
      as (uuid & r & st' & -> & Hu & Ht & [[-> He]|(reason & reason' & -> & He)]).
    + do 2 eexists. split; [reflexivity|]. repeat split; auto.
      left. do 2 eexists. split; [reflexivity|]. split; [exact He|].
      exists uuid. split; reflexivity.
    + do 2 eexists. split; [reflexivity|]. repeat split; auto.
      right. exists f, uuid, reason, reason'. auto.
  - do 2 eexists. split; [reflexivity|]. repeat split.
    left. exists (previous_image (editingItem u)), [].
    rewrite app_nil_r. auto.
Qed.

Lemma save_runs (u : UI) (data : MenuItemData) (st : State W) :
  exists r st',
    save u data st = (r, st')
    /\ ui st' = ui st /\ toasts st' = toasts st
    /\ ((r = Ok None
         /\ events st'
            = events st ++ [Call (save_request (editingItem u) data) None])
        \/ (exists reason,
               (r = Ok (Some reason) \/ r = Throw reason)
               /\ events st'
                  = events st ++ [Call (save_request (editingItem u) data)
                                       (Some reason)])).
Proof.
  unfold save, save_request.
  destruct (editingItem u) as [item|]; cbv beta iota delta [bind].
  - destruct (await_runs (menu_items_update data [("id", Some (id item))]) st)
      as [(d & e & w' & Hs & ->)|(reason & w' & Hs & ->)].
    + do 2 eexists. split; [reflexivity|]. repeat split.
      destruct e as [e|]; [right; exists e|left]; simpl; auto.
    + do 2 eexists. split; [reflexivity|]. repeat split.
      right. exists reason. auto.
  - destruct (await_runs (menu_items_insert [data]) st)
      as [(d & e & w' & Hs & ->)|(reason & w' & Hs & ->)].
    + do 2 eexists. split; [reflexivity|]. repeat split.
      destruct e as [e|]; [right; exists e|left]; simpl; auto.
    + do 2 eexists. split; [reflexivity|]. repeat split.
      right. exists reason. auto.
Qed.

Lemma saved_runs (u : UI) (st : State W) :
  exists st1,
    ui st1 = closed (ui st)
    /\ toasts st1 = toasts st ++ [save_success (editingItem u)]
    /\ events st1 = events st
    /\ world st1 = world st
    /\ saved uid u st = (Ok tt, snd (loadMenuItems uid st1)).
Proof.
  set (st1 := Build_State (closed (ui st))
                          (toasts st ++ [save_success (editingItem u)])
                          (console st) (events st) (world st)).
  exists st1. repeat split.
  change (saved uid u st) with (not_awaited (loadMenuItems uid) st1).
  unfold not_awaited, try_catch.
  pose proof (loadMenuItems_runs st1) as [Hok _].
  destruct (loadMenuItems uid st1) as [r st2].
  simpl in Hok. subst r. reflexivity.
Qed.

Lemma handleSubmit_runs (st : State W) :
  fst (handleSubmit uid st) = Ok tt
  /\ submitted uid st (snd (handleSubmit uid st)).
Proof.
  cbv beta iota delta [handleSubmit bind get_ui try_catch].
  destruct (await_runs (lookup uid) st)
    as [(d & e & w & Hs & ->)|(reason & w & Hs & ->)].
  2: { simpl. split; [reflexivity|]. eapply submit_no_vendor; events_eq. }
  destruct d as [v|]; cbv beta iota delta [fst].
  2: { simpl. split; [reflexivity|]. eapply submit_no_vendor; events_eq. }
  destruct (chooseImage_runs (ui st) (sent st (Call (lookup uid) e) w))
    as (r & st1 & -> & Hu1 & Ht1
        & [(img & ups & -> & He1 & Hc)
          |(f & uuid & reason & reason' & Hf & -> & He1)]).
  2: { simpl. split; [reflexivity|].
       eapply submit_upload_failed; simpl; eauto.
       - rewrite He1. events_eq.
       - now rewrite Ht1. }
  destruct (save_runs (ui st) (menuItemData v (formData (ui st)) img) st1)
    as (r & st2 & -> & Hu2 & Ht2
        & [[-> He2]|(reason & [->| ->] & He2)]).
  - destruct (saved_runs (ui st) st2)
      as (st3 & Hu3 & Ht3 & He3 & Hw3 & ->).
    simpl. split; [reflexivity|].
    eapply submit_saved with (st1 := st3); eauto.
    + rewrite He3, He2, He1. events_eq.
    + rewrite Hu3, Hu2, Hu1. reflexivity.
    + rewrite Ht3, Ht2, Ht1. reflexivity.
  - simpl. split; [reflexivity|].
    eapply submit_save_failed; simpl; eauto.
    + rewrite He2, He1. events_eq.
    + now rewrite Hu2.
    + now rewrite Ht2, Ht1.
  - simpl. split; [reflexivity|].
    eapply submit_save_failed; simpl; eauto.
    + rewrite He2, He1. events_eq.
    + now rewrite Hu2.
    + now rewrite Ht2, Ht1.
Qed.

(** A load writes nothing. *)
Lemma loaded_events (st st' : State W) :
  loaded uid st st' ->
  exists new,
    events st' = events st ++ new
    /\ flat_map written new = []
    /\ existsb failed_save new = false.
Proof.
  intros [reason w Hs He _ _|e w Hs He _ _|v e reason w w' Hs Hs' He _ _
         |v e data e' w w' Hs Hs' He _ _];
    eexists; (split; [exact He|]); split; try reflexivity;
    simpl; repeat (match goal with |- context [match ?x with _ => _ end] =>
                                     destruct x end); reflexivity.
Qed.

(** What a submit writes: at most one record, built from the form as
    it was, with the image chosen from the selected file or the
    edited item; its request follows the lookup and the upload. *)
Lemma submitted_writes (st st' : State W) (d : MenuItemData) :
  submitted uid st st' ->
  In d (flat_map written (since st st')) ->
  exists v e ups img outcome rest,
    image_chosen (ui st) ups img
    /\ d = menuItemData v (formData (ui st)) img
    /\ since st st'
       = Call (lookup uid) e :: ups
           ++ Call (save_request (editingItem (ui st)) d) outcome :: rest.
Proof.
  intros [e He _ _|e uuid f reason _ He _ _
         |v e ups img reason Hc He _ _
         |v e ups img st1 Hc He _ _ ->].
  - rewrite (since_app _ _ _ He). simpl. tauto.
  - rewrite (since_app _ _ _ He). simpl. tauto.
  - rewrite (since_app _ _ _ He). intros Hin.
    assert (Hd : d = menuItemData v (formData (ui st)) img).
    { simpl in Hin. rewrite flat_map_app in Hin.
      apply in_app_or in Hin as [Hin|Hin].
      - exfalso. unfold image_chosen in Hc.
        destruct (selectedImage (ui st)).
        + destruct Hc as (uuid & -> & _). simpl in Hin. tauto.
        + destruct Hc as [-> _]. simpl in Hin. tauto.
      - unfold save_request in Hin.
        destruct (editingItem (ui st)); simpl in Hin;
          destruct Hin as [<-|[]]; reflexivity. }
    subst d. exists v, e, ups, img, (Some reason), []. auto.
  - destruct (loadMenuItems_runs st1) as (_ & Hl & _).
    destruct (loaded_events _ _ Hl) as (new & He' & Hw & _).
    assert (Hs : since st (snd (loadMenuItems uid st1))
                 = Call (lookup uid) e :: ups
                     ++ Call (save_request (editingItem (ui st))
                                (menuItemData v (formData (ui st)) img))
                             None :: new).
    { apply since_app. rewrite He', He. events_eq. }
    rewrite Hs. intros Hin.
    assert (Hd : d = menuItemData v (formData (ui st)) img).
    { simpl in Hin. rewrite flat_map_app in Hin.
      apply in_app_or in Hin as [Hin|Hin].
      - exfalso. unfold image_chosen in Hc.
        destruct (selectedImage (ui st)).
        + destruct Hc as (uuid & -> & _). simpl in Hin. tauto.
        + destruct Hc as [-> _]. simpl in Hin. tauto.
      - simpl in Hin. rewrite Hw, app_nil_r in Hin.
        unfold save_request in Hin.
        destruct (editingItem (ui st)); simpl in Hin;
          destruct Hin as [<-|[]]; reflexivity. }
    subst d. exists v, e, ups, img, None, new. auto.
Qed.

End Runs.

Lemma or_null_not_empty (s : string) : JS.or_null s <> Some "".
Proof.
  unfold JS.or_null. destruct (String.eqb_spec s ""); congruence.
Qed.

Section Submit.

Context {W : Type} `{Env W}.
Variable uid : option string.

(** C10: every record a submit writes carries, for the localized
    name, the description and the localized description, the form
    text when it is not empty and null when it is: never the empty
    string. *)
Theorem submit_normalizes_empty_text (st : State W) (d : MenuItemData) :
  In d (flat_map written (since st (snd (handleSubmit uid st)))) ->
  (d_name_ko d = JS.or_null (f_name_ko (formData (ui st)))
   /\ d_description d = JS.or_null (f_description (formData (ui st)))
   /\ d_description_ko d
      = JS.or_null (f_description_ko (formData (ui st))))
  /\ (f_name_ko (formData (ui st)) = "" -> d_name_ko d = None)
  /\ (f_description (formData (ui st)) = "" -> d_description d = None)
  /\ (f_description_ko (formData (ui st)) = ""
      -> d_description_ko d = None)
  /\ d_name_ko d <> Some ""
  /\ d_description d <> Some ""
  /\ d_description_ko d <> Some "".
Proof.
  intros Hin.
  destruct (handleSubmit_runs uid st) as [_ Hsub].
  destruct (submitted_writes uid _ _ d Hsub Hin)
    as (v & e & ups & img & outcome & rest & _ & -> & _).
  simpl. repeat split; try apply or_null_not_empty;
    intros ->; reflexivity.
Qed.


(** C5: when the insert or the update of a submit fails, the
    component state is what it was (dialog, edited item, selected
    image, form and list), one failure notification is added, the
    list is not read again, and nothing is thrown. *)
Theorem failed_save_leaves_screen (st : State W) :
  existsb failed_save (since st (snd (handleSubmit uid st))) = true ->
  ui (snd (handleSubmit uid st)) = ui st
  /\ toasts (snd (handleSubmit uid st)) = toasts st ++ [save_failure]
  /\ existsb reads_list (since st (snd (handleSubmit uid st))) = false
  /\ fst (handleSubmit uid st) = Ok tt.
Proof.
  destruct (handleSubmit_runs uid st) as [Hok Hsub].
  destruct Hsub as [e He Hu Ht|e uuid f reason _ He Hu Ht
                   |v e ups img reason Hc He Hu Ht
                   |v e ups img st1 Hc He _ _ Hst].
  - rewrite (since_app _ _ _ He). simpl. destruct e; discriminate.
  - rewrite (since_app _ _ _ He). simpl. destruct e; discriminate.
  - rewrite (since_app _ _ _ He). intros _.
    repeat split; auto.
    unfold image_chosen in Hc.
    destruct (selectedImage (ui st)).
    + destruct Hc as (uuid & -> & _). simpl.
      unfold save_request. now destruct (editingItem (ui st)).
    + destruct Hc as [-> _]. simpl.
      unfold save_request. now destruct (editingItem (ui st)).
  - rewrite Hst.
    destruct (loadMenuItems_runs uid st1) as (_ & Hl & _).
    destruct (loaded_events uid _ _ Hl) as (new & He' & _ & Hf).
    rewrite (since_app st _ (Call (lookup uid) e :: ups
               ++ Call (save_request (editingItem (ui st))
                          (menuItemData v (formData (ui st)) img)) None
               :: new)).
    2: { rewrite He', He. events_eq. }
    intros Hex. exfalso.
    simpl in Hex. rewrite existsb_app in Hex. simpl in Hex.
    rewrite Hf in Hex.
    assert (Hups : existsb failed_save ups = false).
    { unfold image_chosen in Hc.
      destruct (selectedImage (ui st)).
      - destruct Hc as (uuid & -> & _). reflexivity.
      - destruct Hc as [-> _]. reflexivity. }
    rewrite Hups in Hex. destruct e; discriminate.
Qed.

(** C3, as the code has it: every record a submit writes carries as
    price [parseFloat] of the price text, whatever the text, and that
    price is NaN exactly when the text, leading white space apart, does
    not start with a decimal literal.  A text that starts with one is
    written as the value of that literal, whatever follows it. *)
Theorem submit_price (st : State W) (d : MenuItemData) :
  In d (flat_map written (since st (snd (handleSubmit uid st)))) ->
  d_price d = JS.parseFloat (f_price (formData (ui st)))
  /\ (JS.isNaN (d_price d) = true
      <-> JS.StrDecimalLiteral
            (JS.TrimStart (list_ascii_of_string (f_price (formData (ui st)))))
          = None).
Proof.
  intros Hin.
  destruct (handleSubmit_runs uid st) as [_ Hsub].
  destruct (submitted_writes uid _ _ d Hsub Hin)
    as (v & e & ups & img & outcome & rest & _ & -> & _).
  split; [reflexivity|]. apply NumberFacts.parseFloat_NaN_iff.
Qed.

(** C9: when the form is opened on an item whose price is a finite
    number and is submitted as it is, every record the submit writes
    carries a price that [===] the price of the item, and is that very
    number unless it is the negative zero. *)
Theorem edit_then_submit_keeps_price
        (st : State W) (item : MenuItem) (d : MenuItemData) :
  JS.finite_Number (price item) ->
  In d (flat_map written
          (since (snd (handleEdit item st))
                 (snd (handleSubmit uid (snd (handleEdit item st)))))) ->
  f_price (formData (ui (snd (handleEdit item st))))
  = JS.toString (price item)
  /\ JS.strictEquals (d_price d) (price item) = true
  /\ (price item <> S754_zero true -> d_price d = price item).
Proof.
  intros Hfin Hin.
  destruct (handleSubmit_runs uid (snd (handleEdit item st))) as [_ Hsub].
  destruct (submitted_writes uid _ _ d Hsub Hin)
    as (v & e & ups & img & outcome & rest & _ & -> & _).
  split; [reflexivity|].
  exact (NumberFacts.parseFloat_toString (price item) Hfin).
Qed.

End Submit.

End AdminFacts.

(** ** The screen in front of the remote store *)

Module StoreFacts.

Import Admin Backend Trace AdminFacts.
Local Open Scope list_scope.

Lemma compare_lt_trans (a : string) :
  forall b c,
    String.compare a b = Lt -> String.compare b c = Lt ->
    String.compare a c = Lt.
Proof.
  induction a as [|x a IH]; intros [|y b] [|z c]; simpl; try congruence.
  unfold Ascii.compare.
  destruct (N.compare_spec (N_of_ascii x) (N_of_ascii y)) as [Exy|Lxy|Gxy];
    destruct (N.compare_spec (N_of_ascii y) (N_of_ascii z)) as [Eyz|Lyz|Gyz];
    try congruence; intros Hab Hbc.
  - rewrite Exy, Eyz, N.compare_refl. eauto.
  - rewrite Exy. now apply N.compare_lt_iff in Lyz as ->.
  - rewrite <- Eyz. now apply N.compare_lt_iff in Lxy as ->.
  - assert (L : (N_of_ascii x < N_of_ascii z)%N) by lia.
    now apply N.compare_lt_iff in L as ->.
Qed.

Lemma compare_refl (a : string) : String.compare a a = Eq.
Proof.
  induction a as [|x a IH]; simpl; [reflexivity|].
  unfold Ascii.compare. now rewrite N.compare_refl.
Qed.

Lemma leb_trans (a b c : string) :
  String.leb a b = true -> String.leb b c = true -> String.leb a c = true.
Proof.
  unfold String.leb.
  destruct (String.compare a b) eqn:Eab; try discriminate;
    destruct (String.compare b c) eqn:Ebc; try discriminate; intros _ _.
  - apply String.compare_eq_iff in Eab, Ebc. subst.
    now rewrite compare_refl.
  - apply String.compare_eq_iff in Eab. subst. now rewrite Ebc.
  - apply String.compare_eq_iff in Ebc. subst. now rewrite Eab.
  - now rewrite (compare_lt_trans _ _ _ Eab Ebc).
Qed.

Lemma insert_by_perm (key : MenuItem -> string) (x : MenuItem)
      (l : list MenuItem) :
  Permutation (insert_by String.leb key x l) (x :: l).
Proof.
  induction l as [|y l IH]; simpl; [reflexivity|].
  destruct (String.leb (key y) (key x)); [|reflexivity].
  rewrite IH. apply perm_swap.
Qed.

Lemma insert_by_sorted (x : MenuItem) (l : list MenuItem) :
  Sorted by_category l ->
  Sorted by_category (insert_by String.leb category x l).
Proof.
  induction 1 as [|y l Hs IH Hd]; simpl.
  - repeat constructor.
  - destruct (String.leb (category y) (category x)) eqn:E.
    + constructor; [exact IH|].
      destruct l as [|z l]; simpl.
      * constructor. exact E.
      * inversion Hd; subst.
        destruct (String.leb (category z) (category x));
          constructor; assumption.
    + constructor; [constructor; assumption|].
      constructor. unfold by_category.
      destruct (String.leb_total (category x) (category y)); congruence.
Qed.

Lemma sort_by_fold (l : list MenuItem) :
  forall acc,
    Sorted by_category acc ->
    Sorted by_category
           (fold_left (fun a x => insert_by String.leb category x a) l acc)
    /\ Permutation
         (fold_left (fun a x => insert_by String.leb category x a) l acc)
         (l ++ acc).
Proof.
  induction l as [|x l IH]; intros acc Hs; simpl.
  - split; [exact Hs|reflexivity].
  - destruct (IH _ (insert_by_sorted x acc Hs)) as [H1 H2].
    split; [exact H1|].
    rewrite H2, insert_by_perm. symmetry. apply Permutation_middle.
Qed.

Lemma sort_by_sorted (l : list MenuItem) :
  Sorted by_category (sort_by String.leb category l)
  /\ Permutation (sort_by String.leb category l) l.
Proof.
  destruct (sort_by_fold l [] (Sorted_nil _)) as [H1 H2].
  rewrite app_nil_r in H2. split; assumption.
Qed.

Lemma filter_same {A} (f g : A -> bool) (l : list A) :
  (forall x, f x = g x) -> filter f l = filter g l.
Proof.
  intros E. induction l as [|x l IH]; simpl; [reflexivity|].
  now rewrite E, IH.
Qed.

Lemma serve_lookup (u : string) (db : Database) :
  online db = true ->
  serve (lookup (Some u)) db
  = (match vendors_of u db with
     | [v] => Resolved (Some v) None
     | _ => Resolved None (Some "no single row")
     end, db).
Proof.
  intros Ho. unfold serve, matching, vendors_of. rewrite Ho. simpl.
  rewrite (filter_same _ (fun x => String.eqb (v_user_id x) u)).
  2: { intros x. unfold satisfies. simpl. apply andb_true_r. }
  destruct (filter _ (vendors db)) as [|v [|v' l]]; reflexivity.
Qed.

Lemma serve_select (v : Vendor) (db : Database) :
  online db = true ->
  serve (select_items v) db
  = (Resolved (Some (sort_by String.leb category
                             (of_vendor v (menu_items db)))) None, db).
Proof.
  intros Ho. unfold serve, matching, of_vendor. rewrite Ho. simpl.
  rewrite (filter_same _ (fun r => String.eqb (vendor_id r) (v_id v))).
  2: { intros x. unfold satisfies. simpl. apply andb_true_r. }
  reflexivity.
Qed.

(** C6: when the store is in reach and the user owns one vendor, the
    list after a load holds exactly the rows of [menu_items] whose
    vendor is that vendor, each as often as the table holds it, in
    ascending order of category; the loading state is stopped and no
    notification is raised. *)
Theorem load_lists_vendor_items
        (u : string) (v : Vendor) (st : State Database) :
  online (world st) = true ->
  vendors_of u (world st) = [v] ->
  let st' := snd (loadMenuItems (Some u) st) in
  Permutation (menuItems (ui st')) (of_vendor v (menu_items (world st)))
  /\ (forall r, In r (menuItems (ui st'))
                <-> In r (menu_items (world st)) /\ vendor_id r = v_id v)
  /\ StronglySorted by_category (menuItems (ui st'))
  /\ loading (ui st') = false
  /\ toasts st' = toasts st.
Proof.
  intros Ho Hv st'.
  destruct (loadMenuItems_runs (Some u) st) as (_ & Hl & Hld & _).
  fold st' in Hl, Hld.
  assert (Hlookup : send Vendor (lookup (Some u)) (world st)
                    = (Resolved (Some v) None, world st)).
  { simpl. rewrite (serve_lookup u _ Ho), Hv. reflexivity. }
  destruct Hl as [reason w Hs _ _ _|e w Hs _ _ _
                 |v' e reason w w' Hs Hs' _ _ _
                 |v' e data e' w w' Hs Hs' _ Ht Hm];
    rewrite Hlookup in Hs; try discriminate.
  - injection Hs as <- <- <-.
    simpl in Hs'. rewrite (serve_select v _ Ho) in Hs'. discriminate.
  - injection Hs as <- <- <-.
    simpl in Hs'. rewrite (serve_select v _ Ho) in Hs'.
    injection Hs' as <- <- <-.
    destruct (sort_by_sorted (of_vendor v (menu_items (world st))))
      as [Hsorted Hperm].
    rewrite Hm.
    split; [exact Hperm|].
    split; [|split; [|split; assumption]].
    + intros r. split.
      * intros Hin. apply (Permutation_in _ Hperm) in Hin.
        apply filter_In in Hin as [Hin Hr].
        split; [exact Hin|]. now apply String.eqb_eq.
      * intros [Hin Hvid].
        apply (Permutation_in _ (Permutation_sym Hperm)).
        apply filter_In. split; [exact Hin|]. now apply String.eqb_eq.
    + apply Sorted_StronglySorted; [|exact Hsorted].
      intros a b c. apply leb_trans.
Qed.

Import Scenario.

Lemma load_lists_vendor_items_example :
  let st' := snd (loadMenuItems (Some "u1") (mounted store)) in
  Permutation (menuItems (ui st')) (of_vendor vendor1 (menu_items store))
  /\ (forall r, In r (menuItems (ui st'))
                <-> In r (menu_items store) /\ vendor_id r = "v1")
  /\ StronglySorted by_category (menuItems (ui st'))
  /\ loading (ui st') = false
  /\ toasts st' = [].
Proof.
  exact (load_lists_vendor_items "u1" vendor1 (mounted store)
                                 eq_refl eq_refl).
Defined.

(** C2, at a user without a vendor row: the lookup fails, the loading
    state is stopped, and no notification is raised. *)
Lemma load_without_vendor_raises_no_toast :
  let st := mounted store in
  let st' := snd (loadMenuItems (Some "u9") st) in
  since st st' = [Call (lookup (Some "u9")) (Some "no single row")]
  /\ existsb failed (since st st') = true
  /\ toasts st' = []
  /\ loading (ui st') = false
  /\ render (ui st') = Screen [] false.
Proof. vm_compute. repeat split. Qed.

(** With the store out of reach the awaited lookup rejects, and the
    load notifies once. *)
Lemma load_unreachable_raises_toast :
  let st := mounted unreachable_store in
  let st' := snd (loadMenuItems (Some "u1") st) in
  since st st' = [Call (lookup (Some "u1")) (Some "Failed to fetch")]
  /\ toasts st' = [load_failure]
  /\ loading (ui st') = false
  /\ render (ui st') = Screen [] false.
Proof. vm_compute. repeat split. Qed.

(** The submit, on the same failure, does notify. *)
Lemma submit_without_vendor_raises_toast :
  let st := on (screen None None (form "4.5")) store in
  let st' := snd (handleSubmit (Some "u9") st) in
  since st st' = [Call (lookup (Some "u9")) (Some "no single row")]
  /\ toasts st' = [save_failure].
Proof. vm_compute. repeat split. Qed.

Lemma submit_normalizes_empty_text_example :
  let st := on (screen None None (form "4.5")) store in
  let d := tteokbokki Undefined in
  In d (flat_map written (since st (snd (handleSubmit (Some "u1") st))))
  /\ d_name_ko d = None /\ d_description d = None
  /\ d_description_ko d = None.
Proof.
  intros st d.
  assert (Hin : In d (flat_map written
                        (since st (snd (handleSubmit (Some "u1") st))))).
  { vm_compute. left. reflexivity. }
  split; [exact Hin|].
  destruct (submit_normalizes_empty_text (Some "u1") st d Hin)
    as (_ & H1 & H2 & H3 & _).
  split; [apply H1; reflexivity|].
  split; [apply H2; reflexivity|apply H3; reflexivity].
Defined.


(** Without a selected file: the stored image of the edited item, null
    when it has none, and no image at all when creating. *)
Example submit_without_image :
  let run editing :=
    let st := on (screen editing None (form "4.5")) store in
    map d_image
        (flat_map written (since st (snd (handleSubmit (Some "u1") st)))) in
  run (Some bibimbap) = [Defined "https://cdn.example/old.png"]
  /\ run (Some tea) = [Null]
  /\ run None = [Undefined].
Proof. vm_compute. repeat split. Qed.

Lemma failed_save_leaves_screen_example :
  let st := on (screen (Some bibimbap) None (form "4.5")) read_only_store in
  let st' := snd (handleSubmit (Some "u1") st) in
  existsb failed_save (since st st') = true
  /\ ui st' = ui st
  /\ toasts st' = [save_failure]
  /\ existsb reads_list (since st st') = false
  /\ fst (handleSubmit (Some "u1") st) = Ok tt.
Proof.
  intros st st'.
  assert (Hf : existsb failed_save (since st st') = true)
    by (vm_compute; reflexivity).
  split; [exact Hf|].
  exact (failed_save_leaves_screen (Some "u1") st Hf).
Defined.

Lemma submit_price_example :
  let st := on (screen None None (form "4.5")) store in
  let d := tteokbokki Undefined in
  In d (flat_map written (since st (snd (handleSubmit (Some "u1") st))))
  /\ d_price d = JS.parseFloat "4.5"
  /\ (JS.isNaN (d_price d) = true
      <-> JS.StrDecimalLiteral (JS.TrimStart (list_ascii_of_string "4.5"))
          = None).
Proof.
  intros st d.
  assert (Hin : In d (flat_map written
                        (since st (snd (handleSubmit (Some "u1") st))))).
  { vm_compute. left. reflexivity. }
  split; [exact Hin|].
  exact (submit_price (Some "u1") st d Hin).
Defined.

(** C3, as stated, fails on a price text that starts with digits: the
    text [12abc] is not numeric, and the record written carries the
    price 12, not NaN. *)
Lemma malformed_price_written_as_number :
  let st := on (screen None None (form "12abc")) store in
  let d := menuItemData vendor1 (form "12abc") Undefined in
  JS.numeric_text "12abc" = false
  /\ In d (flat_map written (since st (snd (handleSubmit (Some "u1") st))))
  /\ d_price d = JS.parseFloat "12"
  /\ JS.isNaN (d_price d) = false.
Proof. vm_compute. repeat split. left. reflexivity. Qed.

Lemma edit_then_submit_keeps_price_example :
  let st := on (screen None None emptyForm) store in
  let st1 := snd (handleEdit bibimbap st) in
  let d := menuItemData vendor1 (formData (ui st1))
                        (Defined "https://cdn.example/old.png") in
  JS.finite_Number (price bibimbap)
  /\ In d (flat_map written
             (since st1 (snd (handleSubmit (Some "u1") st1))))
  /\ f_price (formData (ui st1)) = "12.5"
  /\ d_price d = price bibimbap.
Proof.
  intros st st1 d.
  assert (Hfin : JS.finite_Number (price bibimbap)) by reflexivity.
  assert (Hin : In d (flat_map written
                        (since st1 (snd (handleSubmit (Some "u1") st1))))).
  { vm_compute. left. reflexivity. }
  destruct (edit_then_submit_keeps_price (Some "u1") st bibimbap d Hfin Hin)
    as (Ht & _ & Hp).
  split; [exact Hfin|]. split; [exact Hin|].
  split; [vm_compute; reflexivity|].
  apply Hp. discriminate.
Defined.

End StoreFacts.

(** * Further properties of the operations *)

(** ** The storefront beyond the remaining quantity *)

Module StorefrontBehaviour.

Import Storefront StorefrontFacts.
Local Open Scope list_scope.




Lemma sum_counted_perm (l l' : list OrderItem) :
  Permutation l l' ->
  sum_counted l = sum_counted l' /\ magnitude l = magnitude l'.
Proof.
  unfold sum_counted, magnitude.
  induction 1 as [|x l l' _ IH|x y l|l l' l'' _ IH1 _ IH2]; simpl.
  - split; reflexivity.
  - destruct (counts x); simpl; lia.
  - destruct (counts x), (counts y); simpl; lia.
  - lia.
Qed.

Lemma safe_quantities_perm (cap : JS.Number) (l l' : list OrderItem) :
  Permutation l l' -> safe_quantities cap l -> safe_quantities cap l'.
Proof.
  intros Hp (Hc & Hall & Hm). split; [exact Hc|]. split.
  - apply (Permutation_Forall Hp Hall).
  - destruct (sum_counted_perm _ _ Hp) as [_ <-]. exact Hm.
Qed.

(** X2: when the cap and the counted quantities are integers whose
    magnitudes add up to less than 2^53, the remaining quantity does
    not depend on the order in which the order items arrive, and an
    absent join counts as an empty one: two records with the same cap
    and the same order items up to order have the same remaining
    quantity. *)
Theorem remaining_order_independent (item item' : RawItem) :
  raw_quantity item = raw_quantity item' ->
  Permutation (order_items_of item) (order_items_of item') ->
  (forall cap, raw_quantity item = Some cap ->
               safe_quantities cap (order_items_of item)) ->
  remainingQuantity (present item) = remainingQuantity (present item').
Proof.
  intros Hq Hp Hs. cbn [remainingQuantity present].
  destruct (raw_quantity item) as [cap|] eqn:Hc.
  - specialize (Hs cap eq_refl).
    rewrite (remaining_exact item cap Hc Hs).
    rewrite (remaining_exact item' cap (eq_sym Hq)
               (safe_quantities_perm cap _ _ Hp Hs)).
    destruct (sum_counted_perm _ _ Hp) as [-> _]. reflexivity.
  - unfold remaining. rewrite Hc, <- Hq. reflexivity.
Qed.

(** The example item with its order items in reverse order. *)
Lemma remaining_order_independent_example :
  let reversed :=
    {| raw_id := raw_id example_item; raw_name := raw_name example_item;
       raw_name_ko := None; raw_description := None;
       raw_description_ko := None; raw_price := raw_price example_item;
       raw_image := None; raw_quantity := Some (JS.of_Z 10);
       raw_order_items := Some (rev (order_items_of example_item)) |} in
  remainingQuantity (present example_item)
  = remainingQuantity (present reversed).
Proof.
  intros reversed.
  apply (remaining_order_independent example_item reversed eq_refl).
  - exact (Permutation_rev (order_items_of example_item)).
  - intros cap Hc. injection Hc as <-.
    split; [reflexivity|]. split; [|reflexivity]. repeat constructor.
Defined.

(** X3: a fetch that comes back with an error makes [queryFn] throw
    that error, whatever items came with it; and whenever the query
    holds an error the component renders the error block and raises one
    destructive toast, whatever the loading flag and the data are. *)
Theorem fetch_error_renders_error_block
        (r : Response) (e : string) (q : QueryResult) :
  error r = Some e ->
  q_error q = Some e ->
  queryFn r = Thrown e
  /\ q_error (settle (queryFn r)) = Some e
  /\ snd (render q)
     = ErrorBlock "Failed to load menu items. Please try again later."
  /\ (exists t, fst (render q) = [t] /\ destructive t = true)
  /\ (forall l, snd (render q) <> Grid l).
Proof.
  intros He Hq. unfold queryFn, render. rewrite He, Hq. simpl.
  repeat split; try discriminate. eexists. split; reflexivity.
Qed.

Lemma fetch_error_example :
  let r := {| items := Some [example_item]; error := Some "timeout" |} in
  let q := {| data := Some [present example_item]; isLoading := true;
              q_error := Some "timeout" |} in
  queryFn r = Thrown "timeout"
  /\ snd (render q)
     = ErrorBlock "Failed to load menu items. Please try again later.".
Proof.
  intros r q.
  destruct (fetch_error_renders_error_block r "timeout" q eq_refl eq_refl)
    as (H1 & _ & H2 & _).
  split; assumption.
Defined.

(** X4: a fetch without error returns one presentation record per
    fetched record, in the order fetched and under the same identifier
    and name; missing data ([null]) is an empty list. *)
Theorem fetch_keeps_items_in_order (r : Response) :
  error r = None ->
  exists l,
    queryFn r = Returned l
    /\ map id l
       = map raw_id (match items r with Some its => its | None => [] end)
    /\ map name l
       = map raw_name (match items r with Some its => its | None => [] end)
    /\ List.length l
       = List.length (match items r with Some its => its | None => [] end)
    /\ render (settle (queryFn r)) = ([], Grid l).
Proof.
  intros He. unfold queryFn. rewrite He.
  destruct (items r) as [[|it its]|].
  - exists []. repeat split.
  - exists (map present (it :: its)).
    rewrite !map_map, length_map. repeat split.
  - exists []. repeat split.
Qed.

Lemma fetch_keeps_items_in_order_example :
  exists l,
    queryFn {| items := Some [uncapped_item; example_item]; error := None |}
    = Returned l
    /\ map id l = ["tea"; "kimchi"].
Proof.
  destruct (fetch_keeps_items_in_order
              {| items := Some [uncapped_item; example_item];
                 error := None |} eq_refl)
    as (l & H1 & H2 & _).
  exists l. split; assumption.
Defined.



End StorefrontBehaviour.

(** ** The administration screen beyond the record it writes *)

Module AdminBehaviour.

Import Admin Trace Observed AdminFacts.
Local Open Scope list_scope.
Local Open Scope js_scope.

Section Operations.

Context {W : Type} `{Env W}.
Variable uid : option string.

(** Every run of [loadMenuItems] starts with the lookup, sends at most
    one more request, and neither writes, deletes nor uploads. *)
Lemma loaded_reads_only (st st' : State W) :
  loaded uid st st' ->
  exists e rest,
    since st st' = Call (lookup uid) e :: rest
    /\ (List.length rest <= 1)%nat
    /\ flat_map written (since st st') = []
    /\ flat_map deleted (since st st') = []
    /\ existsb is_upload (since st st') = false
    /\ existsb saved_without_error (since st st') = false
    /\ (toasts st' = toasts st \/ toasts st' = toasts st ++ [load_failure]).
Proof.
  intros [reason w Hs He Ht _|e w Hs He Ht _|v e reason w w' Hs Hs' He Ht _
         |v e data e' w w' Hs Hs' He Ht _];
    rewrite (since_app _ _ _ He); do 2 eexists;
    (split; [reflexivity|]); simpl; repeat split; auto;
    try (destruct e; reflexivity); try (destruct e, e'; reflexivity).
Qed.

(** X6: [loadMenuItems] never throws and always stops the loading state,
    so the screen is rendered and not the placeholder; it leaves the
    dialog, the edited item, the selected image and the form alone; it
    sends the lookup and at most one more request, none of which writes,
    deletes or uploads; and it raises at most one notification. *)
Theorem load_frame (st : State W) :
  fst (loadMenuItems uid st) = Ok tt
  /\ loading (ui (snd (loadMenuItems uid st))) = false
  /\ render (ui (snd (loadMenuItems uid st)))
     = Screen (menuItems (ui (snd (loadMenuItems uid st))))
              (isDialogOpen (ui st))
  /\ editingItem (ui (snd (loadMenuItems uid st))) = editingItem (ui st)
  /\ selectedImage (ui (snd (loadMenuItems uid st))) = selectedImage (ui st)
  /\ formData (ui (snd (loadMenuItems uid st))) = formData (ui st)
  /\ (exists e rest,
         since st (snd (loadMenuItems uid st)) = Call (lookup uid) e :: rest
         /\ (List.length rest <= 1)%nat)
  /\ flat_map written (since st (snd (loadMenuItems uid st))) = []
  /\ flat_map deleted (since st (snd (loadMenuItems uid st))) = []
  /\ existsb is_upload (since st (snd (loadMenuItems uid st))) = false
  /\ (toasts (snd (loadMenuItems uid st)) = toasts st
      \/ toasts (snd (loadMenuItems uid st)) = toasts st ++ [load_failure]).
Proof.
  destruct (loadMenuItems_runs uid st)
    as (Hok & Hl & Hld & Hdl & Hed & Hsel & Hfd).
  destruct (loaded_reads_only _ _ Hl)
    as (e & rest & Hs & Hlen & Hw & Hd & Hu & _ & Ht).
  repeat split; try assumption.
  - unfold render. now rewrite Hld, Hdl.
  - eauto.
Qed.

(** X7: when an awaited request of the load rejects, be it the lookup or
    the select, the load raises one failure notification, logs the
    reason once, keeps the list it had, and stops the loading state. *)
Theorem load_rejection_keeps_list (st : State W) (reason : string) :
  (exists w, send _ (lookup uid) (world st) = (Rejected reason, w))
  \/ (exists v e w w',
         send _ (lookup uid) (world st) = (Resolved (Some v) e, w)
         /\ send _ (select_items v) w = (Rejected reason, w')) ->
  toasts (snd (loadMenuItems uid st)) = toasts st ++ [load_failure]
  /\ console (snd (loadMenuItems uid st))
     = console st ++ [logged "Error loading menu items:" reason]
  /\ menuItems (ui (snd (loadMenuItems uid st))) = menuItems (ui st)
  /\ loading (ui (snd (loadMenuItems uid st))) = false.
Proof.
  intros [(w & Hs)|(v & e & w & w' & Hs & Hs')];
    unfold loadMenuItems, try_finally, try_catch, bind, await.
  - rewrite Hs. simpl. repeat split.
  - rewrite Hs. simpl. rewrite Hs'. simpl. repeat split.
Qed.

(** X9: [handleImageUpload] draws one identifier and sends one upload,
    to the bucket [menu_items] under the identifier and the extension
    of the file.  It returns the public address of that path when the
    upload meets no error; otherwise it logs the error once and throws
    that same error.  It touches neither the component state nor the
    notifications. *)
Theorem upload_outcome (f : File) (st : State W) :
  ui (snd (handleImageUpload f st)) = ui st
  /\ toasts (snd (handleImageUpload f st)) = toasts st
  /\ exists uuid outcome,
      since st (snd (handleImageUpload f st))
      = [Drew uuid; Call (upload_request uuid f) outcome]
      /\ match outcome with
         | None =>
             fst (handleImageUpload f st)
             = Ok (getPublicUrl "menu_items" (upload_path uuid f))
             /\ console (snd (handleImageUpload f st)) = console st
         | Some e =>
             fst (handleImageUpload f st) = Throw e
             /\ console (snd (handleImageUpload f st))
                = console st ++ [logged "Error uploading image:" e]
         end.
Proof.
  unfold handleImageUpload, try_catch, bind, fresh_uuid, await.
  destruct (randomUUID (world st)) as [uuid w1]. simpl.
  destruct (send unit _ w1) as [[d [e|]|reason] w2]; simpl;
    repeat split; exists uuid; eexists;
    (split; [apply since_app; events_eq|]); simpl; split; reflexivity.
Qed.

End Operations.

(** *** The extension of a file name *)

Lemma split_nonempty (sep : ascii) (l : list ascii) : split sep l <> [].
Proof.
  destruct l as [|c l]; simpl; [discriminate|].
  destruct (Ascii.eqb c sep); [discriminate|].
  destruct (split sep l); discriminate.
Qed.

Lemma split_without (sep : ascii) (l : list ascii) :
  ~ In sep l -> split sep l = [l].
Proof.
  induction l as [|c l IH]; intros Hn; simpl; [reflexivity|].
  destruct (Ascii.eqb_spec c sep) as [->|_].
  - exfalso. apply Hn. now left.
  - rewrite IH; [reflexivity|]. intros Hin. apply Hn. now right.
Qed.

Lemma split_app (sep : ascii) (stem ext : list ascii) :
  split sep (stem ++ sep :: ext) = split sep stem ++ split sep ext.
Proof.
  induction stem as [|c stem IH]; simpl.
  - now rewrite Ascii.eqb_refl.
  - destruct (Ascii.eqb c sep); rewrite IH; [reflexivity|].
    pose proof (split_nonempty sep stem) as Hne.
    destruct (split sep stem); [contradiction|reflexivity].
Qed.

Lemma pop_last {A} (l : list A) (x : A) : pop (l ++ [x]) = Some x.
Proof. unfold pop. now rewrite rev_app_distr. Qed.

Lemma list_ascii_of_append (a b : string) :
  list_ascii_of_string (a ++ b)
  = list_ascii_of_string a ++ list_ascii_of_string b.
Proof. induction a as [|c a IH]; simpl; [reflexivity|]. now rewrite IH. Qed.

(** X8: the extension [handleImageUpload] gives to the stored object is
    the text after the last point of the file name, and the whole name
    when it has no point. *)
Theorem fileExt_last_segment (stem ext content : string) :
  ~ In "."%char (list_ascii_of_string ext) ->
  fileExt {| file_name := stem ++ "." ++ ext; file_content := content |} = ext
  /\ fileExt {| file_name := ext; file_content := content |} = ext.
Proof.
  intros Hn. unfold fileExt. cbn [file_name]. split.
  - rewrite list_ascii_of_append. cbn [list_ascii_of_string String.append].
    rewrite split_app, (split_without _ _ Hn), pop_last.
    apply string_of_list_ascii_of_string.
  - rewrite (split_without _ _ Hn).
    change [list_ascii_of_string ext] with ([] ++ [list_ascii_of_string ext]).
    rewrite pop_last. apply string_of_list_ascii_of_string.
Qed.

Lemma fileExt_example :
  fileExt {| file_name := "bowl.final.png"; file_content := "..." |} = "png"
  /\ fileExt {| file_name := "png"; file_content := "..." |} = "png".
Proof.
  apply (fileExt_last_segment "bowl.final" "png" "...").
  simpl. intros H. repeat (destruct H as [H|H]; [discriminate H|]).
  exact H.
Defined.

(** *** Submitting *)

Section Submits.

Context {W : Type} `{Env W}.
Variable uid : option string.

(** What [handleSubmit] does once the lookup has resolved to a vendor. *)
Lemma handleSubmit_after_lookup
      (st : State W) (v : Vendor) (e : option string) (w : W) :
  send _ (lookup uid) (world st) = (Resolved (Some v) e, w) ->
  handleSubmit uid st
  = try_catch
      (imageUrl <- chooseImage (ui st) ;;
       error <- save (ui st) (menuItemData v (formData (ui st)) imageUrl) ;;
       match error with
       | Some e' => throw e'
       | None => saved uid (ui st)
       end)
      (fun error =>
         console_error "Error saving menu item:" error ;;
         toast (failure "Failed to save menu item"))
      (sent st (Call (lookup uid) e) w).
Proof.
  intros Hs.
  unfold handleSubmit, bind at 1, get_ui, try_catch, bind at 1, await.
  rewrite Hs. reflexivity.
Qed.

(** The events of an image choice hold no write, and an upload only
    when a file is selected. *)
Lemma image_chosen_events (u : UI) (ups : list event) (img : optional string) :
  image_chosen u ups img ->
  flat_map written ups = []
  /\ existsb saved_without_error ups = false
  /\ existsb is_lookup ups = false
  /\ (selectedImage u = None -> ups = []).
Proof.
  unfold image_chosen. destruct (selectedImage u).
  - intros (uuid & -> & _). repeat split. discriminate.
  - intros [-> _]. repeat split.
Qed.

Lemma written_save_request (editing : option MenuItem) (d : MenuItemData)
      (outcome : option string) :
  written (Call (save_request editing d) outcome) = [d].
Proof. destruct editing; reflexivity. Qed.

(** With the vendor resolved, a submit ends in one of three ways. *)
Lemma submitted_for_vendor
      (st : State W) (v : Vendor) (e : option string) (w : W) :
  send _ (lookup uid) (world st) = (Resolved (Some v) e, w) ->
  (exists f uuid reason,
      selectedImage (ui st) = Some f
      /\ since st (snd (handleSubmit uid st))
         = [Call (lookup uid) e; Drew uuid;
            Call (upload_request uuid f) (Some reason)])
  \/ (exists ups img outcome rest,
         image_chosen (ui st) ups img
         /\ since st (snd (handleSubmit uid st))
            = Call (lookup uid) e :: ups
                ++ Call (save_request (editingItem (ui st))
                           (menuItemData v (formData (ui st)) img)) outcome
                :: rest
         /\ flat_map written rest = []).
Proof.
  intros Hs. rewrite (handleSubmit_after_lookup st v e w Hs).
  cbv beta iota delta [try_catch bind].
  destruct (chooseImage_runs (ui st) (sent st (Call (lookup uid) e) w))
    as (r & st1 & -> & Hu1 & Ht1
        & [(img & ups & -> & He1 & Hc)
          |(f & uuid & reason & reason' & Hf & -> & He1)]).
  2: { left. exists f, uuid, reason'. split; [exact Hf|].
       apply since_app. simpl. rewrite He1. events_eq. }
  right.
  destruct (save_runs (ui st) (menuItemData v (formData (ui st)) img) st1)
    as (r & st2 & -> & Hu2 & Ht2 & [[-> He2]|(reason & [->| ->] & He2)]).
  - destruct (saved_runs uid (ui st) st2)
      as (st3 & Hu3 & Ht3 & He3 & Hw3 & ->).
    destruct (loadMenuItems_runs uid st3) as (_ & Hl & _).
    destruct (loaded_events uid _ _ Hl) as (new & He' & Hw & _).
    exists ups, img, None, new. split; [exact Hc|]. split; [|exact Hw].
    apply since_app. simpl. rewrite He', He3, He2, He1. events_eq.
  - exists ups, img, (Some reason), []. split; [exact Hc|].
    split; [|reflexivity].
    apply since_app. simpl. rewrite He2, He1. events_eq.
  - exists ups, img, (Some reason), []. split; [exact Hc|].
    split; [|reflexivity].
    apply since_app. simpl. rewrite He2, He1. events_eq.
Qed.

(** X11: when the lookup resolves to a vendor, a record a submit writes
    is the only one it writes; it carries the identifier of that vendor
    and the name, the category and the availability of the form; and it
    is sent as an update filtered on the identifier of the edited item,
    or as an insert of that one row when no item is edited. *)
Theorem submit_record_and_request
        (st : State W) (v : Vendor) (e : option string) (w : W)
        (d : MenuItemData) :
  send _ (lookup uid) (world st) = (Resolved (Some v) e, w) ->
  In d (flat_map written (since st (snd (handleSubmit uid st)))) ->
  flat_map written (since st (snd (handleSubmit uid st))) = [d]
  /\ d_vendor_id d = v_id v
  /\ d_name d = f_name (formData (ui st))
  /\ d_category d = f_category (formData (ui st))
  /\ d_is_available d = f_is_available (formData (ui st))
  /\ exists outcome,
      In (Call match editingItem (ui st) with
               | Some item => menu_items_update d [("id", Some (id item))]
               | None => menu_items_insert [d]
               end outcome)
         (since st (snd (handleSubmit uid st))).
Proof.
  intros Hs Hin.
  destruct (submitted_for_vendor st v e w Hs)
    as [(f & uuid & reason & _ & Hev)
       |(ups & img & outcome & rest & Hc & Hev & Hrest)];
    rewrite Hev in Hin |- *.
  - simpl in Hin. contradiction.
  - destruct (image_chosen_events _ _ _ Hc) as (Hups & _).
    assert (Hw : flat_map written
                   (Call (lookup uid) e :: ups
                      ++ Call (save_request (editingItem (ui st))
                                 (menuItemData v (formData (ui st)) img))
                              outcome :: rest)
                 = [menuItemData v (formData (ui st)) img]).
    { cbn [flat_map]. rewrite flat_map_app. cbn [flat_map].
      rewrite Hups, Hrest, written_save_request. reflexivity. }
    rewrite Hw in Hin |- *. destruct Hin as [<-|[]].
    repeat split. exists outcome.
    apply in_cons, in_or_app. right. left.
    unfold save_request. destruct (editingItem (ui st)); reflexivity.
Qed.

Lemma filter_none {A} (f : A -> bool) (l : list A) :
  existsb f l = false -> filter f l = [].
Proof.
  induction l as [|x l IH]; [reflexivity|]. cbn [existsb filter].
  intros Hx. apply orb_false_iff in Hx as [-> Hl]. now apply IH.
Qed.

Lemma loaded_since (st st' : State W) :
  loaded uid st st' -> events st' = events st ++ since st st'.
Proof.
  intros Hl. destruct (loaded_events uid _ _ Hl) as (new & He & _).
  now rewrite (since_app _ _ _ He).
Qed.

(** X10: when the insert or the update of a submit meets no error, the
    submit announces the success, closes the dialog, clears the edited
    item and the selected image, resets the form, and loads the list
    again right after the save; it throws nothing. *)
Theorem submit_success_closes_and_reloads (st : State W) :
  existsb saved_without_error (since st (snd (handleSubmit uid st))) = true ->
  fst (handleSubmit uid st) = Ok tt
  /\ isDialogOpen (ui (snd (handleSubmit uid st))) = false
  /\ editingItem (ui (snd (handleSubmit uid st))) = None
  /\ selectedImage (ui (snd (handleSubmit uid st))) = None
  /\ formData (ui (snd (handleSubmit uid st))) = emptyForm
  /\ loading (ui (snd (handleSubmit uid st))) = false
  /\ (exists rest,
         toasts (snd (handleSubmit uid st))
         = toasts st ++ save_success (editingItem (ui st)) :: rest
         /\ (rest = [] \/ rest = [load_failure]))
  /\ (exists before d e after,
         since st (snd (handleSubmit uid st))
         = before
             ++ Call (save_request (editingItem (ui st)) d) None
             :: Call (lookup uid) e :: after).
Proof.
  destruct (handleSubmit_runs uid st) as [Hok Hsub].
  destruct Hsub as [e He Hu Ht|e uuid f reason _ He Hu Ht
                   |v e ups img reason Hc He Hu Ht
                   |v e ups img st1 Hc He Hu1 Ht1 Hst].
  - rewrite (since_app _ _ _ He). simpl. destruct e; discriminate.
  - rewrite (since_app _ _ _ He). simpl. destruct e; discriminate.
  - rewrite (since_app _ _ _ He).
    destruct (image_chosen_events _ _ _ Hc) as (_ & Hups & _).
    cbn [existsb]. rewrite existsb_app, Hups.
    unfold save_request.
    destruct e, (editingItem (ui st)); discriminate.
  - intros _. rewrite Hst.
    destruct (loadMenuItems_runs uid st1)
      as (_ & Hl & Hld & Hdl & Hed & Hsel & Hfd).
    destruct (loaded_reads_only uid _ _ Hl)
      as (e' & rest & Hs & _ & _ & _ & _ & _ & Htl).
    pose proof (loaded_since _ _ Hl) as Hev.
    rewrite <- Hst, Hok.
    rewrite Hst, Hld, Hdl, Hed, Hsel, Hfd, Hu1. cbn [closed isDialogOpen
      editingItem selectedImage formData].
    repeat split.
    + destruct Htl as [Htl|Htl]; rewrite Htl, Ht1.
      * exists []. split; [reflexivity|now left].
      * exists [load_failure]. rewrite <- app_assoc. split; [reflexivity|].
        now right.
    + exists (Call (lookup uid) e :: ups),
        (menuItemData v (formData (ui st)) img), e', rest.
      apply since_app. rewrite Hev, He, Hs. events_eq.
Qed.

(** X12: every submit ends, without throwing, with exactly one
    notification of its own: the failure, and then the component state
    is what it was, or the success, which the reload may follow with its
    failure.  No submit writes more than one record or uploads more than
    one file. *)
Theorem submit_notifies_once (st : State W) :
  fst (handleSubmit uid st) = Ok tt
  /\ ((toasts (snd (handleSubmit uid st)) = toasts st ++ [save_failure]
       /\ ui (snd (handleSubmit uid st)) = ui st)
      \/ exists rest,
          toasts (snd (handleSubmit uid st))
          = toasts st ++ save_success (editingItem (ui st)) :: rest
          /\ (rest = [] \/ rest = [load_failure]))
  /\ (List.length (flat_map written (since st (snd (handleSubmit uid st))))
      <= 1)%nat
  /\ (List.length (filter is_upload (since st (snd (handleSubmit uid st))))
      <= 1)%nat.
Proof.
  destruct (handleSubmit_runs uid st) as [Hok Hsub].
  split; [exact Hok|].
  assert (Hups : forall ups img,
             image_chosen (ui st) ups img ->
             flat_map written ups = []
             /\ (List.length (filter is_upload ups) <= 1)%nat).
  { intros ups img Hc. unfold image_chosen in Hc.
    destruct (selectedImage (ui st)).
    - destruct Hc as (uuid & -> & _). simpl. split; [reflexivity|lia].
    - destruct Hc as [-> _]. simpl. split; [reflexivity|lia]. }
  destruct Hsub as [e He Hu Ht|e uuid f reason _ He Hu Ht
                   |v e ups img reason Hc He Hu Ht
                   |v e ups img st1 Hc He Hu1 Ht1 Hst].
  - rewrite (since_app _ _ _ He). simpl. repeat split; auto.
  - rewrite (since_app _ _ _ He). simpl. repeat split; auto.
  - rewrite (since_app _ _ _ He).
    destruct (Hups _ _ Hc) as [Hw Hu'].
    cbn [flat_map filter is_upload written].
    rewrite flat_map_app, filter_app, Hw, length_app.
    cbn [flat_map filter app]. rewrite written_save_request.
    replace (is_upload (Call (save_request (editingItem (ui st))
                                (menuItemData v (formData (ui st)) img))
                             (Some reason))) with false
      by (unfold save_request; now destruct (editingItem (ui st))).
    split; [left; auto|].
    split; [simpl; lia|rewrite app_nil_r; exact Hu'].
  - rewrite Hst.
    destruct (loadMenuItems_runs uid st1) as (_ & Hl & _).
    destruct (loaded_reads_only uid _ _ Hl)
      as (e' & rest & Hs & _ & Hlw & _ & Hlu & _ & Htl).
    pose proof (loaded_since _ _ Hl) as Hev.
    destruct (Hups _ _ Hc) as [Hw Hu'].
    assert (Hsince :
              since st (snd (loadMenuItems uid st1))
              = (Call (lookup uid) e :: ups
                   ++ [Call (save_request (editingItem (ui st))
                              (menuItemData v (formData (ui st)) img)) None])
                  ++ since st1 (snd (loadMenuItems uid st1))).
    { apply since_app. rewrite Hev, He. events_eq. }
    rewrite Hsince, flat_map_app, filter_app, !length_app, Hlw.
    cbn [flat_map filter is_upload written].
    rewrite flat_map_app, filter_app, Hw, length_app.
    cbn [flat_map filter app]. rewrite written_save_request.
    replace (is_upload (Call (save_request (editingItem (ui st))
                                (menuItemData v (formData (ui st)) img))
                             None)) with false
      by (unfold save_request; now destruct (editingItem (ui st))).
    assert (Hnone : filter is_upload (since st1 (snd (loadMenuItems uid st1)))
                    = []).
    { now apply filter_none. }
    rewrite Hnone, !app_nil_r.
    split; [|split; [simpl; lia|simpl; lia]].
    right. destruct Htl as [Htl|Htl]; rewrite Htl, Ht1.
    + exists []. split; [reflexivity|now left].
    + exists [load_failure]. rewrite <- app_assoc.
      split; [reflexivity|now right].
Qed.

(** X13: when the lookup of a submit gives no vendor, or rejects, the
    lookup is the only thing the submit does to its surroundings:
    nothing is drawn, uploaded or written, even with a file selected.
    The component state is kept, the failure is notified once and its
    reason, [Vendor not found] for a missing vendor, is logged once. *)
Theorem submit_without_vendor (st : State W) (reason : string) :
  (exists e w, send _ (lookup uid) (world st) = (Resolved None e, w)
               /\ reason = "Vendor not found")
  \/ (exists w, send _ (lookup uid) (world st) = (Rejected reason, w)) ->
  fst (handleSubmit uid st) = Ok tt
  /\ (exists outcome,
         since st (snd (handleSubmit uid st)) = [Call (lookup uid) outcome])
  /\ ui (snd (handleSubmit uid st)) = ui st
  /\ toasts (snd (handleSubmit uid st)) = toasts st ++ [save_failure]
  /\ console (snd (handleSubmit uid st))
     = console st ++ [logged "Error saving menu item:" reason].
Proof.
  intros Hsend.
  assert (Hrun : exists outcome w,
             handleSubmit uid st
             = (Ok tt,
                Build_State (ui st) (toasts st ++ [save_failure])
                  (console st ++ [logged "Error saving menu item:" reason])
                  (events st ++ [Call (lookup uid) outcome]) w)).
  { destruct Hsend as [(e & w & Hs & ->)|(w & Hs)];
      unfold handleSubmit, bind at 1, get_ui, try_catch, bind at 1, await;
      rewrite Hs; do 2 eexists; reflexivity. }
  destruct Hrun as (outcome & w & ->). cbn [fst snd ui toasts console].
  repeat split. exists outcome. apply since_app. reflexivity.
Qed.

(** X14: when the upload of the selected file fails, by an error or by a
    rejection, the submit stops there: no record is written, the
    component state is kept with the file still selected, the failure is
    notified once, and the error is logged twice, by the upload and by
    the submit. *)
Theorem submit_upload_failure
        (st : State W) (f : File) (v : Vendor) (e : option string)
        (w w1 : W) (uuid err : string) :
  selectedImage (ui st) = Some f ->
  send _ (lookup uid) (world st) = (Resolved (Some v) e, w) ->
  randomUUID w = (uuid, w1) ->
  (exists d w2,
      send _ (upload_request uuid f) w1 = (Resolved d (Some err), w2))
  \/ (exists w2, send _ (upload_request uuid f) w1 = (Rejected err, w2)) ->
  fst (handleSubmit uid st) = Ok tt
  /\ since st (snd (handleSubmit uid st))
     = [Call (lookup uid) e; Drew uuid;
        Call (upload_request uuid f) (Some err)]
  /\ flat_map written (since st (snd (handleSubmit uid st))) = []
  /\ ui (snd (handleSubmit uid st)) = ui st
  /\ toasts (snd (handleSubmit uid st)) = toasts st ++ [save_failure]
  /\ console (snd (handleSubmit uid st))
     = console st ++ [logged "Error uploading image:" err;
                      logged "Error saving menu item:" err].
Proof.
  intros Hf Hs Hu Hup.
  rewrite (handleSubmit_after_lookup st v e w Hs).
  assert (Hrun :
            exists w2,
              handleImageUpload f (sent st (Call (lookup uid) e) w)
              = (Throw err,
                 Build_State (ui st) (toasts st)
                   (console st ++ [logged "Error uploading image:" err])
                   (events st ++ [Call (lookup uid) e; Drew uuid;
                                  Call (upload_request uuid f) (Some err)])
                   w2)).
  { unfold handleImageUpload, try_catch, bind, fresh_uuid, await.
    cbn [world sent]. rewrite Hu. cbn [world sent].
    destruct Hup as [(d & w2 & Hup)|(w2 & Hup)]; rewrite Hup;
      exists w2; cbn; repeat rewrite <- app_assoc; reflexivity. }
  destruct Hrun as (w2 & Hrun).
  match goal with
  | |- fst ?t = _ /\ _ => set (run := t)
  end.
  assert (Hfin :
            run
            = (Ok tt,
               Build_State (ui st) (toasts st ++ [save_failure])
                 (console st ++ [logged "Error uploading image:" err;
                                 logged "Error saving menu item:" err])
                 (events st ++ [Call (lookup uid) e; Drew uuid;
                                Call (upload_request uuid f) (Some err)])
                 w2)).
  { unfold run, try_catch, bind at 1, chooseImage. rewrite Hf.
    unfold bind at 1. rewrite Hrun. cbn. now rewrite <- app_assoc. }
  rewrite Hfin. cbn [fst snd ui toasts console].
  rewrite (since_app st _ [Call (lookup uid) e; Drew uuid;
                           Call (upload_request uuid f) (Some err)])
    by reflexivity.
  repeat split.
Qed.

(** *** Opening the form *)

Lemma through_form_spec (x : option string) :
  through_form x <> Some ""
  /\ (x <> Some "" -> through_form x = x)
  /\ (x = Some "" -> through_form x = None).
Proof.
  unfold through_form, JS.or_null, JS.or_string.
  destruct x as [s|]; [|simpl; intuition congruence].
  destruct (String.eqb_spec s "") as [->|Hs]; simpl.
  - intuition congruence.
  - destruct (String.eqb_spec s ""); [contradiction|].
    intuition congruence.
Qed.

(** [handleEdit] changes the edited item, the form and the dialog, and
    nothing else. *)
Lemma handleEdit_frame (item : MenuItem) (st : State W) :
  fst (handleEdit item st) = Ok tt
  /\ events (snd (handleEdit item st)) = events st
  /\ toasts (snd (handleEdit item st)) = toasts st
  /\ world (snd (handleEdit item st)) = world st
  /\ selectedImage (ui (snd (handleEdit item st))) = selectedImage (ui st)
  /\ menuItems (ui (snd (handleEdit item st))) = menuItems (ui st)
  /\ editingItem (ui (snd (handleEdit item st))) = Some item
  /\ isDialogOpen (ui (snd (handleEdit item st))) = true.
Proof. repeat split. Qed.

(** X15: when the form is opened on an item and submitted as it is, a
    record the submit writes carries the name, the category and the
    availability of the item; its localized name and its descriptions
    are those of the item, except that an empty text comes back as
    null; and it is sent as an update filtered on the identifier of the
    item. *)
Theorem edit_then_submit_keeps_fields
        (st : State W) (item : MenuItem) (d : MenuItemData) :
  In d (flat_map written
          (since (snd (handleEdit item st))
                 (snd (handleSubmit uid (snd (handleEdit item st)))))) ->
  d_name d = name item
  /\ d_category d = category item
  /\ d_is_available d = is_available item
  /\ d_name_ko d = through_form (name_ko item)
  /\ d_description d = through_form (description item)
  /\ d_description_ko d = through_form (description_ko item)
  /\ (name_ko item <> Some "" -> d_name_ko d = name_ko item)
  /\ (description item <> Some "" -> d_description d = description item)
  /\ (description_ko item <> Some ""
      -> d_description_ko d = description_ko item)
  /\ exists outcome,
      In (Call (menu_items_update d [("id", Some (id item))]) outcome)
         (since (snd (handleEdit item st))
                (snd (handleSubmit uid (snd (handleEdit item st))))).
Proof.
  intros Hin.
  destruct (handleSubmit_runs uid (snd (handleEdit item st))) as [_ Hsub].
  destruct (submitted_writes uid _ _ d Hsub Hin)
    as (v & e & ups & img & outcome & rest & _ & Hd & Hs).
  rewrite Hs. subst d. cbn.
  repeat split; try (intros Hx; now apply through_form_spec).
  exists outcome. right. apply in_or_app. right. now left.
Qed.

(** X16: [handleEdit] does not clear the selected image.  When a file is
    still selected as the form is opened on an item, a record the
    submit writes carries the public address of that file, uploaded
    during the submit, and not the image the item had. *)
Theorem edit_keeps_selected_file
        (st : State W) (item : MenuItem) (f : File) (d : MenuItemData) :
  selectedImage (ui st) = Some f ->
  In d (flat_map written
          (since (snd (handleEdit item st))
                 (snd (handleSubmit uid (snd (handleEdit item st)))))) ->
  selectedImage (ui (snd (handleEdit item st))) = Some f
  /\ exists uuid,
      In (Call (upload_request uuid f) None)
         (since (snd (handleEdit item st))
                (snd (handleSubmit uid (snd (handleEdit item st)))))
      /\ d_image d
         = Defined (getPublicUrl "menu_items" (upload_path uuid f)).
Proof.
  intros Hf Hin. split; [exact Hf|].
  destruct (handleSubmit_runs uid (snd (handleEdit item st))) as [_ Hsub].
  destruct (submitted_writes uid _ _ d Hsub Hin)
    as (v & e & ups & img & outcome & rest & Hc & Hd & Hs).
  unfold image_chosen in Hc.
  change (selectedImage (ui (snd (handleEdit item st))))
    with (selectedImage (ui st)) in Hc.
  rewrite Hf in Hc. destruct Hc as (uuid & -> & ->).
  exists uuid. rewrite Hs, Hd. split; [|reflexivity].
  right. right. now left.
Qed.

(** X17: after the Add Item button, whatever the screen held before, a
    record a submit writes is an insert of the empty form: no edited
    item, no file, an empty name and a price that is not a number.  The
    submit checks nothing of the form. *)
Theorem add_item_then_submit (st : State W) (d : MenuItemData) :
  In d (flat_map written
          (since (snd (addItemClick st))
                 (snd (handleSubmit uid (snd (addItemClick st)))))) ->
  (exists v, d = menuItemData v emptyForm Undefined)
  /\ d_name d = ""
  /\ d_category d = ""
  /\ JS.isNaN (d_price d) = true
  /\ d_image d = Undefined
  /\ (exists outcome,
         In (Call (menu_items_insert [d]) outcome)
            (since (snd (addItemClick st))
                   (snd (handleSubmit uid (snd (addItemClick st))))))
  /\ existsb is_upload
       (since (snd (addItemClick st))
              (snd (handleSubmit uid (snd (addItemClick st))))) = false.
Proof.
  intros Hin.
  destruct (handleSubmit_runs uid (snd (addItemClick st))) as [_ Hsub].
  destruct (submitted_writes uid _ _ d Hsub Hin)
    as (v & e & ups & img & outcome & rest & Hc & Hd & Hs).
  unfold image_chosen in Hc. cbn in Hc. destruct Hc as [-> ->].
  cbn in Hd. subst d.
  split; [now exists v|]. repeat split.
  - exists outcome. rewrite Hs. right. now left.
  - destruct Hsub as [e0 He _ _|e0 uuid f reason Hf He _ _
                     |v0 e0 ups img reason Hc He _ _
                     |v0 e0 ups img st1 Hc He _ _ Hst].
    + rewrite (since_app _ _ _ He). reflexivity.
    + discriminate Hf.
    + rewrite (since_app _ _ _ He).
      destruct (image_chosen_events _ _ _ Hc) as (_ & _ & _ & Hn).
      rewrite (Hn eq_refl). reflexivity.
    + rewrite Hst.
      destruct (loadMenuItems_runs uid st1) as (_ & Hl & _).
      destruct (loaded_reads_only uid _ _ Hl)
        as (e' & rest' & _ & _ & _ & _ & Hlu & _).
      pose proof (loaded_since _ _ Hl) as Hev.
      destruct (image_chosen_events _ _ _ Hc) as (_ & _ & _ & Hn).
      rewrite (Hn eq_refl) in He.
      rewrite (since_app _ _ (Call (lookup uid) e0
                 :: Call (save_request None
                            (menuItemData v0 emptyForm img)) None
                 :: since st1 (snd (loadMenuItems uid st1)))).
      * cbn [existsb is_upload save_request]. exact Hlu.
      * rewrite Hev, He. events_eq.
Qed.

End Submits.

(** *** Deleting *)

Section Deletes.

Context {W : Type} `{Env W}.
Variable uid : option string.

(** The three ways [handleDelete] goes on after its request. *)
Lemma handleDelete_runs (itemId : string) (st : State W) :
  (exists d w,
      send _ (delete_request itemId) (world st) = (Resolved d None, w)
      /\ handleDelete uid itemId st
         = (Ok tt, snd (loadMenuItems uid (after_delete st itemId w))))
  \/ (exists err w,
         ((exists d, send _ (delete_request itemId) (world st)
                     = (Resolved d (Some err), w))
          \/ send _ (delete_request itemId) (world st) = (Rejected err, w))
         /\ handleDelete uid itemId st
            = (Ok tt,
               Build_State (ui st) (toasts st ++ [delete_failure])
                 (console st ++ [logged "Error deleting menu item:" err])
                 (events st ++ [Call (delete_request itemId) (Some err)])
                 w)).
Proof.
  unfold handleDelete, try_catch, bind, await.
  destruct (send unit (delete_request itemId) (world st))
    as [[d [err|]|err] w] eqn:Hs.
  - right. exists err, w. split; [left; now exists d|reflexivity].
  - left. exists d, w. split; [reflexivity|].
    change (not_awaited (loadMenuItems uid)
              (snd (toast (success "Menu item deleted successfully")
                          (sent st (Call (delete_request itemId) None) w))))
      with (not_awaited (loadMenuItems uid) (after_delete st itemId w)).
    cbn [toast snd fst].
    change (Build_State
              (ui (sent st (Call (delete_request itemId) None) w))
              (toasts (sent st (Call (delete_request itemId) None) w)
                 ++ [success "Menu item deleted successfully"])
              (console (sent st (Call (delete_request itemId) None) w))
              (events (sent st (Call (delete_request itemId) None) w))
              (world (sent st (Call (delete_request itemId) None) w)))
      with (after_delete st itemId w).
    unfold not_awaited, try_catch.
    destruct (loadMenuItems_runs uid (after_delete st itemId w)) as [Hok _].
    destruct (loadMenuItems uid (after_delete st itemId w)) as [r st'].
    simpl in Hok. now subst r.
  - right. exists err, w. split; [now right|reflexivity].
Qed.

(** X18: [handleDelete] never throws.  Its first request is the delete
    filtered on the identifier it was given, and it is its only delete;
    it writes no record and uploads nothing, and it leaves the dialog,
    the edited item, the selected image and the form alone. *)
Theorem delete_frame (itemId : string) (st : State W) :
  fst (handleDelete uid itemId st) = Ok tt
  /\ (exists outcome rest,
         since st (snd (handleDelete uid itemId st))
         = Call (delete_request itemId) outcome :: rest)
  /\ flat_map deleted (since st (snd (handleDelete uid itemId st)))
     = [[("id", Some itemId)]]
  /\ flat_map written (since st (snd (handleDelete uid itemId st))) = []
  /\ existsb is_upload (since st (snd (handleDelete uid itemId st))) = false
  /\ isDialogOpen (ui (snd (handleDelete uid itemId st)))
     = isDialogOpen (ui st)
  /\ editingItem (ui (snd (handleDelete uid itemId st))) = editingItem (ui st)
  /\ selectedImage (ui (snd (handleDelete uid itemId st)))
     = selectedImage (ui st)
  /\ formData (ui (snd (handleDelete uid itemId st))) = formData (ui st).
Proof.
  destruct (handleDelete_runs itemId st)
    as [(d & w & _ & ->)|(err & w & _ & ->)]; cbn [fst snd].
  - destruct (loadMenuItems_runs uid (after_delete st itemId w))
      as (_ & Hl & _ & Hdl & Hed & Hsel & Hfd).
    destruct (loaded_reads_only uid _ _ Hl)
      as (e & rest & Hs & _ & Hw & Hd & Hu & _).
    pose proof (loaded_since uid _ _ Hl) as Hev.
    assert (Hsince :
              since st (snd (loadMenuItems uid (after_delete st itemId w)))
              = Call (delete_request itemId) None
                  :: since (after_delete st itemId w)
                       (snd (loadMenuItems uid (after_delete st itemId w)))).
    { apply since_app. rewrite Hev. cbn [after_delete events].
      now rewrite <- app_assoc. }
    rewrite Hsince. cbn [flat_map existsb deleted written is_upload app].
    rewrite Hw, Hd, Hu, Hdl, Hed, Hsel, Hfd.
    repeat split. eauto.
  - rewrite (since_app st _ [Call (delete_request itemId) (Some err)])
      by reflexivity.
    repeat split. eauto.
Qed.

(** X19: when the delete meets an error or rejects, [handleDelete]
    notifies the failure once, logs the reason once, and leaves the
    component state, the list included, as it was: the list is not
    loaded again. *)
Theorem delete_failure_keeps_list
        (itemId err : string) (st : State W) (w : W) :
  (exists d, send _ (delete_request itemId) (world st)
             = (Resolved d (Some err), w))
  \/ send _ (delete_request itemId) (world st) = (Rejected err, w) ->
  ui (snd (handleDelete uid itemId st)) = ui st
  /\ toasts (snd (handleDelete uid itemId st)) = toasts st ++ [delete_failure]
  /\ console (snd (handleDelete uid itemId st))
     = console st ++ [logged "Error deleting menu item:" err]
  /\ since st (snd (handleDelete uid itemId st))
     = [Call (delete_request itemId) (Some err)].
Proof.
  intros Hsend.
  destruct (handleDelete_runs itemId st)
    as [(d & w' & Hs & _)|(err' & w' & Hs & ->)].
  - exfalso. destruct Hsend as [(d' & Hs')| Hs']; congruence.
  - assert (err' = err).
    { destruct Hsend as [(d' & Hs')| Hs'], Hs as [(d'' & Hs)|Hs]; congruence. }
    subst err'. cbn [snd ui toasts console].
    repeat split. apply since_app. reflexivity.
Qed.

(** X20: when the delete meets no error, [handleDelete] announces the
    success and then loads the list again: the lookup follows the
    delete, the loading state is stopped, and the only notification
    that can follow the success is the failure of the reload. *)
Theorem delete_success_reloads
        (itemId : string) (st : State W) (d : option unit) (w : W) :
  send _ (delete_request itemId) (world st) = (Resolved d None, w) ->
  (exists e rest,
      since st (snd (handleDelete uid itemId st))
      = Call (delete_request itemId) None :: Call (lookup uid) e :: rest
      /\ (List.length rest <= 1)%nat)
  /\ (exists rest,
         toasts (snd (handleDelete uid itemId st))
         = toasts st ++ delete_success :: rest
         /\ (rest = [] \/ rest = [load_failure]))
  /\ loading (ui (snd (handleDelete uid itemId st))) = false.
Proof.
  intros Hsend.
  destruct (handleDelete_runs itemId st)
    as [(d' & w' & Hs & ->)|(err & w' & Hs & _)].
  2: { exfalso. destruct Hs as [(d' & Hs)|Hs]; congruence. }
  assert (w' = w) by congruence. subst w'. cbn [snd].
  destruct (loadMenuItems_runs uid (after_delete st itemId w))
    as (_ & Hl & Hld & _).
  destruct (loaded_reads_only uid _ _ Hl)
    as (e & rest & Hsi & Hlen & _ & _ & _ & _ & Ht).
  pose proof (loaded_since uid _ _ Hl) as Hev.
  repeat split; try assumption.
  - exists e, rest. split; [|exact Hlen].
    apply since_app. rewrite Hev, Hsi. cbn [after_delete events].
    now rewrite <- app_assoc.
  - destruct Ht as [Ht|Ht]; rewrite Ht; cbn [after_delete toasts].
    + exists []. split; [reflexivity|now left].
    + exists [load_failure]. rewrite <- app_assoc.
      split; [reflexivity|now right].
Qed.

End Deletes.

End AdminBehaviour.

(** ** The operations in front of the remote store *)

Module StoreBehaviour.

Import Admin Backend Trace Observed AdminFacts StoreFacts AdminBehaviour.
Import Scenario.
Local Open Scope list_scope.

(** The state a load leaves in front of a store in reach, for a user
    with one vendor. *)
Lemma load_from_store (u : string) (v : Vendor) (st : State Database) :
  online (world st) = true ->
  vendors_of u (world st) = [v] ->
  menuItems (ui (snd (loadMenuItems (Some u) st)))
  = sort_by String.leb category (of_vendor v (menu_items (world st)))
  /\ toasts (snd (loadMenuItems (Some u) st)) = toasts st
  /\ isDialogOpen (ui (snd (loadMenuItems (Some u) st)))
     = isDialogOpen (ui st)
  /\ world (snd (loadMenuItems (Some u) st)) = world st.
Proof.
  intros Ho Hv.
  unfold loadMenuItems, try_finally, try_catch, bind, await.
  change (@send Database db_env) with (@serve).
  rewrite (serve_lookup u _ Ho), Hv.
  cbn [fst sent world]. rewrite (serve_select v _ Ho).
  repeat split.
Qed.

Lemma in_sorted (v : Vendor) (rows : list MenuItem) (r : MenuItem) :
  In r (sort_by String.leb category (of_vendor v rows))
  <-> In r rows /\ vendor_id r = v_id v.
Proof.
  destruct (sort_by_sorted (of_vendor v rows)) as [_ Hp].
  unfold of_vendor in *. split.
  - intros Hin. apply (Permutation_in _ Hp), filter_In in Hin as [Hin Hr].
    split; [exact Hin|now apply String.eqb_eq].
  - intros [Hin Hr].
    apply (Permutation_in _ (Permutation_sym Hp)), filter_In.
    split; [exact Hin|now apply String.eqb_eq].
Qed.

Lemma serve_delete (itemId : string) (db : Database) :
  online db = true -> writable db = true ->
  serve (menu_items_delete [("id", Some itemId)]) db
  = (Resolved None None,
     with_tables db
       (filter (fun r => negb (String.eqb (id r) itemId)) (menu_items db))
       (objects db) (row_ids db)).
Proof.
  intros Ho Hw. unfold serve. rewrite Ho, Hw. cbn.
  do 2 f_equal. apply filter_same. intros r.
  unfold satisfies. cbn. now rewrite andb_true_r.
Qed.

(** X21: in front of a store in reach that accepts writes, for a user
    with one vendor, a delete removes from the table every row with the
    identifier given, whoever owns it, and the list shown afterwards
    holds exactly the rows of the vendor that have another identifier;
    the success is the only notification. *)
Theorem delete_then_list
        (u itemId : string) (v : Vendor) (st : State Database) :
  online (world st) = true ->
  writable (world st) = true ->
  vendors_of u (world st) = [v] ->
  (forall r, In r (menuItems (ui (snd (handleDelete (Some u) itemId st))))
             <-> In r (menu_items (world st))
                 /\ vendor_id r = v_id v /\ id r <> itemId)
  /\ (forall r, In r (menu_items (world (snd (handleDelete (Some u) itemId st))))
                <-> In r (menu_items (world st)) /\ id r <> itemId)
  /\ toasts (snd (handleDelete (Some u) itemId st))
     = toasts st ++ [delete_success].
Proof.
  intros Ho Hw Hv.
  destruct (handleDelete_runs (Some u) itemId st)
    as [(d & w & Hs & ->)|(err & w & Hs & _)].
  2: { exfalso. change (@send Database db_env) with (@serve) in Hs.
       rewrite (serve_delete _ _ Ho Hw) in Hs.
       destruct Hs as [(d & Hs)|Hs]; discriminate. }
  change (@send Database db_env) with (@serve) in Hs.
  rewrite (serve_delete _ _ Ho Hw) in Hs.
  injection Hs as <- <-. cbn [snd].
  set (db' := with_tables (world st) _ _ _).
  set (st1 := after_delete st itemId db').
  destruct (load_from_store u v st1 Ho Hv) as (Hm & Ht & _ & Hworld).
  change (world st1) with db' in Hm, Hworld.
  change (toasts st1) with (toasts st ++ [delete_success]) in Ht.
  assert (Hrows : forall r,
             In r (menu_items db')
             <-> In r (menu_items (world st)) /\ id r <> itemId).
  { intros r. unfold db'. cbn [menu_items with_tables].
    rewrite filter_In, negb_true_iff, String.eqb_neq. reflexivity. }
  rewrite Hm, Ht, Hworld. repeat split.
  - now apply in_sorted, proj1, Hrows in H.
  - now apply in_sorted in H.
  - now apply in_sorted, proj1, Hrows in H.
  - intros (Hin & Hr & Hid). apply in_sorted. split; [|exact Hr].
    now apply Hrows.
  - now apply Hrows in H.
  - now apply Hrows in H.
  - intros [Hin Hid]. now apply Hrows.
Qed.

Lemma serve_insert (d : MenuItemData) (db : Database) :
  online db = true -> writable db = true ->
  serve (menu_items_insert [d]) db
  = (Resolved None None,
     with_tables db (menu_items db ++ [stored (hd "" (row_ids db)) d])
                 (objects db) (tl (row_ids db))).
Proof. intros Ho Hw. unfold serve. rewrite Ho, Hw. reflexivity. Qed.

Lemma serve_update (d : MenuItemData) (itemId : string) (db : Database) :
  online db = true -> writable db = true ->
  serve (menu_items_update d [("id", Some itemId)]) db
  = (Resolved None None,
     with_tables db
       (map (fun r => if String.eqb (id r) itemId then updated d r else r)
            (menu_items db))
       (objects db) (row_ids db)).
Proof.
  intros Ho Hw. unfold serve. rewrite Ho, Hw. cbn.
  do 2 f_equal. apply map_ext. intros r.
  unfold satisfies. cbn. now rewrite andb_true_r.
Qed.

(** A submit whose image step succeeds and whose write the store
    accepts: the list shown afterwards is the one read from the store
    the write left. *)
Lemma submit_to_store (u : string) (v : Vendor) (st : State Database)
      (img : optional string) (stI : State Database) (db' : Database) :
  online (world st) = true ->
  vendors_of u (world st) = [v] ->
  chooseImage (ui st) (sent st (Call (lookup (Some u)) None) (world st))
  = (Ok img, stI) ->
  serve (save_request (editingItem (ui st))
           (menuItemData v (formData (ui st)) img))
        (world stI)
  = (Resolved None None, db') ->
  online db' = true ->
  vendors_of u db' = [v] ->
  menuItems (ui (snd (handleSubmit (Some u) st)))
  = sort_by String.leb category (of_vendor v (menu_items db'))
  /\ world (snd (handleSubmit (Some u) st)) = db'
  /\ toasts (snd (handleSubmit (Some u) st))
     = toasts st ++ [save_success (editingItem (ui st))]
  /\ isDialogOpen (ui (snd (handleSubmit (Some u) st))) = false
  /\ selectedImage (ui (snd (handleSubmit (Some u) st))) = None.
Proof.
  intros Ho Hv Hc Hs Ho' Hv'.
  assert (Hlookup : send Vendor (lookup (Some u)) (world st)
                    = (Resolved (Some v) None, world st)).
  { simpl. rewrite (serve_lookup u _ Ho), Hv. reflexivity. }
  assert (Hrun : exists st1,
             ui st1 = closed (ui st)
             /\ toasts st1 = toasts st ++ [save_success (editingItem (ui st))]
             /\ world st1 = db'
             /\ handleSubmit (Some u) st
                = (Ok tt, snd (loadMenuItems (Some u) st1))).
  { rewrite (handleSubmit_after_lookup (Some u) st v None _ Hlookup).
    unfold try_catch, bind at 1. rewrite Hc.
    destruct (chooseImage_runs (ui st)
                (sent st (Call (lookup (Some u)) None) (world st)))
      as (r & stI' & HcI & HuI & HtI & _).
    rewrite Hc in HcI. injection HcI as <- <-.
    cbn [ui toasts sent] in HuI, HtI.
    set (d := menuItemData v (formData (ui st)) img) in *.
    assert (Hsave : save (ui st) d stI
                    = (Ok None,
                       sent stI
                         (Call (save_request (editingItem (ui st)) d) None)
                         db')).
    { unfold save, save_request in *.
      destruct (editingItem (ui st)) as [item|];
        unfold bind, await, ret; simpl send; rewrite Hs; reflexivity. }
    unfold bind. rewrite Hsave.
    destruct (saved_runs (Some u) (ui st)
                (sent stI (Call (save_request (editingItem (ui st)) d) None)
                      db'))
      as (st1 & Hu1 & Ht1 & _ & Hw1 & ->).
    cbn [ui toasts sent] in Hu1, Ht1. rewrite HuI in Hu1. rewrite HtI in Ht1.
    exists st1. repeat split; assumption. }
  destruct Hrun as (st1 & Hu1 & Ht1 & Hw1 & ->).
  assert (Ho1 : online (world st1) = true) by now rewrite Hw1.
  assert (Hv1 : vendors_of u (world st1) = [v]) by now rewrite Hw1.
  destruct (load_from_store u v st1 Ho1 Hv1) as (Hm & Ht & Hd & Hw).
  destruct (loadMenuItems_runs (Some u) st1) as (_ & _ & _ & _ & _ & Hsi & _).
  cbn [snd]. rewrite Hm, Ht, Hd, Hw, Hsi, Hw1, Ht1, Hu1. repeat split.
Qed.

(** Without a selected file the image step asks nothing. *)
Lemma chooseImage_without_file (u : UI) (st : State Database) :
  selectedImage u = None ->
  chooseImage u st = (Ok (previous_image (editingItem u)), st).
Proof. intros Hsel. unfold chooseImage. now rewrite Hsel. Qed.

Lemma serve_upload (path : string) (f : File) (db : Database) :
  online db = true -> writable db = true ->
  serve (storage_upload "menu_items" path f) db
  = (Resolved (Some tt) None,
     with_tables db (menu_items db)
                 (objects db ++ [("menu_items", path, f)]) (row_ids db)).
Proof. intros Ho Hw. unfold serve. rewrite Ho, Hw. reflexivity. Qed.

(** With a selected file, in front of a store that accepts writes, the
    image step stores the file and gives its public address. *)
Lemma chooseImage_with_file (u : UI) (f : File) (st : State Database) :
  online (world st) = true -> writable (world st) = true ->
  selectedImage u = Some f ->
  exists stI,
    chooseImage u st
    = (Ok (Defined (publicUrl "menu_items"
                      (upload_path (hd "" (uuids (world st))) f))), stI)
    /\ world stI
       = with_tables (snd (draw (world st))) (menu_items (world st))
           (objects (world st)
              ++ [("menu_items", upload_path (hd "" (uuids (world st))) f, f)])
           (row_ids (world st)).
Proof.
  intros Ho Hw Hsel. unfold chooseImage. rewrite Hsel.
  unfold handleImageUpload, try_catch, bind, fresh_uuid, await.
  simpl randomUUID. unfold draw at 1. cbn [world sent].
  simpl send.
  rewrite (serve_upload _ f (snd (draw (world st))) Ho Hw).
  cbn [snd fst]. eexists. split; reflexivity.
Qed.

(** X22: in front of a store in reach that accepts writes, for a user
    with one vendor, the submit of a new item without a file appends one
    row to the table, the record of the form under the next identifier
    and without an image; the list shown afterwards is read from the new
    table and holds that row, and the dialog is closed. *)
Theorem create_then_list (u : string) (v : Vendor) (st : State Database) :
  online (world st) = true ->
  writable (world st) = true ->
  vendors_of u (world st) = [v] ->
  editingItem (ui st) = None ->
  selectedImage (ui st) = None ->
  let row := stored (hd "" (row_ids (world st)))
                    (menuItemData v (formData (ui st)) Undefined) in
  menu_items (world (snd (handleSubmit (Some u) st)))
  = menu_items (world st) ++ [row]
  /\ image row = None
  /\ (forall r, In r (menuItems (ui (snd (handleSubmit (Some u) st))))
                <-> (In r (menu_items (world st)) \/ r = row)
                    /\ vendor_id r = v_id v)
  /\ In row (menuItems (ui (snd (handleSubmit (Some u) st))))
  /\ isDialogOpen (ui (snd (handleSubmit (Some u) st))) = false
  /\ toasts (snd (handleSubmit (Some u) st))
     = toasts st ++ [save_success None].
Proof.
  intros Ho Hw Hv He Hsel row.
  destruct (submit_to_store u v st _ _
              (with_tables (world st) (menu_items (world st) ++ [row])
                 (objects (world st)) (tl (row_ids (world st))))
              Ho Hv (chooseImage_without_file _ _ Hsel))
    as (Hm & Hwd & Ht & Hd & _).
  { rewrite He. apply (serve_insert _ _ Ho Hw). }
  { exact Ho. }
  { exact Hv. }
  rewrite Hm, Hwd, Ht, Hd, He. cbn [menu_items with_tables].
  assert (Hin : forall r,
             In r (sort_by String.leb category
                     (of_vendor v (menu_items (world st) ++ [row])))
             <-> (In r (menu_items (world st)) \/ r = row)
                 /\ vendor_id r = v_id v).
  { intros r. rewrite in_sorted, in_app_iff. cbn [In].
    intuition congruence. }
  repeat split; try apply Hin; try apply (proj1 (Hin _)); auto.
  apply Hin. split; [now right|reflexivity].
Qed.

(** X23: in front of the same kind of store, the submit of an edited
    item without a new file rewrites every row that has the identifier
    of the edited item and no other row: such a row takes the fields of
    the form and the image the edited item had when it was opened, and
    keeps its identifier. *)
Theorem update_then_list (u : string) (v : Vendor) (item : MenuItem)
        (st : State Database) :
  online (world st) = true ->
  writable (world st) = true ->
  vendors_of u (world st) = [v] ->
  editingItem (ui st) = Some item ->
  selectedImage (ui st) = None ->
  let data := menuItemData v (formData (ui st)) (previous_image (Some item)) in
  menu_items (world (snd (handleSubmit (Some u) st)))
  = map (fun r => if String.eqb (id r) (id item) then updated data r else r)
        (menu_items (world st))
  /\ (forall r, image (updated data r) = image item
                /\ id (updated data r) = id r
                /\ vendor_id (updated data r) = v_id v
                /\ price (updated data r)
                   = JS.parseFloat (f_price (formData (ui st))))
  /\ menuItems (ui (snd (handleSubmit (Some u) st)))
     = sort_by String.leb category
         (of_vendor v (menu_items (world (snd (handleSubmit (Some u) st)))))
  /\ toasts (snd (handleSubmit (Some u) st))
     = toasts st ++ [save_success (Some item)].
Proof.
  intros Ho Hw Hv He Hsel data.
  destruct (submit_to_store u v st _ _
              (with_tables (world st)
                 (map (fun r => if String.eqb (id r) (id item)
                                then updated data r else r)
                      (menu_items (world st)))
                 (objects (world st)) (row_ids (world st)))
              Ho Hv (chooseImage_without_file _ _ Hsel))
    as (Hm & Hwd & Ht & Hd & _).
  { rewrite He. apply (serve_update _ _ _ Ho Hw). }
  { exact Ho. }
  { exact Hv. }
  rewrite Hm, Hwd, Ht, He. cbn [menu_items with_tables].
  repeat split.
  unfold updated, data, previous_image. cbn [image d_image menuItemData].
  now destruct (image item).
Qed.

(** X24: in front of such a store, the submit of a new item with a
    selected file draws one identifier, stores the file in the bucket
    under that identifier followed by the extension of the file, and
    appends one row whose image is the public address of that very
    object; the list shown afterwards holds the row. *)
Theorem upload_then_create (u : string) (v : Vendor) (f : File)
        (st : State Database) :
  online (world st) = true ->
  writable (world st) = true ->
  vendors_of u (world st) = [v] ->
  editingItem (ui st) = None ->
  selectedImage (ui st) = Some f ->
  let path := upload_path (hd "" (uuids (world st))) f in
  let row := stored (hd "" (row_ids (world st)))
                    (menuItemData v (formData (ui st))
                       (Defined (publicUrl "menu_items" path))) in
  objects (world (snd (handleSubmit (Some u) st)))
  = objects (world st) ++ [("menu_items", path, f)]
  /\ uuids (world (snd (handleSubmit (Some u) st))) = tl (uuids (world st))
  /\ menu_items (world (snd (handleSubmit (Some u) st)))
     = menu_items (world st) ++ [row]
  /\ image row = Some (publicUrl "menu_items" path)
  /\ In row (menuItems (ui (snd (handleSubmit (Some u) st))))
  /\ selectedImage (ui (snd (handleSubmit (Some u) st))) = None.
Proof.
  intros Ho Hw Hv He Hsel path row.
  destruct (chooseImage_with_file (ui st) f
              (sent st (Call (lookup (Some u)) None) (world st)) Ho Hw Hsel)
    as (stI & Hc & HwI).
  cbn [world sent] in Hc, HwI.
  destruct (submit_to_store u v st _ stI
              (with_tables (world stI) (menu_items (world stI) ++ [row])
                 (objects (world stI)) (tl (row_ids (world stI))))
              Ho Hv Hc) as (Hm & Hwd & _ & _ & Hsi).
  { rewrite He. cbn [save_request].
    rewrite serve_insert by (rewrite HwI; assumption).
    rewrite HwI. reflexivity. }
  { rewrite HwI. exact Ho. }
  { rewrite HwI. exact Hv. }
  rewrite Hm, Hwd, Hsi, HwI.
  cbn [objects uuids menu_items with_tables draw snd].
  repeat split.
  apply in_sorted. rewrite in_app_iff. cbn [In].
  split; [now right; left|reflexivity].
Qed.

(** *** Concrete runs *)

Lemma load_rejection_keeps_list_example :
  let st := on (screen None None emptyForm) unreachable_store in
  let st' := snd (loadMenuItems (Some "u1") st) in
  toasts st' = [load_failure]
  /\ console st' = [logged "Error loading menu items:" "Failed to fetch"]
  /\ menuItems (ui st') = [bibimbap; tea]
  /\ loading (ui st') = false.
Proof.
  intros st st'.
  apply (load_rejection_keeps_list (Some "u1") st "Failed to fetch").
  left. exists unreachable_store. reflexivity.
Defined.

Lemma load_select_error_example :
  let st : State unit := on (screen None None emptyForm) tt in
  let st' := snd (@loadMenuItems unit (refusing vendor1) (Some "u1") st) in
  toasts st' = [] /\ menuItems (ui st') = [] /\ loading (ui st') = false.
Proof.
  intros st st'.
  exact (@load_select_error_is_silent unit (refusing vendor1) (Some "u1") st
           vendor1 None (Some "permission denied") tt tt eq_refl eq_refl).
Defined.

Lemma submit_success_example :
  let st := on (screen None None (form "4.5")) store in
  let st' := snd (handleSubmit (Some "u1") st) in
  existsb saved_without_error (since st st') = true
  /\ isDialogOpen (ui st') = false
  /\ editingItem (ui st') = None
  /\ selectedImage (ui st') = None
  /\ formData (ui st') = emptyForm.
Proof.
  intros st st'.
  assert (Hs : existsb saved_without_error (since st st') = true)
    by (vm_compute; reflexivity).
  destruct (submit_success_closes_and_reloads (Some "u1") st Hs)
    as (_ & Hd & He & Hi & Hf & _).
  split; [exact Hs|]. split; [exact Hd|]. split; [exact He|].
  split; [exact Hi|exact Hf].
Defined.

Lemma submit_record_example :
  let st := on (screen (Some bibimbap) None (form "4.5")) store in
  let d := tteokbokki (Defined "https://cdn.example/old.png") in
  flat_map written (since st (snd (handleSubmit (Some "u1") st))) = [d]
  /\ d_vendor_id d = "v1"
  /\ exists outcome,
      In (Call (menu_items_update d [("id", Some "m1")]) outcome)
         (since st (snd (handleSubmit (Some "u1") st))).
Proof.
  intros st d.
  assert (Hin : In d (flat_map written
                        (since st (snd (handleSubmit (Some "u1") st))))).
  { vm_compute. left. reflexivity. }
  assert (Hl : send Vendor (lookup (Some "u1")) (world st)
               = (Resolved (Some vendor1) None, store)) by reflexivity.
  destruct (submit_record_and_request (Some "u1") st vendor1 None store d
              Hl Hin) as (H1 & H2 & _ & _ & _ & H3).
  split; [exact H1|]. split; [exact H2|exact H3].
Defined.

Lemma submit_without_vendor_example :
  let st := on (screen None (Some photo) (form "4.5")) store in
  let st' := snd (handleSubmit (Some "u9") st) in
  (exists outcome, since st st' = [Call (lookup (Some "u9")) outcome])
  /\ ui st' = ui st
  /\ toasts st' = [save_failure]
  /\ console st' = [logged "Error saving menu item:" "Vendor not found"].
Proof.
  intros st st'.
  apply (submit_without_vendor (Some "u9") st "Vendor not found").
  left. exists (Some "no single row"), store. split; reflexivity.
Defined.

Lemma submit_upload_failure_example :
  let st := on (screen None (Some photo) (form "4.5")) read_only_store in
  let st' := snd (handleSubmit (Some "u1") st) in
  since st st'
  = [Call (lookup (Some "u1")) None; Drew "3f0c";
     Call (upload_request "3f0c" photo) (Some "permission denied")]
  /\ ui st' = ui st
  /\ toasts st' = [save_failure]
  /\ console st'
     = [logged "Error uploading image:" "permission denied";
        logged "Error saving menu item:" "permission denied"].
Proof.
  intros st st'.
  assert (Hl : send Vendor (lookup (Some "u1")) (world st)
               = (Resolved (Some vendor1) None, read_only_store))
    by reflexivity.
  assert (Hd : randomUUID read_only_store
               = ("3f0c", snd (draw read_only_store))) by reflexivity.
  destruct (submit_upload_failure (Some "u1") st photo vendor1 None
              read_only_store (snd (draw read_only_store))
              "3f0c" "permission denied" eq_refl Hl Hd)
    as (_ & H1 & _ & H2 & H3 & H4).
  { left. exists None, (snd (draw read_only_store)). reflexivity. }
  split; [exact H1|]. split; [exact H2|]. split; [exact H3|exact H4].
Defined.

Lemma edit_then_submit_keeps_fields_example :
  let st := on (screen None None emptyForm) store in
  let st1 := snd (handleEdit bibimbap st) in
  let d := menuItemData vendor1 (formData (ui st1))
                        (Defined "https://cdn.example/old.png") in
  In d (flat_map written (since st1 (snd (handleSubmit (Some "u1") st1))))
  /\ d_name d = "Bibimbap"
  /\ d_description d = Some "Rice bowl"
  /\ d_name_ko d = None.
Proof.
  intros st st1 d.
  assert (Hin : In d (flat_map written
                        (since st1 (snd (handleSubmit (Some "u1") st1))))).
  { vm_compute. left. reflexivity. }
  destruct (edit_then_submit_keeps_fields (Some "u1") st bibimbap d Hin)
    as (H1 & _ & _ & _ & _ & _ & H2 & H3 & _).
  split; [exact Hin|]. split; [exact H1|].
  split; [apply H3; discriminate|apply H2; discriminate].
Defined.

Lemma edit_keeps_selected_file_example :
  let st := on (screen None (Some photo) emptyForm) store in
  let st1 := snd (handleEdit tea st) in
  let d := menuItemData vendor1 (formData (ui st1))
                        (Defined (publicUrl "menu_items" "3f0c.png")) in
  In d (flat_map written (since st1 (snd (handleSubmit (Some "u1") st1))))
  /\ selectedImage (ui st1) = Some photo
  /\ image tea = None.
Proof.
  intros st st1 d.
  assert (Hin : In d (flat_map written
                        (since st1 (snd (handleSubmit (Some "u1") st1))))).
  { vm_compute. left. reflexivity. }
  destruct (edit_keeps_selected_file (Some "u1") st tea photo d eq_refl Hin)
    as (H1 & _).
  split; [exact Hin|]. split; [exact H1|reflexivity].
Defined.

Lemma add_item_then_submit_example :
  let st := on (screen (Some bibimbap) (Some photo) (form "4.5")) store in
  let st1 := snd (addItemClick st) in
  let d := menuItemData vendor1 emptyForm Undefined in
  In d (flat_map written (since st1 (snd (handleSubmit (Some "u1") st1))))
  /\ d_name d = ""
  /\ JS.isNaN (d_price d) = true
  /\ existsb is_upload (since st1 (snd (handleSubmit (Some "u1") st1)))
     = false.
Proof.
  intros st st1 d.
  assert (Hin : In d (flat_map written
                        (since st1 (snd (handleSubmit (Some "u1") st1))))).
  { vm_compute. left. reflexivity. }
  destruct (add_item_then_submit (Some "u1") st d Hin)
    as (_ & H1 & _ & H2 & _ & _ & H3).
  split; [exact Hin|]. split; [exact H1|]. split; [exact H2|exact H3].
Defined.

Lemma delete_failure_keeps_list_example :
  let st := on (screen None None emptyForm) read_only_store in
  let st' := snd (handleDelete (Some "u1") "m1" st) in
  ui st' = ui st
  /\ toasts st' = [delete_failure]
  /\ console st' = [logged "Error deleting menu item:" "permission denied"]
  /\ since st st' = [Call (delete_request "m1") (Some "permission denied")].
Proof.
  intros st st'.
  apply (delete_failure_keeps_list (Some "u1") "m1" "permission denied" st
           read_only_store).
  left. exists None. reflexivity.
Defined.

Lemma delete_success_reloads_example :
  let st := on (screen None None emptyForm) store in
  let st' := snd (handleDelete (Some "u1") "m1" st) in
  (exists e rest,
      since st st'
      = Call (delete_request "m1") None :: Call (lookup (Some "u1")) e :: rest
      /\ (List.length rest <= 1)%nat)
  /\ loading (ui st') = false.
Proof.
  intros st st'.
  assert (Hs : send unit (delete_request "m1") (world st)
               = (Resolved None None, snd (serve (delete_request "m1") store)))
    by reflexivity.
  destruct (delete_success_reloads (Some "u1") "m1" st None _ Hs)
    as (H1 & _ & H2).
  split; assumption.
Defined.

Lemma delete_then_list_example :
  let st := on (screen None None emptyForm) store in
  let st' := snd (handleDelete (Some "u1") "m1" st) in
  (forall r, In r (menuItems (ui st'))
             <-> In r [bibimbap; tea; ramen]
                 /\ vendor_id r = "v1" /\ id r <> "m1")
  /\ toasts st' = [delete_success].
Proof.
  intros st st'.
  destruct (delete_then_list "u1" "m1" vendor1 st eq_refl eq_refl eq_refl)
    as (H1 & _ & H2).
  split; assumption.
Defined.

Lemma create_then_list_example :
  let st := on (screen None None (form "4.5")) store in
  let st' := snd (handleSubmit (Some "u1") st) in
  let row := stored "m4" (tteokbokki Undefined) in
  menu_items (world st') = [bibimbap; tea; ramen; row]
  /\ In row (menuItems (ui st'))
  /\ isDialogOpen (ui st') = false.
Proof.
  intros st st' row.
  destruct (create_then_list "u1" vendor1 st eq_refl eq_refl eq_refl
              eq_refl eq_refl) as (H1 & _ & _ & H2 & H3 & _).
  split; [exact H1|]. split; [exact H2|exact H3].
Defined.

Lemma update_then_list_example :
  let st := on (screen (Some bibimbap) None (form "4.5")) store in
  let st' := snd (handleSubmit (Some "u1") st) in
  let data := tteokbokki (Defined "https://cdn.example/old.png") in
  menu_items (world st') = [updated data bibimbap; tea; ramen]
  /\ image (updated data bibimbap) = Some "https://cdn.example/old.png"
  /\ toasts st' = [save_success (Some bibimbap)].
Proof.
  intros st st' data.
  destruct (update_then_list "u1" vendor1 bibimbap st eq_refl eq_refl
              eq_refl eq_refl eq_refl) as (H1 & H2 & _ & H3).
  split; [exact H1|]. split; [exact (proj1 (H2 bibimbap))|exact H3].
Defined.

Lemma upload_then_create_example :
  let st := on (screen None (Some photo) (form "4.5")) store in
  let st' := snd (handleSubmit (Some "u1") st) in
  let url := publicUrl "menu_items" "3f0c.png" in
  objects (world st') = [("menu_items", "3f0c.png", photo)]
  /\ uuids (world st') = ["9a1e"]
  /\ In (stored "m4" (tteokbokki (Defined url))) (menuItems (ui st')).
Proof.
  intros st st' url.
  destruct (upload_then_create "u1" vendor1 photo st eq_refl eq_refl
              eq_refl eq_refl eq_refl) as (H1 & H2 & _ & _ & H3 & _).
  split; [exact H1|]. split; [exact H2|exact H3].
Defined.

End StoreBehaviour.
